(** * LangBois: the encrypted item store of [src/python/utilities]

    A shallow embedding of [api_key_manager.py] ([SecureAPIKeyManager],
    [interactive_key_setup]) and [config_manager.py] ([ConfigManager],
    [interactive_config_manager], [main]), and the properties of the
    specification that concern them.

    Conventions of the embedding:
    - Python [str] and [bytes] are both [string] (a sequence of 8-bit
      characters); a [str] is held as its UTF-8 bytes, so [str.encode()] is
      the identity, and [bytes.decode()] and the read of a file opened in
      text mode are a validity check.
    - A structured value (what [json] and [yaml] encode) is a tree of
      [json]; its numbers are integers, floating point is not modelled.
      The items of a mapping are a list, in the order of the dictionary;
      [py_eq] is Python's [==], which does not look at that order.
    - The file system is a finite map from directory paths to directories,
      a directory being a finite map from entry names to file contents.
      Paths are strings compared verbatim: [.] and [..] components and
      links are not resolved.  The empty path names no directory; the
      files of relative paths are the entries of the map at the empty
      path.
    - Methods run in a state-and-exception monad over the [world] (file
      system, standard output, calls to remote SDKs); the state reached
      when an exception is raised is kept, as in Python.  What the OS
      random source and the clock give to a call is an argument [rnd] of
      that call.
    - Dictionaries are objects of a store, referred to by their identity,
      where the code updates them in place ([merge_configs]).
    - The third-party libraries (cryptography.fernet, json, yaml, the
      remote SDKs) are a record of functions, [pylibs]; what a theorem
      needs of them is a hypothesis of that theorem.
    - The dialogues ([interactive_key_setup], [interactive_config_manager])
      run on a terminal: the world, the lines that [input] has still to
      read, and what was shown.  The built-in functions they use
      ([str.lower], [int], [str] of a tuple or of a list) are a record of
      functions, [dialogue.builtins].

    The definitions come first, then the properties, by component of the
    specification, then further properties of the code. *)

From Stdlib Require Import ZArith Ascii String.
From stdpp Require Import gmap strings list fin_maps pretty.

Local Open Scope string_scope.

#[local] Set Warnings "-register-all".


(** ** Python string operations *)

Module Py.

(** [s.startswith(p)] *)
Fixpoint startswith (s p : string) : bool :=
  match p, s with
  | EmptyString, _ => true
  | String a p', String b s' => if Ascii.eqb a b then startswith s' p' else false
  | String _ _, EmptyString => false
  end.

Fixpoint drop (n : nat) (s : string) : string :=
  match n, s with
  | O, _ => s
  | S n', String _ s' => drop n' s'
  | S _, EmptyString => EmptyString
  end.

(** [s.endswith(p)] *)
Definition endswith (s p : string) : bool :=
  startswith (String.rev s) (String.rev p).

(** [c in s] for a single character *)
Fixpoint contains (c : ascii) (s : string) : bool :=
  match s with
  | EmptyString => false
  | String a s' => if Ascii.eqb a c then true else contains c s'
  end.

(** The scan of [s.replace(old, new)] for a non-empty [old]: [skip] counts
    the characters of a match that are still to be dropped. *)
Fixpoint replace_scan (old new : string) (skip : nat) (s : string) : string :=
  match s with
  | EmptyString => EmptyString
  | String a s' =>
      match skip with
      | S k => replace_scan old new k s'
      | O =>
          if startswith s old
          then new +:+ replace_scan old new (String.length old - 1) s'
          else String a (replace_scan old new O s')
      end
  end.

Fixpoint intersperse (new : string) (s : string) : string :=
  match s with
  | EmptyString => EmptyString
  | String a s' => String a (new +:+ intersperse new s')
  end.

(** [s.replace(old, new)]: every non-overlapping occurrence, left to right;
    an empty [old] matches before each character and at the end. *)
Definition replace (s old new : string) : string :=
  match old with
  | EmptyString => new +:+ intersperse new s
  | String _ _ => replace_scan old new O s
  end.

(** [s.rstrip(c)] for one character *)
Definition rstrip (c : ascii) (s : string) : string :=
  let fix go (r : string) : string :=
    match r with
    | EmptyString => EmptyString
    | String a r' => if Ascii.eqb a c then go r' else r
    end in
  String.rev (go (String.rev s)).

(** All characters of [s] are [c]. *)
Fixpoint all_char (c : ascii) (s : string) : bool :=
  match s with
  | EmptyString => true
  | String a s' => if Ascii.eqb a c then all_char c s' else false
  end.

(** [(s[:i+1], s[i+1:])] for [i = s.rfind(c)], when [c] occurs in [s]. *)
Fixpoint cut_last (c : ascii) (s : string) : option (string * string) :=
  match s with
  | EmptyString => None
  | String a r =>
      match cut_last c r with
      | Some (h, t) => Some (String a h, t)
      | None => if Ascii.eqb a c then Some (String a EmptyString, r) else None
      end
  end.

(** [s[:-1]] *)
Definition chop (s : string) : string :=
  String.rev (drop 1 (String.rev s)).

(** [s[-1]], when [s] is not empty *)
Fixpoint last_char (s : string) : option ascii :=
  match s with
  | EmptyString => None
  | String a EmptyString => Some a
  | String _ r => last_char r
  end.

End Py.

(** ** [os.path] (posixpath) *)

Module os_path.

Definition sep : ascii := "/"%char.
Definition extsep : ascii := "."%char.

(** [os.path.join(a, b)] *)
Definition join (a b : string) : string :=
  if Py.startswith b "/" then b
  else if orb (String.eqb a "") (Py.endswith a "/") then a +:+ b
  else a +:+ "/" +:+ b.

(** [os.path.split(p)] *)
Definition split (p : string) : string * string :=
  match Py.cut_last sep p with
  | None => ("", p)
  | Some (head, tail) =>
      (if Py.all_char sep head then head else Py.rstrip sep head, tail)
  end.

(** [os.path.splitext(p)] *)
Definition splitext (p : string) : string * string :=
  let '(dir, base) :=
    match Py.cut_last sep p with
    | None => ("", p)
    | Some (d, b) => (d, b)
    end in
  match Py.cut_last extsep base with
  | None => (p, "")
  | Some (stem_dot, ext) =>
      let stem := Py.chop stem_dot in
      if Py.all_char extsep stem then (p, "")
      else (dir +:+ stem, String extsep ext)
  end.

End os_path.

(** ** [fnmatch] and [glob] patterns *)

Module fnmatch.

(** One element of a translated pattern: [*], [?], a bracket set (negated
    or not) of character ranges, or a literal character. *)
Inductive tok :=
| Star
| AnyChar
| CharSet (negated : bool) (ranges : list (ascii * ascii))
| Lit (c : ascii).

(** The ranges of the text between the brackets: [a-b] is a range, any
    other character stands for itself. *)
Fixpoint set_items (s : string) : list (ascii * ascii) :=
  match s with
  | EmptyString => []
  | String a (String "-" (String b r)) => (a, b) :: set_items r
  | String a r => (a, a) :: set_items r
  end.

(** The text up to the first closing bracket, when there is one. *)
Fixpoint until_close (s : string) : option string :=
  match s with
  | EmptyString => None
  | String a r =>
      if Ascii.eqb a "]" then Some EmptyString
      else match until_close r with
           | Some t => Some (String a t)
           | None => None
           end
  end.

(** What follows an opening bracket: the set and the number of characters
    it takes (closing bracket included), or [None] when the bracket is not
    closed and stands for itself.  A leading [!] negates; a closing bracket
    in first position belongs to the set. *)
Definition parse_set (r : string) : option (tok * nat) :=
  let '(neg, r1) :=
    match r with
    | String "!" r' => (true, r')
    | _ => (false, r)
    end in
  let '(first, r2) :=
    match r1 with
    | String "]" r' => ("]", r')
    | _ => ("", r1)
    end in
  match until_close r2 with
  | None => None
  | Some body =>
      let stuff := first +:+ body in
      Some (CharSet neg (set_items stuff),
            (if neg then 1 else 0) + String.length stuff + 1)
  end.

(** [fnmatch.translate]: the pattern as a list of [tok]. *)
Fixpoint translate_from (skip : nat) (pat : string) : list tok :=
  match pat with
  | EmptyString => []
  | String c r =>
      match skip with
      | S k => translate_from k r
      | O =>
          if Ascii.eqb c "*" then Star :: translate_from O r
          else if Ascii.eqb c "?" then AnyChar :: translate_from O r
          else if Ascii.eqb c "[" then
            match parse_set r with
            | Some (t, n) => t :: translate_from n r
            | None => Lit c :: translate_from O r
            end
          else Lit c :: translate_from O r
      end
  end.

Definition translate (pat : string) : list tok := translate_from O pat.

Definition in_range (c : ascii) (r : ascii * ascii) : bool :=
  andb (Nat.leb (nat_of_ascii (fst r)) (nat_of_ascii c))
       (Nat.leb (nat_of_ascii c) (nat_of_ascii (snd r))).

(** The whole of [s] matches the pattern. *)
Fixpoint match_toks (ts : list tok) (s : string) : bool :=
  match ts with
  | [] => match s with EmptyString => true | _ => false end
  | Star :: ts' =>
      (fix star (s : string) : bool :=
         orb (match_toks ts' s)
             (match s with
              | EmptyString => false
              | String _ s' => star s'
              end)) s
  | AnyChar :: ts' =>
      match s with
      | EmptyString => false
      | String _ s' => match_toks ts' s'
      end
  | CharSet neg rs :: ts' =>
      match s with
      | EmptyString => false
      | String c s' =>
          andb (xorb neg (existsb (in_range c) rs)) (match_toks ts' s')
      end
  | Lit a :: ts' =>
      match s with
      | EmptyString => false
      | String c s' => andb (Ascii.eqb a c) (match_toks ts' s')
      end
  end.

(** [fnmatch.fnmatch(name, pat)] on a POSIX host *)
Definition fnmatch (name pat : string) : bool :=
  match_toks (translate pat) name.

(** [glob.has_magic] *)
Definition has_magic (s : string) : bool :=
  orb (Py.contains "*" s) (orb (Py.contains "?" s) (Py.contains "[" s)).

(** [glob._ishidden] *)
Definition ishidden (s : string) : bool := Py.startswith s ".".

End fnmatch.

(** ** UTF-8: [bytes.decode()] and [str.encode()] *)

Module utf8.

Definition between (lo hi n : nat) : bool := andb (Nat.leb lo n) (Nat.leb n hi).

(** [pending] continuation bytes are still expected, the next of them in
    [lo..hi] (the first continuation byte of some sequences is restricted,
    which rules out overlong forms, surrogates and code points above
    U+10FFFF). *)
Fixpoint scan (pending lo hi : nat) (s : string) : bool :=
  match s with
  | EmptyString => Nat.eqb pending 0
  | String c r =>
      let n := nat_of_ascii c in
      match pending with
      | S k => andb (between lo hi n) (scan k 128 191 r)
      | O =>
          if Nat.leb n 127 then scan 0 128 191 r
          else if between 194 223 n then scan 1 128 191 r
          else if Nat.eqb n 224 then scan 2 160 191 r
          else if between 225 236 n then scan 2 128 191 r
          else if Nat.eqb n 237 then scan 2 128 159 r
          else if between 238 239 n then scan 2 128 191 r
          else if Nat.eqb n 240 then scan 3 144 191 r
          else if between 241 243 n then scan 3 128 191 r
          else if Nat.eqb n 244 then scan 3 128 143 r
          else false
      end
  end.

Definition valid (s : string) : bool := scan 0 128 191 s.

(** [b.decode()]: [None] stands for [UnicodeDecodeError]. *)
Definition decode (b : string) : option string :=
  if valid b then Some b else None.

(** [s.encode()] *)
Definition encode (s : string) : string := s.

End utf8.

(** ** Structured values (what [json] and [yaml] encode and decode) *)

Inductive json :=
| JNull
| JBool (b : bool)
| JNum (n : Z)
| JStr (s : string)
| JList (l : list json)
| JDict (items : list (string * json)).

(** [f] holds of the elements of two lists of the same length, pair by
    pair. *)
Fixpoint all2 {A B} (f : A → B → bool) (l : list A) (m : list B) : bool :=
  match l, m with
  | [], [] => true
  | x :: l', y :: m' => f x y && all2 f l' m'
  | _, _ => false
  end.

(** [a == b] for two structured values: [True] and [False] are the
    integers 1 and 0; two lists are equal item by item; two dictionaries
    are equal when they have as many items and each key of the first has
    an equal value in the second, whatever the order of the items. *)
Fixpoint py_eq (a b : json) {struct a} : bool :=
  match a, b with
  | JNull, JNull => true
  | JBool x, JBool y => Bool.eqb x y
  | JBool x, JNum n => Z.eqb (Z.b2z x) n
  | JNum n, JBool y => Z.eqb n (Z.b2z y)
  | JNum n, JNum m => Z.eqb n m
  | JStr s, JStr t => String.eqb s t
  | JList l, JList m => all2 py_eq l m
  | JDict its, JDict its' =>
      Nat.eqb (length its) (length its')
      && forallb (λ kv, existsb (λ kv', String.eqb (fst kv) (fst kv')
                                        && py_eq (snd kv) (snd kv')) its') its
  | _, _ => false
  end.

(** ** Exceptions *)

Inductive exn :=
| FileNotFoundError
| FileExistsError
| IsADirectoryError
| NotADirectoryError
| AttributeError
| ValueError
| InvalidToken
| JSONDecodeError
| YAMLError
| UnicodeDecodeError
| TypeError
| RecursionError
| SDKError (code : nat).

(** ** The third-party libraries *)

Record pylibs := {
  (** [Fernet.generate_key()], from the bytes the OS random source gives *)
  Fernet_generate_key : string → string;
  (** whether [Fernet(key)] accepts the key ([ValueError] otherwise) *)
  Fernet_key_ok : string → bool;
  (** [Fernet(key).encrypt(data)], from the key, the IV and time of the
      call, and the data *)
  Fernet_encrypt : string → string → string → string;
  (** [Fernet(key).decrypt(token)]; [None] stands for [InvalidToken] *)
  Fernet_decrypt : string → string → option string;
  (** [json.dumps(v)] *)
  json_dumps : json → string;
  (** what [json.dump(v, f, indent=2)] writes *)
  json_dump_indent2 : json → string;
  (** [json.loads(s)], for the text or the bytes [s]; [None] when it
      raises *)
  json_loads : string → option json;
  (** the exception that [json.loads(s)] raises then: [JSONDecodeError]
      for a text that is not JSON, [UnicodeDecodeError] for bytes that are
      not a text *)
  json_loads_exn : string → exn;
  (** what [yaml.safe_dump(v, f, default_flow_style=False)] writes *)
  yaml_safe_dump : json → string;
  (** [yaml.safe_load(s)] for the text [s]; [None] when it raises *)
  yaml_safe_load : string → option json;
  (** the exception that [yaml.safe_load(s)] raises then, a [YAMLError]
      for a text that is not YAML *)
  yaml_safe_load_exn : string → exn;
  (** the model listing call of the SDK of a provider with an API key:
      the exception it raises, if any *)
  sdk_list_models : string → string → option nat;
}.

(** ** The world, and the monad of methods *)

(** A line printed on the standard output. *)
Inductive line :=
| Error_decrypting (service : string) (e : exn)
| Validation_failed (service : string) (e : exn).

Abbreviation filesystem := (gmap string (gmap string string)).

Record world := World {
  (** directory path ↦ entry name ↦ content *)
  fs : filesystem;
  (** the home directory, [os.path.expanduser("~")] *)
  home : string;
  stdout : list line;
  (** the calls made to remote SDKs: provider and API key *)
  remote_calls : list (string * string);
}.

Definition with_fs (w : world) (f : filesystem) : world :=
  {| fs := f; home := home w; stdout := stdout w; remote_calls := remote_calls w |}.

Inductive outcome (A : Type) :=
| Return (a : A)
| Raise (e : exn).
Arguments Return {A} a.
Arguments Raise {A} e.

Definition M (A : Type) : Type := world → outcome A * world.

Definition ret {A} (a : A) : M A := λ w, (Return a, w).
Definition raise {A} (e : exn) : M A := λ w, (Raise e, w).
Definition bind {A B} (m : M A) (k : A → M B) : M B :=
  λ w, match m w with
       | (Return a, w') => k a w'
       | (Raise e, w') => (Raise e, w')
       end.
(** [try: m except Exception as e: h e] *)
Definition try_except {A} (m : M A) (h : exn → M A) : M A :=
  λ w, match m w with
       | (Return a, w') => (Return a, w')
       | (Raise e, w') => h e w'
       end.

Notation "x <- c1 ;; c2" := (bind c1 (λ x, c2))
  (at level 100, c1 at next level, right associativity).
Notation "c1 ;; c2" := (bind c1 (λ _, c2))
  (at level 100, right associativity).

(** [for x in xs: body x] *)
Fixpoint for_each {A} (xs : list A) (body : A → M unit) : M unit :=
  match xs with
  | [] => ret tt
  | x :: xs' => body x ;; for_each xs' body
  end.

(** The world after [l] is printed. *)
Definition printed (w : world) (l : line) : world :=
  {| fs := fs w; home := home w; stdout := stdout w ++ [l];
     remote_calls := remote_calls w |}.

Definition print (l : line) : M unit := λ w, (Return tt, printed w l).

(** [None] of a library function is the exception [e]. *)
Definition or_raise {A} (o : option A) (e : exn) : M A :=
  match o with
  | Some a => ret a
  | None => raise e
  end.

(** ** The file system *)

Module os.

(** The content of the regular file at [p], if there is one. *)
Definition file_at (f : filesystem) (p : string) : option string :=
  let '(d, b) := os_path.split p in
  match f !! d with
  | Some entries => entries !! b
  | None => None
  end.

Definition is_file (f : filesystem) (p : string) : bool :=
  bool_decide (is_Some (file_at f p)).

(** [os.path.isdir(p)]: the empty path names no directory. *)
Definition is_dir (f : filesystem) (p : string) : bool :=
  bool_decide (p ≠ "" ∧ is_Some (f !! p)).

(** [p] is a regular file that holds [data]. *)
Definition regular_file (f : filesystem) (p data : string) : Prop :=
  file_at f p = Some data ∧ is_dir f p = false.

(** Nothing is at [p]. *)
Definition missing (f : filesystem) (p : string) : Prop :=
  file_at f p = None ∧ is_dir f p = false.

(** [os.path.exists(p)] *)
Definition path_exists (p : string) : M bool :=
  λ w, (Return (orb (is_file (fs w) p) (is_dir (fs w) p)), w).

(** The directories above [p], the nearest first: [os.path.dirname] again
    and again, up to the root or to the start of a relative path.  Each
    one is shorter than the one before, so the length of [p] is enough
    [fuel]. *)
Fixpoint parents (fuel : nat) (p : string) : list string :=
  match fuel with
  | O => []
  | S fuel' =>
      let d := (os_path.split p).1 in
      if (String.eqb d "" || String.eqb d p)%bool then [] else d :: parents fuel' d
  end.

Definition ancestors (p : string) : list string := parents (String.length p) p.

(** The directory [d] is made unless it is there. *)
Definition ensure_dir (d : string) (f : filesystem) : filesystem :=
  match f !! d with
  | Some _ => f
  | None => <[d := ∅]> f
  end.

(** [os.makedirs(p, exist_ok=True)]: an existing directory is accepted,
    an existing file is not; the directories above [p] are made as
    needed, and none of them may be a file. *)
Definition makedirs (p : string) : M unit :=
  λ w, if String.eqb p "" then (Raise FileNotFoundError, w)
       else if is_dir (fs w) p then (Return tt, w)
       else if is_file (fs w) p then (Raise FileExistsError, w)
       else if existsb (is_file (fs w)) (ancestors p) then (Raise NotADirectoryError, w)
       else (Return tt, with_fs w (foldr ensure_dir (fs w) (p :: ancestors p))).

(** The content of the file at [p] becomes [data]: the directory must
    exist and [p] must not be a directory. *)
Definition put_file (p data : string) : M unit :=
  λ w, let '(d, b) := os_path.split p in
       if is_dir (fs w) p then (Raise IsADirectoryError, w)
       else match fs w !! d with
            | Some entries =>
                (Return tt, with_fs w (<[d := <[b := data]> entries]> (fs w)))
            | None => (Raise FileNotFoundError, w)
            end.

(** [open(p, 'rb').read()] or [open(p, 'r').read()] *)
Definition read_file (p : string) : M string :=
  λ w, if is_dir (fs w) p then (Raise IsADirectoryError, w)
       else match file_at (fs w) p with
            | Some data => (Return data, w)
            | None => (Raise FileNotFoundError, w)
            end.

(** [os.remove(p)] *)
Definition remove (p : string) : M unit :=
  λ w, let '(d, b) := os_path.split p in
       if is_dir (fs w) p then (Raise IsADirectoryError, w)
       else match fs w !! d with
            | Some entries =>
                match entries !! b with
                | Some _ => (Return tt, with_fs w (<[d := delete b entries]> (fs w)))
                | None => (Raise FileNotFoundError, w)
                end
            | None => (Raise FileNotFoundError, w)
            end.

(** The names of the sub-directories of [d]. *)
Definition subdirs (f : filesystem) (d : string) : list string :=
  omap (λ e, let '(d', n) := os_path.split e in
             if String.eqb d' d && negb (String.eqb n "") then Some n else None)
       (map fst (map_to_list f)).

(** [os.listdir(d)]: the files of [d] in the order of the map, then its
    sub-directories. *)
Definition listdir (d : string) : M (list string) :=
  λ w, match fs w !! d with
       | Some entries =>
           if String.eqb d "" then (Raise FileNotFoundError, w)
           else (Return (map fst (map_to_list entries) ++ subdirs (fs w) d)%list, w)
       | None =>
           (Raise (if is_file (fs w) d then NotADirectoryError else FileNotFoundError), w)
       end.

(** *** Buffered writers: [open(p, 'wb')] and [open(p, 'w')]

    Opening truncates or creates the file.  What is written stays in the
    buffer of the writer while it fits, and reaches the file when the
    writer is closed (at the end of the [with] block).  The buffer is
    given its default size; [open] takes the block size of the file
    instead where the system reports one, which is as far above the 44
    characters of a key. *)

Definition DEFAULT_BUFFER_SIZE : N := 8192.

Record writer := { w_path : string; w_buffer : string }.

Definition open_write (p : string) : M writer :=
  put_file p "" ;; ret {| w_path := p; w_buffer := "" |}.

Definition append_file (p data : string) : M unit :=
  old <- read_file p ;; put_file p (old +:+ data).

Definition write (f : writer) (data : string) : M writer :=
  let buffered := w_buffer f +:+ data in
  if N.leb (N.of_nat (String.length buffered)) DEFAULT_BUFFER_SIZE
  then ret {| w_path := w_path f; w_buffer := buffered |}
  else append_file (w_path f) buffered ;;
       ret {| w_path := w_path f; w_buffer := "" |}.

Definition close (f : writer) : M unit :=
  append_file (w_path f) (w_buffer f).

(** [with open(p, 'wb') as f: f.write(data)] *)
Definition write_file (p data : string) : M unit :=
  f <- open_write p ;; f <- write f data ;; close f.

End os.

(** *** [glob.glob] *)

Module glob.

(** The names of [names] that [pat] selects: [fnmatch.filter], after the
    names starting with a dot are dropped unless the pattern starts with
    one. *)
Definition select (pat : string) (names : list string) : list string :=
  filter (λ n, orb (fnmatch.ishidden pat) (negb (fnmatch.ishidden n))
               && fnmatch.fnmatch n pat = true) names.

(** The entry names of directory [d]: no names if it cannot be listed. *)
Definition entries (f : filesystem) (d : string) : list string :=
  match f !! d with
  | Some es => map fst (map_to_list es)
  | None => []
  end.

(** [glob1(dirname, pattern, dironly)] *)
Definition glob1 (f : filesystem) (dirname pat : string) (dironly : bool) : list string :=
  select pat (if dironly then os.subdirs f dirname
              else entries f dirname ++ os.subdirs f dirname).

(** [glob0(dirname, basename, dironly)] *)
Definition glob0 (f : filesystem) (dirname basename : string) (dironly : bool) : list string :=
  if String.eqb basename "" then
    (if os.is_dir f dirname then [basename] else [])
  else
    let p := os_path.join dirname basename in
    if (os.is_dir f p || (negb dironly && os.is_file f p))%bool then [basename] else [].

(** [_iglob(pathname, recursive=False, dironly)]; each call is on a
    strictly shorter path, so [fuel] the length of the pattern is enough. *)
Fixpoint iglob (fuel : nat) (f : filesystem) (pathname : string) (dironly : bool)
  : list string :=
  match fuel with
  | O => []
  | S fuel' =>
      let '(dirname, basename) := os_path.split pathname in
      if negb (fnmatch.has_magic pathname) then
        (if String.eqb basename ""
         then (if os.is_dir f dirname then [pathname] else [])
         else (if (os.is_dir f pathname || (negb dironly && os.is_file f pathname))%bool
               then [pathname] else []))
      else if String.eqb dirname "" then
        glob1 f "" basename dironly
      else
        let dirs :=
          if (negb (String.eqb dirname pathname) && fnmatch.has_magic dirname)%bool
          then iglob fuel' f dirname true
          else [dirname] in
        let glob_in_dir :=
          if fnmatch.has_magic basename then glob1 else glob0 in
        flat_map (λ d, map (os_path.join d) (glob_in_dir f d basename dironly)) dirs
  end.

(** [glob.glob(pathname)] *)
Definition glob (pathname : string) : M (list string) :=
  λ w, (Return (iglob (S (String.length pathname)) (fs w) pathname false), w).

End glob.

(** ** Python objects: dictionaries are shared and updated in place *)

Module PyObj.

(** A value is a scalar, a list of values, or a reference to a dictionary
    object (the number is the identity of the object).  Lists are never
    updated by the code modelled here and are held by value. *)
Inductive pyval :=
| VNone
| VBool (b : bool)
| VInt (n : Z)
| VStr (s : string)
| VList (l : list pyval)
| VDict (d : nat).

(** The items of a dictionary, in insertion order. *)
Abbreviation items := (list (string * pyval)).

(** The dictionary objects, and the identity of the next object. *)
Record store := { objs : gmap nat items; next : nat }.

Definition empty_store : store := {| objs := ∅; next := 0 |}.

(** [d[key]] when [key in d] *)
Fixpoint dict_get {V} (key : string) (d : list (string * V)) : option V :=
  match d with
  | [] => None
  | (k, v) :: r => if String.eqb k key then Some v else dict_get key r
  end.

(** [d[key] = value]: in place when the key is there, at the end otherwise *)
Fixpoint dict_set {V} (key : string) (value : V) (d : list (string * V))
  : list (string * V) :=
  match d with
  | [] => [(key, value)]
  | (k, v) :: r =>
      if String.eqb k key then (k, value) :: r else (k, v) :: dict_set key value r
  end.

(** A new dictionary object with the given items. *)
Definition new_dict (its : items) (s : store) : nat * store :=
  (next s, {| objs := <[next s := its]> (objs s); next := S (next s) |}).

(** [f] on each element in turn, the store threaded through. *)
Definition alloc_seq {A B} (f : A → store → B * store)
  : list A → store → list B * store :=
  fix go (l : list A) (s : store) : list B * store :=
    match l with
    | [] => ([], s)
    | x :: r =>
        let '(v, s1) := f x s in
        let '(vs, s2) := go r s1 in
        (v :: vs, s2)
    end.

(** The objects that a decoder builds for a structured value: those of
    the members first, then the dictionary itself. *)
Fixpoint alloc (v : json) (s : store) : pyval * store :=
  match v with
  | JNull => (VNone, s)
  | JBool b => (VBool b, s)
  | JNum n => (VInt n, s)
  | JStr x => (VStr x, s)
  | JList l =>
      let '(vs, s') := alloc_seq alloc l s in
      (VList vs, s')
  | JDict its =>
      let '(ivs, s') :=
        alloc_seq (λ kx s, let '(v, s1) := alloc (snd kx) s in ((fst kx, v), s1)) its s in
      let '(d, s'') := new_dict ivs s' in
      (VDict d, s'')
  end.

(** [f] on each element, when it is defined on all of them. *)
Definition read_seq {A B} (f : A → option B) : list A → option (list B) :=
  fix go (l : list A) : option (list B) :=
    match l with
    | [] => Some []
    | x :: r =>
        match f x, go r with
        | Some t, Some ts => Some (t :: ts)
        | _, _ => None
        end
    end.

(** The structured value that an object stands for; [fuel] bounds the
    depth of dictionaries. *)
Fixpoint read (fuel : nat) (h : gmap nat items) (v : pyval) {struct fuel}
  : option json :=
  match fuel with
  | O => None
  | S fuel' =>
      (fix value (v : pyval) : option json :=
         match v with
         | VNone => Some JNull
         | VBool b => Some (JBool b)
         | VInt n => Some (JNum n)
         | VStr x => Some (JStr x)
         | VList l =>
             match read_seq value l with
             | Some ts => Some (JList ts)
             | None => None
             end
         | VDict d =>
             match h !! d with
             | None => None
             | Some its =>
                 match read_seq (λ kx, match read fuel' h (snd kx) with
                                       | Some t => Some (fst kx, t)
                                       | None => None
                                       end) its with
                 | Some ts => Some (JDict ts)
                 | None => None
                 end
             end
         end) v
  end.

(** The depth of nesting of dictionaries. *)
Fixpoint depth (v : json) : nat :=
  match v with
  | JList l => foldr (λ x n, Nat.max (depth x) n) 0 l
  | JDict its => S (foldr (λ kx n, Nat.max (depth (snd kx)) n) 0 its)
  | _ => 0
  end.

(** The number of dictionaries of a structured value. *)
Fixpoint ndicts (v : json) : nat :=
  match v with
  | JList l => foldr (λ x n, ndicts x + n) 0 l
  | JDict its => S (foldr (λ kx n, ndicts (snd kx) + n) 0 its)
  | _ => 0
  end.

Definition ndicts_items (its : list (string * json)) : nat :=
  foldr (λ kx n, ndicts (snd kx) + n) 0 its.

(** No dictionary has two items with the same key, as in Python. *)
Fixpoint unique_keys (v : json) : Prop :=
  match v with
  | JList l => foldr (λ x P, unique_keys x ∧ P) True l
  | JDict its =>
      NoDup (map fst its) ∧ foldr (λ kx P, unique_keys (snd kx) ∧ P) True its
  | _ => True
  end.

End PyObj.

(** ** [api_key_manager.py]: class [SecureAPIKeyManager] *)

(** [Fernet(key)]: the cipher object is known by its key. *)
Definition Fernet (L : pylibs) (key : string) : M string :=
  if Fernet_key_ok L key then ret key else raise ValueError.

Module SecureAPIKeyManager.

Record t := {
  key_storage_path : string;
  encryption_key : string;
  cipher_suite : string;
}.

Section methods.
Context (L : pylibs).

(** The default of the [key_storage_path] argument. *)
Definition default_key_storage_path (w : world) : string :=
  home w +:+ "/.ai_api_keys".

Definition _ensure_storage_dir (key_storage_path : string) : M unit :=
  os.makedirs key_storage_path.

(** [rnd] is what the OS random source gives to [Fernet.generate_key]. *)
Definition _load_encryption_key (rnd : string) (key_storage_path : string)
  : M (string * string) :=
  let key_file := os_path.join key_storage_path "encryption.key" in
  ex <- os.path_exists key_file ;;
  (if negb ex then
     let key := Fernet_generate_key L rnd in
     os.write_file key_file key
   else ret tt) ;;
  encryption_key <- os.read_file key_file ;;
  cipher_suite <- Fernet L encryption_key ;;
  ret (encryption_key, cipher_suite).

Definition __init__ (rnd : string) (key_storage_path : string) : M t :=
  _ensure_storage_dir key_storage_path ;;
  keys <- _load_encryption_key rnd key_storage_path ;;
  ret {| key_storage_path := key_storage_path;
         encryption_key := fst keys;
         cipher_suite := snd keys |}.

(** [rnd] is the IV and time of the encryption. *)
Definition store_api_key (self : t) (rnd : string) (service api_key : string) : M unit :=
  let encrypted_key := Fernet_encrypt L (cipher_suite self) rnd (utf8.encode api_key) in
  let key_file := os_path.join (key_storage_path self) (service +:+ "_key.enc") in
  os.write_file key_file encrypted_key.

(** The result is [Optional[str]]. *)
Definition retrieve_api_key (self : t) (service : string) : M (option string) :=
  let key_file := os_path.join (key_storage_path self) (service +:+ "_key.enc") in
  ex <- os.path_exists key_file ;;
  if negb ex then ret None
  else
    encrypted_key <- os.read_file key_file ;;
    try_except
      (plain <- or_raise (Fernet_decrypt L (cipher_suite self) encrypted_key) InvalidToken ;;
       decrypted_key <- or_raise (utf8.decode plain) UnicodeDecodeError ;;
       ret (Some decrypted_key))
      (λ e, print (Error_decrypting service e) ;; ret None).

Definition list_stored_services (self : t) : M (list string) :=
  filenames <- os.listdir (key_storage_path self) ;;
  ret (map (λ filename, Py.replace filename "_key.enc" "")
           (filter (λ filename, Py.endswith filename "_key.enc" = true) filenames)).

Definition delete_api_key (self : t) (service : string) : M unit :=
  let key_file := os_path.join (key_storage_path self) (service +:+ "_key.enc") in
  ex <- os.path_exists key_file ;;
  if ex then os.remove key_file else ret tt.

(** A call into the SDK of [provider]: it is recorded in the world, and
    raises what the SDK raises. *)
Definition sdk_call (provider api_key : string) : M unit :=
  λ w, let w' := {| fs := fs w; home := home w; stdout := stdout w;
                    remote_calls := remote_calls w ++ [(provider, api_key)] |} in
       match sdk_list_models L provider api_key with
       | None => (Return tt, w')
       | Some code => (Raise (SDKError code), w')
       end.

Definition validate_api_key (self : t) (service api_key : string) : M bool :=
  try_except
    ((if String.eqb service "openai" then sdk_call "openai" api_key
      else if String.eqb service "google" then sdk_call "google" api_key
      else if String.eqb service "anthropic" then sdk_call "anthropic" api_key
      else ret tt) ;;
     ret true)
    (λ e, print (Validation_failed service e) ;; ret false).

(** One operation of the store, and its effect on the world. *)
Inductive op :=
| Store (rnd service api_key : string)
| Retrieve (service : string)
| List
| Delete (service : string).

Definition run (self : t) (o : op) (w : world) : world :=
  match o with
  | Store rnd service api_key => snd (store_api_key self rnd service api_key w)
  | Retrieve service => snd (retrieve_api_key self service w)
  | List => snd (list_stored_services self w)
  | Delete service => snd (delete_api_key self service w)
  end.

End methods.
End SecureAPIKeyManager.

(** ** [config_manager.py]: class [ConfigManager] *)

Module ConfigManager.
Import PyObj.

Record t := {
  config_dir : string;
  key_file : string;
  encryption_key : string;
  cipher_suite : string;
}.

Section methods.
Context (L : pylibs).

(** [self.encryption_key] is assigned only in the branch that creates the
    key file, inside the block of the writer, which is still open when the
    file is read back; [attr] is the attribute after the [if], [None] when
    it was never assigned, in which case reading it raises
    [AttributeError]. *)
Definition _load_or_generate_key (rnd : string) (key_file : string)
  : M (string * string) :=
  ex <- os.path_exists key_file ;;
  attr <- (if negb ex then
             let key := Fernet_generate_key L rnd in
             f <- os.open_write key_file ;;
             f <- os.write f key ;;
             encryption_key <- os.read_file key_file ;;
             os.close f ;;
             ret (Some encryption_key)
           else ret None) ;;
  encryption_key <- or_raise attr AttributeError ;;
  cipher_suite <- Fernet L encryption_key ;;
  ret (encryption_key, cipher_suite).

(** [config_dir or os.path.join(os.path.expanduser("~"), ".ai_config")] *)
Definition config_dir_or_default (config_dir : option string) (w : world) : string :=
  match config_dir with
  | Some (String c d) => String c d
  | _ => os_path.join (home w) ".ai_config"
  end.

Definition __init__ (rnd : string) (config_dir : option string) : M t :=
  λ w,
    let dir := config_dir_or_default config_dir w in
    (os.makedirs dir ;;
     let key_file := os_path.join dir "encryption.key" in
     keys <- _load_or_generate_key rnd key_file ;;
     ret {| config_dir := dir; key_file := key_file;
            encryption_key := fst keys; cipher_suite := snd keys |}) w.

Definition config_path (self : t) (config_name format : string) : string :=
  os_path.join (config_dir self) (config_name +:+ "." +:+ format).

Definition save_config (self : t) (rnd : string) (config_name : string)
    (config_data : json) (format : string) (encrypt : bool) : M unit :=
  let config_path := config_path self config_name format in
  if encrypt then
    let json_data := json_dumps L config_data in
    let encrypted_data :=
      Fernet_encrypt L (cipher_suite self) rnd (utf8.encode json_data) in
    os.write_file config_path encrypted_data
  else
    f <- os.open_write config_path ;;
    f <- (if String.eqb format "json" then os.write f (json_dump_indent2 L config_data)
          else if String.eqb format "yaml" then os.write f (yaml_safe_dump L config_data)
          else ret f) ;;
    os.close f.

(** [json.loads(s)] *)
Definition loads (s : string) : M json :=
  or_raise (json_loads L s) (json_loads_exn L s).

(** [yaml.safe_load(s)] *)
Definition safe_load (s : string) : M json :=
  or_raise (yaml_safe_load L s) (yaml_safe_load_exn L s).

(** What a file opened with mode ['r'] gives when it is read: the text
    that its bytes hold. *)
Definition read_text (content : string) : M string :=
  or_raise (utf8.decode content) UnicodeDecodeError.

(** The file is opened with mode ['rb'] or ['r'], and read inside the
    codec where there is no decryption.  A method that falls off its end
    returns Python's [None], which is also what [json] decodes [null] to:
    [JNull]. *)
Definition load_config (self : t) (config_name : string) (format : string)
    (decrypt : bool) : M json :=
  let config_path := config_path self config_name format in
  ex <- os.path_exists config_path ;;
  if negb ex then raise FileNotFoundError
  else
    content <- os.read_file config_path ;;
    if decrypt then
      decrypted_data <-
        or_raise (Fernet_decrypt L (cipher_suite self) content) InvalidToken ;;
      loads decrypted_data
    else if String.eqb format "json" then
      text <- read_text content ;; loads text
    else if String.eqb format "yaml" then
      text <- read_text content ;; safe_load text
    else ret JNull.

(** Each element of the result is the pair that [os.path.splitext] returns. *)
Definition list_configs (self : t) : M (list (string * string)) :=
  filenames <- os.listdir (config_dir self) ;;
  ret (map os_path.splitext
           (filter (λ filename, filename ≠ "encryption.key") filenames)).

Definition delete_config (self : t) (config_name : string) : M unit :=
  let config_path := os_path.join (config_dir self) (config_name +:+ ".*") in
  files <- glob.glob config_path ;;
  for_each files os.remove.

(** The loop of [deep_merge], lines 138 to 142, over the items of [dict2];
    [deep_merge] is the recursive call of line 140. *)
Definition merge_loop
    (deep_merge : nat → nat → gmap nat items → option (gmap nat items))
    (dict1 : nat) : items → gmap nat items → option (gmap nat items) :=
  fix loop (its : items) (h : gmap nat items) : option (gmap nat items) :=
    match its with
    | [] => Some h
    | (key, value) :: rest =>
        match h !! dict1 with
        | None => None
        | Some items1 =>
            match value, dict_get key items1 with
            | VDict v, Some (VDict d) =>
                match deep_merge d v h with
                | Some h' => loop rest h'
                | None => None
                end
            | _, _ => loop rest (<[dict1 := dict_set key value items1]> h)
            end
        end
    end.

(** [deep_merge(dict1, dict2)] of [merge_configs], lines 136 to 143: the
    result is [dict1] itself, updated in place; [None] when a reference
    dangles or the recursion is deeper than [fuel]. *)
Fixpoint deep_merge (fuel : nat) (dict1 dict2 : nat) (h : gmap nat items)
  : option (gmap nat items) :=
  match fuel with
  | O => None
  | S fuel' =>
      match h !! dict2 with
      | None => None
      | Some items2 => merge_loop (deep_merge fuel') dict1 items2 h
      end
  end.

(** The local variables of [merge_configs] when it returns. *)
Record locals := {
  heap : gmap nat items;
  base : pyval;
  overlay : pyval;
  merged_config : pyval;
}.

(** Lines 136 to 145 on two decoded mappings: [base.copy()] is a new
    dictionary with the items of [base]. *)
Definition merge_dicts (base_value overlay_value : list (string * json)) : option locals :=
  let '(base, s1) := alloc (JDict base_value) empty_store in
  let '(overlay, s2) := alloc (JDict overlay_value) s1 in
  match base, overlay with
  | VDict b, VDict o =>
      match objs s2 !! b with
      | None => None
      | Some its =>
          let '(copy, s3) := new_dict its s2 in
          match deep_merge (depth (JDict overlay_value)) copy o (objs s3) with
          | Some h => Some {| heap := h; base := base; overlay := overlay;
                              merged_config := VDict copy |}
          | None => None
          end
      end
  | _, _ => None
  end.

(** Lines 136 to 146 on what the two [load_config] calls returned.  A
    list has a [copy] method too, but cannot take a string key; a scalar
    has no [copy] and no [items]. *)
Definition merge_loaded (base_value overlay_value : json) : M json :=
  match base_value, overlay_value with
  | JDict b, JDict o =>
      match merge_dicts b o with
      | Some st =>
          or_raise (read (S (depth base_value + depth overlay_value))
                     (heap st) (merged_config st))
                   RecursionError
      | None => raise RecursionError
      end
  | JList l, JDict [] => ret (JList l)
  | JList _, JDict (_ :: _) => raise TypeError
  | _, _ => raise AttributeError
  end.

Definition merge_configs (self : t) (base_config overlay_config : string) : M json :=
  base <- load_config self base_config "json" true ;;
  overlay <- load_config self overlay_config "json" true ;;
  merge_loaded base overlay.

End methods.
End ConfigManager.


(** What the round trip of a payload through [save_config] and
    [load_config] needs of the libraries, under the flags of the calls:
    the cipher decrypts its own token, the codec writes a text and reads
    the payload back from it.  With [json] the payload comes back as it
    is; [yaml.safe_dump] sorts the keys of a mapping, so that what
    [yaml.safe_load] reads back is equal to the payload ([py_eq]) but need
    not have its keys in the same order. *)
Definition libs_round_trip (L : pylibs) (key rnd format : string) (encrypt : bool)
    (v : json) : Prop :=
  if encrypt then
    Fernet_decrypt L key (Fernet_encrypt L key rnd (utf8.encode (json_dumps L v)))
      = Some (json_dumps L v)
    ∧ json_loads L (json_dumps L v) = Some v
  else if String.eqb format "json" then
    utf8.valid (json_dump_indent2 L v) = true
    ∧ json_loads L (json_dump_indent2 L v) = Some v
  else
    utf8.valid (yaml_safe_dump L v) = true
    ∧ ∃ v', yaml_safe_load L (yaml_safe_dump L v) = Some v' ∧ py_eq v' v = true.

(** ** The merge of the specification (section 4.5)

    For each key of [overlay]: when the values of both sides are mappings,
    the merge of the two; otherwise the value of [overlay].  The keys of
    [base] alone keep their values. *)
Definition merge_over (merge : json → json → json) (b : list (string * json))
  : list (string * json) → list (string * json) → list (string * json) :=
  fix over (o acc : list (string * json)) : list (string * json) :=
    match o with
    | [] => acc
    | kv :: r =>
        over r (PyObj.dict_set (fst kv)
                  (match PyObj.dict_get (fst kv) b with
                   | Some bv => merge bv (snd kv)
                   | None => snd kv
                   end) acc)
    end.

Fixpoint spec_merge (base overlay : json) {struct overlay} : json :=
  match base, overlay with
  | JDict b, JDict o => JDict (merge_over spec_merge b o b)
  | _, _ => overlay
  end.

(** ** How objects stand for structured values

    The predicates in which the merge on objects is related to the merge
    of the specification. *)

Module Repr.
Import PyObj ConfigManager.
Local Open Scope nat_scope.

(** [R] on the elements in turn, each from the place where the one before
    ends. *)
Definition layout_seq {A B} (R : A → B → nat → Prop) (size : B → nat)
  : list A → list B → nat → Prop :=
  fix go (vs : list A) (ts : list B) (lo : nat) {struct ts} : Prop :=
    match ts, vs with
    | [], [] => True
    | t :: ts', v :: vs' => R v t lo ∧ go vs' ts' (lo + size t)
    | _, _ => False
    end.

(** [layout h v t lo]: [v] stands for [t] in [h], its dictionaries at the
    places [alloc] gives them from [lo] on. *)
Fixpoint layout (h : gmap nat items) (v : pyval) (t : json) (lo : nat) {struct t}
  : Prop :=
  match t with
  | JNull => v = VNone
  | JBool b => v = VBool b
  | JNum n => v = VInt n
  | JStr s => v = VStr s
  | JList l => ∃ vs, v = VList vs ∧ layout_seq (layout h) ndicts vs l lo
  | JDict its =>
      ∃ ivs, v = VDict (lo + ndicts_items its)
             ∧ h !! (lo + ndicts_items its) = Some ivs
             ∧ layout_seq (λ kv kt lo, fst kv = fst kt ∧ layout h (snd kv) (snd kt) lo)
                 (λ kt, ndicts (snd kt)) ivs its lo
  end.

(** [R] on the elements, one by one. *)
Definition repr_seq {A B} (R : A → B → Prop) : list A → list B → Prop :=
  fix go (vs : list A) (ts : list B) {struct ts} : Prop :=
    match ts, vs with
    | [], [] => True
    | t :: ts', v :: vs' => R v t ∧ go vs' ts'
    | _, _ => False
    end.

(** [repr_in P h v t]: [v] stands for [t] in [h], all its dictionaries at
    places of [P]. *)
Fixpoint repr_in (P : nat → Prop) (h : gmap nat items) (v : pyval) (t : json) {struct t}
  : Prop :=
  match t with
  | JNull => v = VNone
  | JBool b => v = VBool b
  | JNum n => v = VInt n
  | JStr s => v = VStr s
  | JList l => ∃ vs, v = VList vs ∧ repr_seq (repr_in P h) vs l
  | JDict its =>
      ∃ d ivs, v = VDict d ∧ P d ∧ h !! d = Some ivs
               ∧ repr_seq (λ kv kt, fst kv = fst kt ∧ repr_in P h (snd kv) (snd kt)) ivs its
  end.

(** The same for the items of a dictionary, key by key. *)
Abbreviation layout_items h :=
  (layout_seq (λ kv kt lo, fst kv = fst kt ∧ layout h (snd kv) (snd kt) lo)
              (λ kt : string * json, ndicts (snd kt))).
Abbreviation repr_items P h :=
  (repr_seq (λ (kv : string * pyval) (kt : string * json),
               fst kv = fst kt ∧ repr_in P h (snd kv) (snd kt))).

Definition depth_items (its : list (string * json)) : nat :=
  foldr (λ kx n, Nat.max (depth (snd kx)) n) 0 its.

(** The state of the loop of [deep_merge(dict1, dict2)]: [cur] are the
    items of [dict1], [acc] what they stand for, [bi] what [dict1] stood
    for at the start, its members laid out from [lo] on; [K] are the keys
    still to come, [Q] the places of the dictionaries of [dict2].  The
    item of a key still to come has not been touched; an item beyond those
    of [bi] came from [dict2]. *)
Inductive entries (Q : nat → Prop) (h : gmap nat items) (K : string → Prop)
  : nat → items → list (string * json) → list (string * json) → Prop :=
| entries_new lo cur acc :
    repr_items Q h cur acc → Forall (λ kv, ¬ K (fst kv)) cur →
    entries Q h K lo cur acc []
| entries_old lo k v t tb cur acc bi :
    (K k → t = tb ∧ layout h v tb lo) →
    repr_in (λ a, lo ≤ a < lo + ndicts tb ∨ Q a) h v t →
    entries Q h K (lo + ndicts tb) cur acc bi →
    entries Q h K lo ((k, v) :: cur) ((k, t) :: acc) ((k, tb) :: bi).

(** What [deep_merge] with [fuel] does on a dictionary [c] whose members
    are laid out from [lo] on and a dictionary [ol] away from them. *)
Definition deep_merge_ok (Q : nat → Prop) (fuel : nat) : Prop :=
  ∀ h c ol civs oivs bi oi lo,
    depth (JDict oi) ≤ fuel → unique_keys (JDict oi) →
    h !! c = Some civs → layout_items h civs bi lo →
    h !! ol = Some oivs → repr_items Q h oivs oi →
    ¬ (lo ≤ c < lo + ndicts_items bi) → ¬ Q c →
    (∀ a, Q a → ¬ (lo ≤ a < lo + ndicts_items bi)) →
    ∃ h' civs', deep_merge fuel c ol h = Some h'
      ∧ (∀ a, ¬ (lo ≤ a < lo + ndicts_items bi) → a ≠ c → h' !! a = h !! a)
      ∧ h' !! c = Some civs'
      ∧ repr_items (λ a, lo ≤ a < lo + ndicts_items bi ∨ Q a) h' civs'
          (merge_over spec_merge bi oi bi).

End Repr.

(** ** A small instance of the libraries, to run the model

    A cipher that tags the data with the key, and a codec for structured
    values in a prefix syntax.  They stand in for the real libraries where
    a statement is run on concrete inputs. *)

Module Sample.

Definition generate_key (rnd : string) : string :=
  String.substring 0 44 (rnd +:+ "AAAAAAAAAAAAAAAAAAAAAAAAAAAAAAAAAAAAAAAAAAA=").

Definition key_ok (key : string) : bool := Nat.eqb (String.length key) 44.

Definition encrypt (key rnd data : string) : string :=
  "gAAAAA" +:+ key +:+ data.

Definition decrypt (key token : string) : option string :=
  if Py.startswith token ("gAAAAA" +:+ key)
  then Some (Py.drop (6 + String.length key) token)
  else None.

Fixpoint dumps (v : json) : string :=
  match v with
  | JNull => "n"
  | JBool true => "t"
  | JBool false => "f"
  | JNum n => (if Z.ltb n 0 then "j" else "i") +:+ pretty (Z.abs_N n) +:+ ";"
  | JStr x => "s" +:+ pretty (String.length x) +:+ ":" +:+ x
  | JList l => "[" +:+ foldr (λ x r, dumps x +:+ r) "]" l
  | JDict its =>
      "{" +:+ foldr (λ kx r, "s" +:+ pretty (String.length (fst kx)) +:+ ":"
                              +:+ fst kx +:+ dumps (snd kx) +:+ r) "}" its
  end.

Definition digit (c : ascii) : option N :=
  let n := N_of_ascii c in
  if (N.leb 48 n && N.leb n 57)%bool then Some (n - 48)%N else None.

(** The decimal number at the head of [s], then the character [stop]. *)
Fixpoint number (stop : ascii) (acc : N) (s : string) : option (N * string) :=
  match s with
  | EmptyString => None
  | String c r =>
      if Ascii.eqb c stop then Some (acc, r)
      else match digit c with
           | Some d => number stop (10 * acc + d)%N r
           | None => None
           end
  end.

Definition text (s : string) : option (string * string) :=
  match number ":" 0 s with
  | Some (n, r) =>
      let n := N.to_nat n in
      if Nat.leb n (String.length r)
      then Some (String.substring 0 n r, Py.drop n r) else None
  | None => None
  end.

Fixpoint parse (fuel : nat) (s : string) : option (json * string) :=
  match fuel, s with
  | S fuel', String c r =>
      if Ascii.eqb c "n" then Some (JNull, r)
      else if Ascii.eqb c "t" then Some (JBool true, r)
      else if Ascii.eqb c "f" then Some (JBool false, r)
      else if Ascii.eqb c "i" then
        match number ";" 0 r with
        | Some (n, r') => Some (JNum (Z.of_N n), r')
        | None => None
        end
      else if Ascii.eqb c "j" then
        match number ";" 0 r with
        | Some (n, r') => Some (JNum (- Z.of_N n), r')
        | None => None
        end
      else if Ascii.eqb c "s" then
        match text r with
        | Some (x, r') => Some (JStr x, r')
        | None => None
        end
      else if Ascii.eqb c "[" then
        match parse_list fuel' r with
        | Some (l, r') => Some (JList l, r')
        | None => None
        end
      else if Ascii.eqb c "{" then
        match parse_items fuel' r with
        | Some (its, r') => Some (JDict its, r')
        | None => None
        end
      else None
  | _, _ => None
  end
with parse_list (fuel : nat) (s : string) : option (list json * string) :=
  match fuel, s with
  | S fuel', String c r =>
      if Ascii.eqb c "]" then Some ([], r)
      else match parse fuel' s with
           | Some (v, r1) =>
               match parse_list fuel' r1 with
               | Some (vs, r2) => Some (v :: vs, r2)
               | None => None
               end
           | None => None
           end
  | _, _ => None
  end
with parse_items (fuel : nat) (s : string) : option (list (string * json) * string) :=
  match fuel, s with
  | S fuel', String c r =>
      if Ascii.eqb c "}" then Some ([], r)
      else if Ascii.eqb c "s" then
        match text r with
        | Some (k, r1) =>
            match parse fuel' r1 with
            | Some (v, r2) =>
                match parse_items fuel' r2 with
                | Some (its, r3) => Some ((k, v) :: its, r3)
                | None => None
                end
            | None => None
            end
        | None => None
        end
      else None
  | _, _ => None
  end.

Definition loads (s : string) : option json :=
  match parse (S (String.length s)) s with
  | Some (v, EmptyString) => Some v
  | _ => None
  end.

(** Bytes that are not a text are not looked at any further. *)
Definition loads_exn (s : string) : exn :=
  if utf8.valid s then JSONDecodeError else UnicodeDecodeError.

(** The items of the mappings of [v], sorted by key. *)
Fixpoint insert_item (kv : string * json) (its : list (string * json))
  : list (string * json) :=
  match its with
  | [] => [kv]
  | x :: r => if String.leb (fst kv) (fst x) then kv :: its else x :: insert_item kv r
  end.

Fixpoint sort_keys (v : json) : json :=
  match v with
  | JList l => JList (map sort_keys l)
  | JDict its => JDict (foldr (λ kx r, insert_item (fst kx, sort_keys (snd kx)) r) [] its)
  | _ => v
  end.

(** As [yaml.safe_dump] does, the codec for YAML sorts the keys. *)
Definition yaml_dump (v : json) : string := "---" +:+ dumps (sort_keys v).

Definition yaml_load (s : string) : option json :=
  if Py.startswith s "---" then loads (Py.drop 3 s) else None.

(** The remote services accept one key each. *)
Definition list_models (provider api_key : string) : option nat :=
  if String.eqb api_key ("sk-" +:+ provider) then None else Some 401.

Definition libs : pylibs := {|
  Fernet_generate_key := generate_key;
  Fernet_key_ok := key_ok;
  Fernet_encrypt := encrypt;
  Fernet_decrypt := decrypt;
  json_dumps := dumps;
  json_dump_indent2 := dumps;
  json_loads := loads;
  json_loads_exn := loads_exn;
  yaml_safe_dump := yaml_dump;
  yaml_safe_load := yaml_load;
  yaml_safe_load_exn := λ _, YAMLError;
  sdk_list_models := list_models;
|}.

(** A world with nothing but a home directory. *)
Definition world0 : world :=
  {| fs := {[ "/home/u" := ∅ ]}; home := "/home/u"; stdout := []; remote_calls := [] |}.

Definition key : string := generate_key "c2FtcGxl".

(** A world where both storage roots hold their key file. *)
Definition world1 : world :=
  {| fs := {[ "/home/u" := ∅;
              "/home/u/.ai_api_keys" := {[ "encryption.key" := key ]};
              "/home/u/.ai_config" := {[ "encryption.key" := key ]} ]};
     home := "/home/u"; stdout := []; remote_calls := [] |}.

(** The same, with an item in each root whose bytes are neither a token of
    the cipher nor the text of a codec. *)
Definition world2 : world :=
  {| fs := {[ "/home/u" := ∅;
              "/home/u/.ai_api_keys" :=
                {[ "encryption.key" := key; "openai_key.enc" := "garbage" ]};
              "/home/u/.ai_config" :=
                {[ "encryption.key" := key; "app.json" := "garbage" ]} ]};
     home := "/home/u"; stdout := []; remote_calls := [] |}.

(** The two managers over these roots, with the key of the key files. *)
Definition akm : SecureAPIKeyManager.t :=
  {| SecureAPIKeyManager.key_storage_path := "/home/u/.ai_api_keys";
     SecureAPIKeyManager.encryption_key := key;
     SecureAPIKeyManager.cipher_suite := key |}.

Definition cm : ConfigManager.t :=
  {| ConfigManager.config_dir := "/home/u/.ai_config";
     ConfigManager.key_file := "/home/u/.ai_config/encryption.key";
     ConfigManager.encryption_key := key;
     ConfigManager.cipher_suite := key |}.

End Sample.

(** ** The interactive dialogues: [interactive_key_setup] and
       [interactive_config_manager]

    A dialogue runs on a terminal: the world of the methods, the lines
    that [input] has still to read, what was shown so far, and the number
    of draws made from the OS random source.  Reading at the end of the
    input raises [EOFError].  What the methods themselves print stays in
    the standard output of the world. *)

Module dialogue.

(** The built-in functions that the dialogues use. *)
Record builtins := {
  (** [s.lower()] *)
  str_lower : string → string;
  (** [int(s)]; [None] stands for [ValueError] *)
  int_of_str : string → option Z;
  (** [str(t)] of a tuple of two strings *)
  str_of_tuple : string * string → string;
  (** [str(l)] of a list of strings *)
  str_of_list : list string → string;
}.

(** A line written by [print], or the prompt of an [input]. *)
Inductive shown :=
| Line (text : string)
| Prompt (text : string).

Inductive error :=
| EOFError
| IndexError
| Raised (e : exn).

Record terminal := Terminal {
  host : world;
  stdin : list string;
  screen : list shown;
  draws : nat;
}.

(** How a dialogue ends; [Unfinished] when the loop was cut short. *)
Inductive ending (A : Type) :=
| Ended (a : A)
| Crashed (e : error)
| Unfinished.
Arguments Ended {A} a.
Arguments Crashed {A} e.
Arguments Unfinished {A}.

Definition IO (A : Type) : Type := terminal → ending A * terminal.

Definition done {A} (a : A) : IO A := λ t, (Ended a, t).
Definition crash {A} (e : error) : IO A := λ t, (Crashed e, t).
Definition unfinished {A} : IO A := λ t, (Unfinished, t).
Definition and_then {A B} (m : IO A) (k : A → IO B) : IO B :=
  λ t, match m t with
       | (Ended a, t') => k a t'
       | (Crashed e, t') => (Crashed e, t')
       | (Unfinished, t') => (Unfinished, t')
       end.

Notation "x <~ c1 ;~ c2" := (and_then c1 (λ x, c2))
  (at level 100, c1 at next level, right associativity).
Notation "c1 ;~ c2" := (and_then c1 (λ _, c2))
  (at level 100, right associativity).

Definition show (t : terminal) (s : shown) : terminal :=
  {| host := host t; stdin := stdin t; screen := screen t ++ [s]; draws := draws t |}.

(** [print(text)] *)
Definition say (text : string) : IO unit := λ t, (Ended tt, show t (Line text)).

(** [input(prompt)] *)
Definition input (prompt : string) : IO string :=
  λ t, match stdin t with
       | [] => (Crashed EOFError, show t (Prompt prompt))
       | answer :: rest =>
           (Ended answer,
            {| host := host t; stdin := rest; screen := screen t ++ [Prompt prompt];
               draws := draws t |})
       end.

(** A call of a method: its exception, if any, is raised in the
    dialogue. *)
Definition call {A} (m : M A) : IO A :=
  λ t, let '(r, w) := m (host t) in
       let t' := {| host := w; stdin := stdin t; screen := screen t; draws := draws t |} in
       match r with
       | Return a => (Ended a, t')
       | Raise e => (Crashed (Raised e), t')
       end.

(** A call of a method that draws from the random source. *)
Definition call_random {A} (urandom : nat → string) (m : string → M A) : IO A :=
  λ t, call (m (urandom (draws t)))
         {| host := host t; stdin := stdin t; screen := screen t; draws := S (draws t) |}.

(** The exceptions that [except ValueError] catches. *)
Definition is_ValueError (e : exn) : bool :=
  match e with
  | ValueError | JSONDecodeError | UnicodeDecodeError => true
  | _ => false
  end.

(** [try: m except (ValueError, IndexError): h] *)
Definition except_ValueError_IndexError {A} (m : IO A) (h : IO A) : IO A :=
  λ t, match m t with
       | (Crashed IndexError, t') => h t'
       | (Crashed (Raised e), t') =>
           if is_ValueError e then h t' else (Crashed (Raised e), t')
       | r => r
       end.

(** [for x in xs: body x] *)
Fixpoint for_all {A} (xs : list A) (body : A → IO unit) : IO unit :=
  match xs with
  | [] => done tt
  | x :: xs' => body x ;~ for_all xs' body
  end.

(** [l[i]]: a negative index counts from the end. *)
Definition index {A} (l : list A) (i : Z) : IO A :=
  let n := Z.of_nat (length l) in
  let i' := if Z.ltb i 0 then (i + n)%Z else i in
  if Z.ltb i' 0 then crash IndexError
  else match l !! Z.to_nat i' with
       | Some x => done x
       | None => crash IndexError
       end.

Definition nl : string := String "010" "".

Section dialogues.
Context (L : pylibs) (B : builtins) (urandom : nat → string).

(** *** [api_key_manager.py]: [interactive_key_setup] *)

(** One turn of the loop, lines 141 to 181: [true] when the loop is left. *)
Definition key_setup_turn (manager : SecureAPIKeyManager.t) : IO bool :=
  say (nl +:+ "--- API Key Manager ---") ;~
  say "1. Store API Key" ;~
  say "2. Retrieve API Key" ;~
  say "3. List Stored Services" ;~
  say "4. Delete API Key" ;~
  say "5. Validate API Key" ;~
  say "6. Exit" ;~
  choice <~ input "Enter your choice (1-6): " ;~
  if String.eqb choice "1" then
    answer <~ input "Enter service name (openai/google/anthropic): " ;~
    let service := str_lower B answer in
    api_key <~ input "Enter API key: " ;~
    call_random urandom
      (λ rnd, SecureAPIKeyManager.store_api_key L manager rnd service api_key) ;~
    say ("API key for " +:+ service +:+ " stored successfully.") ;~
    done false
  else if String.eqb choice "2" then
    answer <~ input "Enter service name: " ;~
    let service := str_lower B answer in
    key <~ call (SecureAPIKeyManager.retrieve_api_key L manager service) ;~
    say ("API key for " +:+ service +:+ ": "
         +:+ match key with Some k => k | None => "None" end) ;~
    done false
  else if String.eqb choice "3" then
    services <~ call (SecureAPIKeyManager.list_stored_services manager) ;~
    say ("Stored Services: " +:+ str_of_list B services) ;~
    done false
  else if String.eqb choice "4" then
    answer <~ input "Enter service name to delete: " ;~
    let service := str_lower B answer in
    call (SecureAPIKeyManager.delete_api_key manager service) ;~
    say ("API key for " +:+ service +:+ " deleted.") ;~
    done false
  else if String.eqb choice "5" then
    answer <~ input "Enter service name: " ;~
    let service := str_lower B answer in
    api_key <~ input "Enter API key to validate: " ;~
    is_valid <~ call (SecureAPIKeyManager.validate_api_key L manager service api_key) ;~
    say ("API key validation result: " +:+ (if is_valid : bool then "Valid" else "Invalid")) ;~
    done false
  else if String.eqb choice "6" then
    done true
  else
    say "Invalid choice. Please try again." ;~
    done false.

(** [while True:] of line 140; each turn reads a line, so a [fuel] above
    the number of lines of the input is never used up. *)
Fixpoint key_setup_loop (fuel : nat) (manager : SecureAPIKeyManager.t) : IO unit :=
  match fuel with
  | O => unfinished
  | S fuel' =>
      stop <~ key_setup_turn manager ;~
      if stop : bool then done tt else key_setup_loop fuel' manager
  end.

Definition interactive_key_setup : IO unit :=
  λ t,
    (manager <~ call_random urandom
                  (λ rnd, SecureAPIKeyManager.__init__ L rnd
                            (SecureAPIKeyManager.default_key_storage_path (host t))) ;~
     key_setup_loop (S (length (stdin t))) manager) t.

(** *** [config_manager.py]: [interactive_config_manager] and [main] *)

(** The loop of lines 179 to 184, which fills [config_data]. *)
Fixpoint read_config_data (fuel : nat) (config_data : list (string * json))
  : IO (list (string * json)) :=
  match fuel with
  | O => unfinished
  | S fuel' =>
      key <~ input "Enter key (or press Enter to finish): " ;~
      if String.eqb key "" then done config_data
      else
        value <~ input ("Enter value for " +:+ key +:+ ": ") ;~
        read_config_data fuel' (PyObj.dict_set key (JStr value) config_data)
  end.

(** [for i, config in enumerate(configs, 1): print(f"{i}. {config}")] *)
Definition say_numbered (configs : list (string * string)) : IO unit :=
  for_all (imap (λ i config, pretty (S i) +:+ ". " +:+ str_of_tuple B config) configs) say.

(** [configs[int(choice) - 1]] *)
Definition chosen (configs : list (string * string)) (choice : string)
  : IO (string * string) :=
  match int_of_str B choice with
  | Some n => index configs (n - 1)
  | None => crash (Raised ValueError)
  end.

(** [input(prompt).lower() == 'y'] *)
Definition yes (prompt : string) : IO bool :=
  answer <~ input prompt ;~ done (String.eqb (str_lower B answer) "y").

(** One turn of the loop, lines 155 to 266: [true] when the loop is left.
    An element of [list_configs()] is a tuple, and is passed as it is
    where a configuration name is expected: the name is then the text of
    the tuple. *)
Definition config_manager_turn (fuel : nat) (config_manager : ConfigManager.t) : IO bool :=
  say (nl +:+ "--- Configuration Manager ---") ;~
  say "1. Create New Configuration" ;~
  say "2. Load Configuration" ;~
  say "3. List Configurations" ;~
  say "4. Delete Configuration" ;~
  say "5. Merge Configurations" ;~
  say "6. Exit" ;~
  choice <~ input "Enter your choice (1-6): " ;~
  if String.eqb choice "1" then
    config_name <~ input "Enter configuration name: " ;~
    let format_choices := ["json"; "yaml"] in
    say "Formats:" ;~
    for_all (imap (λ i fmt, pretty (S i) +:+ ". " +:+ fmt) format_choices) say ;~
    answer <~ input "Select format (default: json): " ;~
    let format_choice := if String.eqb answer "" then "1" else answer in
    n <~ match int_of_str B format_choice with
         | Some n => done n
         | None => crash (Raised ValueError)
         end ;~
    format_name <~ index format_choices (n - 1) ;~
    encrypt <~ yes "Encrypt configuration? (y/N): " ;~
    config_data <~ read_config_data fuel [] ;~
    call_random urandom
      (λ rnd, ConfigManager.save_config L config_manager rnd config_name
                (JDict config_data) format_name encrypt) ;~
    say ("Configuration " +:+ config_name +:+ " saved successfully.") ;~
    done false
  else if String.eqb choice "2" then
    configs <~ call (ConfigManager.list_configs config_manager) ;~
    say (nl +:+ "Available Configurations:") ;~
    say_numbered configs ;~
    config_choice <~ input "Select configuration to load: " ;~
    except_ValueError_IndexError
      (selected_config <~ chosen configs config_choice ;~
       decrypt <~ yes "Decrypt configuration? (y/N): " ;~
       config <~ call (ConfigManager.load_config L config_manager
                         (str_of_tuple B selected_config) "json" decrypt) ;~
       say (nl +:+ "Loaded Configuration:") ;~
       say (json_dump_indent2 L config))
      (say "Invalid selection.") ;~
    done false
  else if String.eqb choice "3" then
    configs <~ call (ConfigManager.list_configs config_manager) ;~
    say (nl +:+ "Available Configurations:") ;~
    for_all configs (λ config, say (str_of_tuple B config)) ;~
    done false
  else if String.eqb choice "4" then
    configs <~ call (ConfigManager.list_configs config_manager) ;~
    say (nl +:+ "Available Configurations:") ;~
    say_numbered configs ;~
    config_choice <~ input "Select configuration to delete: " ;~
    except_ValueError_IndexError
      (selected_config <~ chosen configs config_choice ;~
       confirm <~ yes ("Are you sure you want to delete "
                       +:+ str_of_tuple B selected_config +:+ "? (y/N): ") ;~
       if confirm : bool then
         call (ConfigManager.delete_config config_manager (str_of_tuple B selected_config)) ;~
         say ("Configuration " +:+ str_of_tuple B selected_config +:+ " deleted.")
       else done tt)
      (say "Invalid selection.") ;~
    done false
  else if String.eqb choice "5" then
    configs <~ call (ConfigManager.list_configs config_manager) ;~
    say (nl +:+ "Available Configurations:") ;~
    say_numbered configs ;~
    base_choice <~ input "Select base configuration: " ;~
    overlay_choice <~ input "Select overlay configuration: " ;~
    except_ValueError_IndexError
      (base_config <~ chosen configs base_choice ;~
       overlay_config <~ chosen configs overlay_choice ;~
       merged_config <~ call (ConfigManager.merge_configs L config_manager
                                (str_of_tuple B base_config)
                                (str_of_tuple B overlay_config)) ;~
       say (nl +:+ "Merged Configuration:") ;~
       say (json_dump_indent2 L merged_config) ;~
       save_merged <~ yes "Save merged configuration? (y/N): " ;~
       if save_merged : bool then
         merged_config_name <~ input "Enter name for merged configuration: " ;~
         call_random urandom
           (λ rnd, ConfigManager.save_config L config_manager rnd merged_config_name
                     merged_config "json" true) ;~
         say ("Merged configuration saved as " +:+ merged_config_name)
       else done tt)
      (say "Invalid selection.") ;~
    done false
  else if String.eqb choice "6" then
    done true
  else
    say "Invalid choice. Please try again." ;~
    done false.

(** [while True:] of line 154. *)
Fixpoint config_manager_loop (fuel : nat) (config_manager : ConfigManager.t) : IO unit :=
  match fuel with
  | O => unfinished
  | S fuel' =>
      stop <~ config_manager_turn (S fuel') config_manager ;~
      if stop : bool then done tt else config_manager_loop fuel' config_manager
  end.

Definition interactive_config_manager : IO unit :=
  λ t,
    (config_manager <~ call_random urandom (λ rnd, ConfigManager.__init__ L rnd None) ;~
     config_manager_loop (S (length (stdin t))) config_manager) t.

Definition main : IO unit := interactive_config_manager.

End dialogues.
End dialogue.

(** ** What a dialogue keeps

    The statements in which the properties of the dialogues are proved. *)

Module Keeps.
Import dialogue.

(** The terminal after [m] is related by [R] to the terminal before,
    however [m] ends. *)
Definition keeps {A} (R : terminal → terminal → Prop) (m : IO A) : Prop :=
  ∀ t, R t (m t).2.

(** [m] is never cut short. *)
Definition finishes {A} (m : IO A) : Prop :=
  ∀ t, (m t).1 ≠ Unfinished.

(** The input left is an end of the input there was. *)
Definition input_left (t t' : terminal) : Prop :=
  stdin t' `suffix_of` stdin t.

(** When [m] ends, it has read a line at least. *)
Definition reads {A} (m : IO A) : Prop :=
  ∀ t a t', m t = (Ended a, t') → length (stdin t') < length (stdin t).

(** The file at [p] holds [data] after, when it did before. *)
Definition file_kept (p data : string) (t t' : terminal) : Prop :=
  os.regular_file (fs (host t)) p data → os.regular_file (fs (host t')) p data.

End Keeps.

(** ** A small instance of the built-in functions *)

Module Sample_builtins.

Definition lower_char (c : ascii) : ascii :=
  let n := nat_of_ascii c in
  if (Nat.leb 65 n && Nat.leb n 90)%bool then ascii_of_nat (n + 32) else c.

Fixpoint lower (s : string) : string :=
  match s with
  | EmptyString => EmptyString
  | String c r => String (lower_char c) (lower r)
  end.

(** A decimal number, with a minus sign or without. *)
Definition int (s : string) : option Z :=
  let digits (r : string) : option N :=
    match r, Sample.number ";" 0 (r +:+ ";") with
    | String _ _, Some (n, EmptyString) => Some n
    | _, _ => None
    end in
  match s with
  | String "-" r => (λ n, - Z.of_N n)%Z <$> digits r
  | _ => Z.of_N <$> digits s
  end.

Definition quoted (s : string) : string := "'" +:+ s +:+ "'".

Definition tuple (p : string * string) : string :=
  "(" +:+ quoted p.1 +:+ ", " +:+ quoted p.2 +:+ ")".

Definition list_text (l : list string) : string :=
  "[" +:+ String.concat ", " (map quoted l) +:+ "]".

Definition builtins : dialogue.builtins := {|
  dialogue.str_lower := lower;
  dialogue.int_of_str := int;
  dialogue.str_of_tuple := tuple;
  dialogue.str_of_list := list_text;
|}.

(** The random source gives the same bytes at every draw. *)
Definition urandom (n : nat) : string := "c2FtcGxl".

(** A terminal on [w] where the lines of [input] are still to be read. *)
Definition terminal (w : world) (input : list string) : dialogue.terminal :=
  {| dialogue.host := w; dialogue.stdin := input; dialogue.screen := [];
     dialogue.draws := 0 |}.

End Sample_builtins.

(** * Properties *)

Local Open Scope nat_scope.

(** ** Paths and patterns *)

Example join_plain : os_path.join "/home/u/.ai_api_keys" "encryption.key"
                     = "/home/u/.ai_api_keys/encryption.key".
Proof. reflexivity. Qed.

Example join_absolute : os_path.join "/home/u" "/etc/x" = "/etc/x".
Proof. reflexivity. Qed.

Example split_plain : os_path.split "/r/encryption.key" = ("/r", "encryption.key").
Proof. reflexivity. Qed.

Example split_root : os_path.split "/x" = ("/", "x").
Proof. reflexivity. Qed.

Example splitext_plain : os_path.splitext "svc-b.json" = ("svc-b", ".json").
Proof. reflexivity. Qed.

Example splitext_hidden : os_path.splitext ".bashrc" = (".bashrc", "").
Proof. reflexivity. Qed.

Example splitext_two : os_path.splitext "a.tar.gz" = ("a.tar", ".gz").
Proof. reflexivity. Qed.

Example replace_all : Py.replace "a_key.encb_key.enc" "_key.enc" "" = "ab".
Proof. reflexivity. Qed.

Example fnmatch_key : fnmatch.fnmatch "encryption.key" "encryption.*" = true.
Proof. reflexivity. Qed.

Example fnmatch_set : fnmatch.fnmatch "b.x" "[a-c].?" = true.
Proof. reflexivity. Qed.

Example fnmatch_negset : fnmatch.fnmatch "b.x" "[!a-c].?" = false.
Proof. reflexivity. Qed.

Example fnmatch_open : fnmatch.fnmatch "[!]" "[!]" = true.
Proof. reflexivity. Qed.

Example fnmatch_star : fnmatch.fnmatch "svc-b.json" "svc-a.*" = false.
Proof. reflexivity. Qed.

Lemma app_empty_r (s : string) : s +:+ "" = s.
Proof.
  induction s as [|c s IH]; [done|].
  change (String c (s +:+ "") = String c s). by rewrite IH.
Qed.

Lemma app_assoc' (a b c : string) : (a +:+ b) +:+ c = a +:+ b +:+ c.
Proof.
  induction a as [|x a IH]; [done|].
  change (String x ((a +:+ b) +:+ c) = String x (a +:+ b +:+ c)). by rewrite IH.
Qed.

Lemma cut_last_absent c s : Py.contains c s = false → Py.cut_last c s = None.
Proof.
  induction s as [|a s IH]; [done|]. simpl.
  destruct (Ascii.eqb a c); [done|]. intros H. by rewrite IH.
Qed.

Lemma cut_last_app c x s :
  Py.contains c s = false →
  Py.cut_last c (x +:+ s)
  = match Py.cut_last c x with
    | Some (h, t) => Some (h, t +:+ s)
    | None => None
    end.
Proof.
  intros Hs. induction x as [|a x IH].
  - by apply cut_last_absent.
  - change (String a x +:+ s) with (String a (x +:+ s)). simpl. rewrite IH.
    destruct (Py.cut_last c x) as [[h t]|]; [done|].
    by destruct (Ascii.eqb a c).
Qed.

(** The last component of a path that ends with a plain name ends with
    that name. *)
Lemma split_app x s :
  Py.contains os_path.sep s = false →
  (os_path.split (x +:+ s)).2 = (os_path.split x).2 +:+ s.
Proof.
  intros Hs. unfold os_path.split. rewrite cut_last_app by done.
  by destruct (Py.cut_last os_path.sep x) as [[h t]|].
Qed.

Lemma join_app a b s : s ≠ "" → ∃ x, os_path.join a (b +:+ s) = x +:+ s.
Proof.
  intros Hs. unfold os_path.join.
  destruct (Py.startswith (b +:+ s) "/"); [by exists b|].
  destruct (String.eqb a "" || Py.endswith a "/").
  - exists (a +:+ b). by rewrite app_assoc'.
  - exists (a +:+ "/" +:+ b). by rewrite !app_assoc'.
Qed.

Lemma last_char_app x s : s ≠ "" → Py.last_char (x +:+ s) = Py.last_char s.
Proof.
  intros Hs. induction x as [|a x IH]; [done|].
  change (String a x +:+ s) with (String a (x +:+ s)). simpl.
  destruct (x +:+ s) eqn:E; [|done].
  destruct x as [|b x].
  - by change (s = "") in E.
  - by change (String b (x +:+ s) = "") in E.
Qed.

(** The file name of a stored key is never that of the key file. *)
Lemma key_enc_not_key_file path service :
  (os_path.split (os_path.join path (service +:+ "_key.enc"))).2
  ≠ (os_path.split (os_path.join path "encryption.key")).2.
Proof.
  destruct (join_app path service "_key.enc") as [x ->]; [done|].
  destruct (join_app path "" "encryption.key") as [y Hy]; [done|].
  change ("" +:+ "encryption.key") with "encryption.key" in Hy. rewrite Hy.
  rewrite !split_app by done. intros E. apply (f_equal Py.last_char) in E.
  rewrite !last_char_app in E by done. discriminate E.
Qed.

(** ** Files *)

(** A directory is a path other than the empty one that the map holds. *)
Lemma is_dir_true f p : os.is_dir f p = true ↔ p ≠ "" ∧ is_Some (f !! p).
Proof. unfold os.is_dir. by rewrite bool_decide_eq_true. Qed.

(** Replacing the entries of a directory leaves the directories what they
    are. *)
Lemma is_dir_insert_dir (f : filesystem) d x p :
  is_Some (f !! d) → os.is_dir (<[d:=x]> f) p = os.is_dir f p.
Proof.
  intros Hd. unfold os.is_dir. apply bool_decide_ext.
  destruct (decide (d = p)) as [->|Hne].
  - rewrite lookup_insert_eq. split; intros [? _]; split; eauto.
  - by rewrite lookup_insert_ne.
Qed.

(** A successful write: the directory of [p] exists and [p] is not one. *)
Lemma put_file_Return p data w w' :
  os.put_file p data w = (Return tt, w') →
  ∃ es, fs w !! (os_path.split p).1 = Some es ∧ os.is_dir (fs w) p = false ∧
        w' = with_fs w (<[(os_path.split p).1 := <[(os_path.split p).2 := data]> es]> (fs w)).
Proof.
  unfold os.put_file. destruct (os_path.split p) as [d b]. simpl.
  destruct (os.is_dir (fs w) p) eqn:Hd; [done|].
  destruct (fs w !! d) as [es|] eqn:He; [|done].
  intros [= <-]. eauto.
Qed.

(** [with open(p, 'wb') as f: f.write(data)] sets the content of [p],
    whether or not the data stay in the buffer until the writer is
    closed. *)
Lemma write_file_put_file p data : ∀ w, os.write_file p data w = os.put_file p data w.
Proof.
  intros w.
  unfold os.write_file, os.open_write, os.write, os.close, os.append_file, bind, ret.
  unfold os.put_file at 1. unfold os.put_file at 3.
  destruct (os_path.split p) as [d b] eqn:Hsp.
  destruct (os.is_dir (fs w) p) eqn:Hd; [done|].
  destruct (fs w !! d) as [es|] eqn:He; [|done].
  assert (Hd' : ∀ x, os.is_dir (<[d:=x]> (fs w)) p = false).
  { intros x. rewrite is_dir_insert_dir by eauto. done. }
  assert (Hrd : ∀ x (w0 : world), fs w0 = <[d:=<[b:=x]> es]> (fs w) →
             os.read_file p w0 = (Return x, w0)).
  { intros x w0 E. unfold os.read_file. rewrite E, Hd'. unfold os.file_at. rewrite Hsp.
    rewrite lookup_insert_eq. by rewrite lookup_insert_eq. }
  assert (Hput : ∀ x y (w0 : world), fs w0 = <[d:=<[b:=x]> es]> (fs w) →
             os.put_file p y w0 = (Return tt, with_fs w0 (<[d:=<[b:=y]> es]> (fs w)))).
  { intros x y w0 E. unfold os.put_file. rewrite Hsp, E, Hd', lookup_insert_eq.
    by rewrite insert_insert_eq, insert_insert_eq. }
  simpl.
  destruct (N.leb _ _).
  - simpl. erewrite Hrd by done. simpl. erewrite Hput by done. done.
  - erewrite Hrd by done. simpl. erewrite Hput by done. simpl.
    erewrite Hrd by done. erewrite Hput by done. by rewrite app_empty_r.
Qed.

(** Writing [data] through a writer opened on [p] and closing it. *)
Lemma open_write_close p data w :
  (f <- os.open_write p ;; f <- os.write f data ;; os.close f) w = os.put_file p data w.
Proof. apply write_file_put_file. Qed.

(** After a successful write, [p] is a regular file that holds the data. *)
Lemma put_file_regular p data w w' :
  os.put_file p data w = (Return tt, w') → os.regular_file (fs w') p data.
Proof.
  intros H. apply put_file_Return in H as (es & He & Hd & ->).
  split.
  - unfold os.file_at. destruct (os_path.split p) as [d b]. simpl in *.
    by rewrite lookup_insert_eq, lookup_insert_eq.
  - simpl. rewrite is_dir_insert_dir by eauto. done.
Qed.

Lemma path_exists_regular p data w :
  os.regular_file (fs w) p data → os.path_exists p w = (Return true, w).
Proof.
  intros [Hf Hd]. unfold os.path_exists, os.is_file. rewrite Hf, Hd.
  by rewrite bool_decide_true by eauto.
Qed.

Lemma path_exists_missing p w :
  os.missing (fs w) p → os.path_exists p w = (Return false, w).
Proof.
  intros [Hf Hd]. unfold os.path_exists, os.is_file. rewrite Hf, Hd.
  rewrite bool_decide_false; [done|]. by intros [? ?].
Qed.

Lemma read_file_regular p data w :
  os.regular_file (fs w) p data → os.read_file p w = (Return data, w).
Proof. intros [Hf Hd]. unfold os.read_file. by rewrite Hd, Hf. Qed.

Lemma makedirs_existing dir w :
  os.is_dir (fs w) dir = true → os.makedirs dir w = (Return tt, w).
Proof.
  intros H. unfold os.makedirs. rewrite H.
  apply is_dir_true in H as [Hne _]. by apply String.eqb_neq in Hne as ->.
Qed.

(** What [os.makedirs] makes of the file system: the directories that were
    there keep their entries, and those of [ds] that were not are empty. *)
Lemma ensure_dirs_lookup (ds : list string) (f : filesystem) q :
  foldr os.ensure_dir f ds !! q
  = match f !! q with
    | Some es => Some es
    | None => if bool_decide (q ∈ ds) then Some ∅ else None
    end.
Proof.
  revert q. induction ds as [|d ds IH]; intros q; simpl.
  - by destruct (f !! q).
  - assert (Hc : bool_decide (q ∈ d :: ds) = bool_decide (q = d) || bool_decide (q ∈ ds)).
    { rewrite <- bool_decide_or. apply bool_decide_ext, elem_of_cons. }
    rewrite Hc. clear Hc.
    unfold os.ensure_dir at 1. pose proof (IH d) as Hd.
    destruct (foldr os.ensure_dir f ds !! d) as [es|] eqn:Ed.
    + rewrite IH. destruct (f !! q) eqn:Eq; [done|].
      destruct (decide (q = d)) as [->|Hne].
      * rewrite (bool_decide_true (d = d)) by done. simpl. rewrite Eq in Hd.
        by destruct (bool_decide (d ∈ ds)).
      * by rewrite (bool_decide_false (q = d)) by done.
    + destruct (decide (q = d)) as [->|Hne].
      * rewrite lookup_insert_eq, (bool_decide_true (d = d)) by done.
        destruct (f !! d); [discriminate Hd|done].
      * rewrite lookup_insert_ne by done. rewrite IH.
        by rewrite (bool_decide_false (q = d)) by done.
Qed.

Lemma ensure_dirs_file_at (ds : list string) (f : filesystem) q :
  os.file_at (foldr os.ensure_dir f ds) q = os.file_at f q.
Proof.
  unfold os.file_at. destruct (os_path.split q) as [d b]. rewrite ensure_dirs_lookup.
  destruct (f !! d); [done|]. by destruct (bool_decide (d ∈ ds)).
Qed.

Lemma ensure_dirs_is_dir (ds : list string) (f : filesystem) q :
  os.is_dir (foldr os.ensure_dir f ds) q = true ↔
  os.is_dir f q = true ∨ (q ≠ "" ∧ q ∈ ds).
Proof.
  rewrite !is_dir_true, ensure_dirs_lookup. destruct (f !! q) as [es|] eqn:Eq.
  - split; [intros [? _]; left; eauto|]. intros [[? _]|[? _]]; eauto.
  - destruct (bool_decide (q ∈ ds)) eqn:Eb.
    + apply bool_decide_eq_true in Eb. split; [intros [? _]; right; eauto|].
      intros [[_ [? ?]]|[? _]]; [done|eauto].
    + apply bool_decide_eq_false in Eb. split; [by intros [_ [? ?]]|].
      by intros [[_ [? ?]]|[_ ?]].
Qed.

(** After [os.makedirs(dir)] the directory is there, and so are the files
    that were there. *)
Lemma makedirs_Return dir w w' :
  os.makedirs dir w = (Return tt, w') →
  os.is_dir (fs w') dir = true ∧ (∀ p data, os.regular_file (fs w) p data →
                                   os.regular_file (fs w') p data).
Proof.
  unfold os.makedirs. set (ds := dir :: os.ancestors dir).
  destruct (String.eqb dir "") eqn:Hne; [done|].
  apply String.eqb_neq in Hne.
  destruct (os.is_dir (fs w) dir) eqn:Hd.
  - intros [= <-]. eauto.
  - destruct (os.is_file (fs w) dir) eqn:Hfd; [done|].
    destruct (existsb _ _) eqn:Ha; [done|]. intros [= <-]. unfold with_fs. cbn [fs]. split.
    + apply (ensure_dirs_is_dir ds). right. split; [done|apply list_elem_of_here].
    + intros p data [Hf Hp]. split; [rewrite <- Hf; apply (ensure_dirs_file_at ds)|].
      apply not_true_is_false. intros E.
      apply (ensure_dirs_is_dir ds) in E as [E|[_ [->|Hin]%elem_of_cons]].
      * congruence.
      * unfold os.is_file in Hfd. rewrite Hf in Hfd.
        by rewrite bool_decide_true in Hfd by eauto.
      * assert (existsb (os.is_file (fs w)) (os.ancestors dir) = true) as Hx; [|congruence].
        apply existsb_exists. exists p. split; [by apply list_elem_of_In|].
        unfold os.is_file. rewrite Hf. by rewrite bool_decide_true by eauto.
Qed.

Lemma put_file_keeps_dir p data w w' dir :
  os.put_file p data w = (Return tt, w') →
  os.is_dir (fs w) dir = true → os.is_dir (fs w') dir = true.
Proof.
  intros H Hd. apply put_file_Return in H as (es & He & _ & ->).
  simpl. by rewrite is_dir_insert_dir by eauto.
Qed.

(** Writing or removing a file leaves the files of other names alone. *)
Lemma put_file_other p data q x w :
  (os_path.split p).2 ≠ (os_path.split q).2 →
  os.regular_file (fs w) q x → os.regular_file (fs (os.put_file p data w).2) q x.
Proof.
  intros Hne [Hf Hd]. unfold os.put_file.
  destruct (os_path.split p) as [d b] eqn:Hp. simpl in Hne.
  destruct (os.is_dir (fs w) p); [done|].
  destruct (fs w !! d) as [es|] eqn:He; [|done]. simpl. split.
  - unfold os.file_at in *. destruct (os_path.split q) as [d' b']. simpl in Hne.
    destruct (decide (d = d')) as [<-|Hdd].
    + rewrite lookup_insert_eq. rewrite He in Hf. by rewrite lookup_insert_ne.
    + by rewrite lookup_insert_ne.
  - by rewrite is_dir_insert_dir by eauto.
Qed.

Lemma remove_other p q x w :
  (os_path.split p).2 ≠ (os_path.split q).2 →
  os.regular_file (fs w) q x → os.regular_file (fs (os.remove p w).2) q x.
Proof.
  intros Hne [Hf Hd]. unfold os.remove.
  destruct (os_path.split p) as [d b] eqn:Hp. simpl in Hne.
  destruct (os.is_dir (fs w) p); [done|].
  destruct (fs w !! d) as [es|] eqn:He; [|done].
  destruct (es !! b); [|done]. simpl. split.
  - unfold os.file_at in *. destruct (os_path.split q) as [d' b']. simpl in Hne.
    destruct (decide (d = d')) as [<-|Hdd].
    + rewrite lookup_insert_eq. rewrite He in Hf. by rewrite lookup_delete_ne.
    + by rewrite lookup_insert_ne.
  - by rewrite is_dir_insert_dir by eauto.
Qed.

(** ** The Key Vault: initialization *)

(** Once the key file exists, [SecureAPIKeyManager.__init__] loads exactly
    the bytes it holds, and changes nothing. *)
Lemma SecureAPIKeyManager_init_existing_key (L : pylibs) (rnd path : string)
    (w : world) (k : string) :
  os.is_dir (fs w) path = true →
  os.regular_file (fs w) (os_path.join path "encryption.key") k →
  Fernet_key_ok L k = true →
  SecureAPIKeyManager.__init__ L rnd path w
  = (Return {| SecureAPIKeyManager.key_storage_path := path;
               SecureAPIKeyManager.encryption_key := k;
               SecureAPIKeyManager.cipher_suite := k |}, w).
Proof.
  intros Hd Hk Hok. unfold SecureAPIKeyManager.__init__, SecureAPIKeyManager._ensure_storage_dir.
  unfold bind at 1. rewrite (makedirs_existing _ _ Hd).
  unfold bind at 1. unfold SecureAPIKeyManager._load_encryption_key.
  unfold bind at 1. rewrite (path_exists_regular _ _ _ Hk). simpl.
  unfold bind. unfold ret at 1. rewrite (read_file_regular _ _ _ Hk).
  unfold Fernet. by rewrite Hok.
Qed.

(** What a successful initialization leaves: the storage directory, and
    the key file holding the key of the manager, which the cipher accepts. *)
Lemma SecureAPIKeyManager_init_Return (L : pylibs) (rnd path : string)
    (w w' : world) (self : SecureAPIKeyManager.t) :
  SecureAPIKeyManager.__init__ L rnd path w = (Return self, w') →
  self = {| SecureAPIKeyManager.key_storage_path := path;
            SecureAPIKeyManager.encryption_key := SecureAPIKeyManager.encryption_key self;
            SecureAPIKeyManager.cipher_suite := SecureAPIKeyManager.encryption_key self |}
  ∧ os.is_dir (fs w') path = true
  ∧ os.regular_file (fs w') (os_path.join path "encryption.key")
      (SecureAPIKeyManager.encryption_key self)
  ∧ Fernet_key_ok L (SecureAPIKeyManager.encryption_key self) = true.
Proof.
  unfold SecureAPIKeyManager.__init__, SecureAPIKeyManager._ensure_storage_dir.
  unfold bind at 1. destruct (os.makedirs path w) as [[[]|e] w0] eqn:Hm; [|done].
  apply makedirs_Return in Hm as [Hd _].
  unfold bind at 1. unfold SecureAPIKeyManager._load_encryption_key.
  unfold bind at 1. unfold os.path_exists at 1.
  set (key_file := os_path.join path "encryption.key").
  assert (Hread : ∀ w1, os.is_dir (fs w1) path = true →
     (encryption_key <- os.read_file key_file ;;
      cipher_suite <- Fernet L encryption_key ;; ret (encryption_key, cipher_suite)) w1
       = match os.read_file key_file w1 with
         | (Return k, w2) => if Fernet_key_ok L k then (Return (k, k), w2) else (Raise ValueError, w2)
         | (Raise e, w2) => (Raise e, w2)
         end).
  { intros w1 _. unfold bind. destruct (os.read_file key_file w1) as [[k|e] w2]; [|done].
    unfold Fernet. by destruct (Fernet_key_ok L k). }
  assert (Hfin : ∀ w1 k, os.is_dir (fs w1) path = true → os.regular_file (fs w1) key_file k →
     (let r := (encryption_key <- os.read_file key_file ;;
      cipher_suite <- Fernet L encryption_key ;; ret (encryption_key, cipher_suite)) w1 in
      match r with
      | (Return keys, w2) =>
          ret {| SecureAPIKeyManager.key_storage_path := path;
                 SecureAPIKeyManager.encryption_key := keys.1;
                 SecureAPIKeyManager.cipher_suite := keys.2 |} w2
      | (Raise e, w2) => (Raise e, w2)
      end) = (Return self, w') →
     self = {| SecureAPIKeyManager.key_storage_path := path;
            SecureAPIKeyManager.encryption_key := SecureAPIKeyManager.encryption_key self;
            SecureAPIKeyManager.cipher_suite := SecureAPIKeyManager.encryption_key self |}
     ∧ os.is_dir (fs w') path = true
     ∧ os.regular_file (fs w') key_file (SecureAPIKeyManager.encryption_key self)
     ∧ Fernet_key_ok L (SecureAPIKeyManager.encryption_key self) = true).
  { intros w1 k Hd1 Hk. simpl. rewrite (Hread w1 Hd1), (read_file_regular _ _ _ Hk).
    destruct (Fernet_key_ok L k) eqn:Hok; [|done].
    unfold ret. intros [= <- <-]. simpl. done. }
  destruct (os.is_file (fs w0) key_file || os.is_dir (fs w0) key_file) eqn:Hex; simpl.
  - unfold bind at 1. unfold ret at 1.
    destruct (os.is_dir (fs w0) key_file) eqn:Hkd.
    { unfold bind at 1. unfold os.read_file. rewrite Hkd. done. }
    rewrite orb_false_r in Hex. unfold os.is_file in Hex. rewrite bool_decide_eq_true in Hex.
    destruct Hex as [k Hk]. apply (Hfin w0 k Hd). by split.
  - unfold bind at 1. rewrite write_file_put_file.
    destruct (os.put_file key_file (Fernet_generate_key L rnd) w0) as [[[]|e] w1] eqn:Hp; [|done].
    apply (Hfin w1 (Fernet_generate_key L rnd)).
    + by eapply put_file_keeps_dir.
    + by eapply put_file_regular.
Qed.

(** Property X2.  Once an initialization has succeeded, every later one
    against the same root succeeds with the same key, the one in the key
    file, and changes nothing. *)
Lemma SecureAPIKeyManager_init_idempotent (L : pylibs) (rnd rnd' path : string)
    (w w' : world) (self : SecureAPIKeyManager.t) :
  SecureAPIKeyManager.__init__ L rnd path w = (Return self, w') →
  SecureAPIKeyManager.__init__ L rnd' path w' = (Return self, w')
  ∧ os.regular_file (fs w') (os_path.join path "encryption.key")
      (SecureAPIKeyManager.encryption_key self).
Proof.
  intros H. apply SecureAPIKeyManager_init_Return in H as (Hs & Hd & Hk & Hok).
  split; [|done]. rewrite Hs. by apply SecureAPIKeyManager_init_existing_key.
Qed.

Lemma SecureAPIKeyManager_init_idempotent_witness :
  let w' := (SecureAPIKeyManager.__init__ Sample.libs "c2FtcGxl" "/home/u/.ai_api_keys"
               Sample.world0).2 in
  SecureAPIKeyManager.__init__ Sample.libs "b3RoZXI=" "/home/u/.ai_api_keys" w'
    = (Return Sample.akm, w')
  ∧ os.regular_file (fs w') "/home/u/.ai_api_keys/encryption.key" Sample.key.
Proof.
  intros w'.
  apply (SecureAPIKeyManager_init_idempotent Sample.libs "c2FtcGxl" "b3RoZXI="
           "/home/u/.ai_api_keys" Sample.world0 w' Sample.akm).
  vm_compute; reflexivity.
Defined.

(** Claim C1, as the code has it for [ConfigManager]: once the key file
    exists under the configuration directory, [ConfigManager.__init__]
    does not load it.  The read of the key file is nested in the branch
    that creates it, so [self.encryption_key] is never assigned and the
    initialization raises [AttributeError], whatever the key file holds.
    The claim holds for [SecureAPIKeyManager]: see
    [SecureAPIKeyManager_init_idempotent]. *)
Theorem ConfigManager_init_existing_key_file (L : pylibs) (rnd : string)
    (config_dir : option string) (w : world) (k : string) :
  os.is_dir (fs w) (ConfigManager.config_dir_or_default config_dir w) = true →
  os.regular_file (fs w)
    (os_path.join (ConfigManager.config_dir_or_default config_dir w) "encryption.key") k →
  ConfigManager.__init__ L rnd config_dir w = (Raise AttributeError, w).
Proof.
  intros Hd Hk. unfold ConfigManager.__init__.
  unfold bind at 1. rewrite (makedirs_existing _ _ Hd).
  unfold bind at 1. unfold ConfigManager._load_or_generate_key.
  unfold bind at 1. by rewrite (path_exists_regular _ _ _ Hk).
Qed.

Lemma ConfigManager_init_existing_key_file_witness :
  ConfigManager.__init__ Sample.libs "cm5k" None Sample.world1
  = (Raise AttributeError, Sample.world1).
Proof.
  apply (ConfigManager_init_existing_key_file _ _ _ _ Sample.key).
  - vm_compute; reflexivity.
  - split; vm_compute; reflexivity.
Defined.

(** [ConfigManager.__init__] never returns.  On a root with a key file the
    key is not read at all.  On a root without one the key is still in
    the buffer of the writer when the file is read back, so the cipher is
    given the empty string, which it rejects ([Fernet] requires 32 encoded
    bytes; a key is 44 characters, far below the size of the buffer). *)
Lemma ConfigManager_init_never_returns (L : pylibs) (rnd : string)
    (config_dir : option string) (w w' : world) (self : ConfigManager.t) :
  Fernet_key_ok L "" = false →
  (N.of_nat (String.length (Fernet_generate_key L rnd)) <= os.DEFAULT_BUFFER_SIZE)%N →
  ConfigManager.__init__ L rnd config_dir w ≠ (Return self, w').
Proof.
  intros Hok Hlen. unfold ConfigManager.__init__.
  set (dir := ConfigManager.config_dir_or_default config_dir w).
  unfold bind at 1. destruct (os.makedirs dir w) as [[[]|e] w0]; [|done].
  unfold bind at 1. unfold ConfigManager._load_or_generate_key.
  unfold bind at 1. unfold os.path_exists at 1.
  destruct (_ || _); simpl; [done|].
  unfold bind at 1. unfold bind at 1. unfold os.open_write. unfold bind at 1.
  destruct (os.put_file _ "" w0) as [[[]|e] w1] eqn:Hp; [|done].
  apply put_file_regular in Hp as Hreg. unfold ret at 1.
  unfold bind at 1. unfold os.write. cbn [os.w_buffer os.w_path].
  change ("" +:+ Fernet_generate_key L rnd) with (Fernet_generate_key L rnd).
  apply N.leb_le in Hlen. rewrite Hlen. unfold ret at 1.
  unfold bind at 1. rewrite (read_file_regular _ _ _ Hreg).
  unfold bind at 1. destruct (os.close _ w1) as [[[]|e] w2]; [|done].
  unfold ret at 1. unfold or_raise. unfold bind at 1. unfold ret at 1.
  unfold bind at 1. unfold Fernet. rewrite Hok. done.
Qed.

(** ** The Key Vault: the key file under the operations of the store *)

(** No operation of [SecureAPIKeyManager] deletes or replaces the key
    file, whatever the service name and whether or not it succeeds. *)
Lemma SecureAPIKeyManager_op_keeps_key_file (L : pylibs) (self : SecureAPIKeyManager.t)
    (o : SecureAPIKeyManager.op) (w : world) (k : string) :
  os.regular_file (fs w)
    (os_path.join (SecureAPIKeyManager.key_storage_path self) "encryption.key") k →
  os.regular_file (fs (SecureAPIKeyManager.run L self o w))
    (os_path.join (SecureAPIKeyManager.key_storage_path self) "encryption.key") k.
Proof.
  intros Hk. destruct o as [rnd service api_key | service | | service]; simpl.
  - unfold SecureAPIKeyManager.store_api_key. rewrite write_file_put_file.
    apply put_file_other; [apply key_enc_not_key_file | done].
  - unfold SecureAPIKeyManager.retrieve_api_key, bind, os.path_exists.
    destruct (negb _); [done|].
    unfold os.read_file. destruct (os.is_dir _ _); [done|].
    destruct (os.file_at _ _); [|done].
    unfold try_except, or_raise. destruct (Fernet_decrypt _ _ _) as [plain|]; [|done].
    unfold ret at 1. by destruct (utf8.decode plain).
  - unfold SecureAPIKeyManager.list_stored_services, bind, os.listdir.
    destruct (fs w !! _); [by destruct (String.eqb _ _)|done].
  - unfold SecureAPIKeyManager.delete_api_key, bind, os.path_exists.
    destruct (_ || _); [|done].
    apply remove_other; [apply key_enc_not_key_file | done].
Qed.

(** Property X4.  After any sequence of [store_api_key],
    [retrieve_api_key], [list_stored_services] and [delete_api_key] calls
    of a [SecureAPIKeyManager], whatever the service names and whether or
    not the calls succeed, the key file still holds the same key. *)
Lemma SecureAPIKeyManager_keeps_key_file (L : pylibs) (self : SecureAPIKeyManager.t)
    (ops : list SecureAPIKeyManager.op) (w : world) (k : string) :
  os.regular_file (fs w)
    (os_path.join (SecureAPIKeyManager.key_storage_path self) "encryption.key") k →
  os.regular_file (fs (foldl (λ w o, SecureAPIKeyManager.run L self o w) w ops))
    (os_path.join (SecureAPIKeyManager.key_storage_path self) "encryption.key") k.
Proof.
  revert w. induction ops as [|o ops IH]; intros w Hk; [done|].
  simpl. apply IH. by apply SecureAPIKeyManager_op_keeps_key_file.
Qed.

Lemma SecureAPIKeyManager_keeps_key_file_witness :
  os.regular_file
    (fs (foldl (λ w o, SecureAPIKeyManager.run Sample.libs Sample.akm o w) Sample.world2
           [SecureAPIKeyManager.Delete "encryption";
            SecureAPIKeyManager.Store "iv" "encryption.key" "k";
            SecureAPIKeyManager.Retrieve "openai";
            SecureAPIKeyManager.List]))
    "/home/u/.ai_api_keys/encryption.key" Sample.key.
Proof.
  apply (SecureAPIKeyManager_keeps_key_file Sample.libs Sample.akm).
  split; vm_compute; reflexivity.
Defined.

(** Claim C2 at [delete_config("encryption")]: the pattern
    [encryption.*] selects the key file, and [delete_config] removes it.
    Before the call the key file holds the key; after it, nothing is at
    the path of the key file.  [SecureAPIKeyManager] never touches the key
    file: see [SecureAPIKeyManager_keeps_key_file]. *)
Theorem delete_config_removes_key_file :
  let r := ConfigManager.delete_config Sample.cm "encryption" Sample.world1 in
  os.regular_file (fs Sample.world1) (ConfigManager.key_file Sample.cm) Sample.key
  ∧ r.1 = Return tt
  ∧ os.missing (fs r.2) (ConfigManager.key_file Sample.cm).
Proof. repeat split; vm_compute; reflexivity. Qed.

(** [save_config("encryption", v, format="key")] writes to the path of
    the key file, which then holds a token instead of the key. *)
Lemma save_config_replaces_key_file :
  let v := JDict [("a", JNum 1)] in
  let r := ConfigManager.save_config Sample.libs Sample.cm "iv" "encryption" v "key" true
             Sample.world1 in
  r.1 = Return tt
  ∧ os.regular_file (fs r.2) (ConfigManager.key_file Sample.cm)
      (Sample.encrypt Sample.key "iv" (Sample.dumps v))
  ∧ Sample.encrypt Sample.key "iv" (Sample.dumps v) ≠ Sample.key.
Proof. repeat split; vm_compute; (reflexivity || discriminate). Qed.

(** ** The Item Store: retrieve *)

(** Claim C4, amended.  For a name with no file under the storage root,
    [retrieve_api_key] returns [None] normally, and [load_config] raises
    [FileNotFoundError]; neither changes the world. *)
Theorem retrieve_missing_item (L : pylibs) (akm : SecureAPIKeyManager.t)
    (cm : ConfigManager.t) (service config_name format : string) (decrypt : bool)
    (w : world) :
  os.missing (fs w)
    (os_path.join (SecureAPIKeyManager.key_storage_path akm) (service +:+ "_key.enc")) →
  os.missing (fs w) (ConfigManager.config_path cm config_name format) →
  SecureAPIKeyManager.retrieve_api_key L akm service w = (Return None, w)
  ∧ ConfigManager.load_config L cm config_name format decrypt w
    = (Raise FileNotFoundError, w).
Proof.
  intros Ha Hc. split.
  - unfold SecureAPIKeyManager.retrieve_api_key, bind.
    by rewrite (path_exists_missing _ _ Ha).
  - unfold ConfigManager.load_config, bind.
    by rewrite (path_exists_missing _ _ Hc).
Qed.

Lemma retrieve_missing_item_witness :
  SecureAPIKeyManager.retrieve_api_key Sample.libs Sample.akm "openai" Sample.world1
    = (Return None, Sample.world1)
  ∧ ConfigManager.load_config Sample.libs Sample.cm "app" "json" true Sample.world1
    = (Raise FileNotFoundError, Sample.world1).
Proof. apply retrieve_missing_item; split; vm_compute; reflexivity. Defined.

(** Claim C4 as stated fails for [load_config]: it does not return. *)
Lemma load_config_missing_raises :
  ¬ (∀ (L : pylibs) (cm : ConfigManager.t) (config_name format : string)
       (decrypt : bool) (w : world),
       os.missing (fs w) (ConfigManager.config_path cm config_name format) →
       ∃ v w', ConfigManager.load_config L cm config_name format decrypt w = (Return v, w')).
Proof.
  intros H.
  destruct (H Sample.libs Sample.cm "app" "json" true Sample.world1) as (v & w' & E).
  - split; vm_compute; reflexivity.
  - vm_compute in E. discriminate E.
Qed.



(** A configuration whose bytes are not UTF-8, here the single byte 255:
    read without decryption, it makes [load_config] raise
    [UnicodeDecodeError], in both formats; so does the token of that byte
    read with decryption, with a codec that raises [UnicodeDecodeError] for
    bytes that are not a text, as [json.loads] does. *)
Lemma load_config_not_text :
  let w := with_fs Sample.world1
             {[ "/home/u/.ai_config" :=
                  {[ "app.json" := String "255" "";
                     "app.yaml" := String "255" "";
                     "enc.json" := Sample.encrypt Sample.key "iv" (String "255" "") ]} ]} in
  ConfigManager.load_config Sample.libs Sample.cm "app" "json" false w
    = (Raise UnicodeDecodeError, w)
  ∧ ConfigManager.load_config Sample.libs Sample.cm "app" "yaml" false w
    = (Raise UnicodeDecodeError, w)
  ∧ ConfigManager.load_config Sample.libs Sample.cm "enc" "json" true w
    = (Raise UnicodeDecodeError, w).
Proof. repeat split; vm_compute; reflexivity. Qed.


(** ** The Item Store: store, then retrieve *)

(** Induction on structured values, with the hypothesis on all members. *)
Lemma json_ind' (P : json → Prop) :
  P JNull → (∀ b, P (JBool b)) → (∀ n, P (JNum n)) → (∀ s, P (JStr s)) →
  (∀ l, Forall P l → P (JList l)) →
  (∀ its, Forall (λ kx, P (snd kx)) its → P (JDict its)) →
  ∀ v, P v.
Proof.
  intros Hnull Hbool Hnum Hstr Hlist Hdict.
  fix IH 1. intros [| b | n | s | l | its].
  - exact Hnull.
  - apply Hbool.
  - apply Hnum.
  - apply Hstr.
  - apply Hlist. induction l as [|x l IHl]; constructor; [apply IH | exact IHl].
  - apply Hdict. induction its as [|[k x] its IHl]; constructor; [apply IH | exact IHl].
Qed.


(** The two halves of claim C7. *)
Lemma store_retrieve_api_key (L : pylibs) (self : SecureAPIKeyManager.t)
    (rnd service api_key : string) (w w' : world) :
  utf8.valid api_key = true →
  Fernet_decrypt L (SecureAPIKeyManager.cipher_suite self)
    (Fernet_encrypt L (SecureAPIKeyManager.cipher_suite self) rnd (utf8.encode api_key))
    = Some api_key →
  SecureAPIKeyManager.store_api_key L self rnd service api_key w = (Return tt, w') →
  SecureAPIKeyManager.retrieve_api_key L self service w' = (Return (Some api_key), w').
Proof.
  intros Hu Hc Hs. unfold SecureAPIKeyManager.store_api_key in Hs.
  rewrite write_file_put_file in Hs. apply put_file_regular in Hs.
  unfold SecureAPIKeyManager.retrieve_api_key, bind.
  rewrite (path_exists_regular _ _ _ Hs). simpl.
  rewrite (read_file_regular _ _ _ Hs).
  unfold try_except, bind, or_raise. rewrite Hc. unfold ret at 1.
  unfold utf8.decode. by rewrite Hu.
Qed.

(** With encryption the format plays no part but in the name of the
    file. *)
Lemma save_load_config_encrypted (L : pylibs) (self : ConfigManager.t)
    (rnd config_name format : string) (config_data : json) (w w' : world) :
  libs_round_trip L (ConfigManager.cipher_suite self) rnd format true config_data →
  ConfigManager.save_config L self rnd config_name config_data format true w = (Return tt, w') →
  ConfigManager.load_config L self config_name format true w' = (Return config_data, w').
Proof.
  intros [Hc Hj] Hs. unfold ConfigManager.save_config in Hs.
  rewrite write_file_put_file in Hs. apply put_file_regular in Hs.
  unfold ConfigManager.load_config, ConfigManager.loads, bind.
  rewrite (path_exists_regular _ _ _ Hs). simpl.
  rewrite (read_file_regular _ _ _ Hs).
  unfold or_raise. rewrite Hc. unfold ret at 1. by rewrite Hj.
Qed.






(** With a codec that sorts the keys, as [yaml.safe_dump] does, the
    mapping comes back with its keys in sorted order. *)
Lemma yaml_keys_come_back_sorted :
  let v := JDict [("model", JStr "gpt"); ("limits", JDict [("rpm", JNum 60)])] in
  let w := (ConfigManager.save_config Sample.libs Sample.cm "iv" "app" v "yaml" false
              Sample.world1).2 in
  ConfigManager.load_config Sample.libs Sample.cm "app" "yaml" false w
  = (Return (JDict [("limits", JDict [("rpm", JNum 60)]); ("model", JStr "gpt")]), w).
Proof. vm_compute; reflexivity. Qed.

(** ** The Item Store: formats *)

(** Claim C9, amended.  For a format other than [json] and [yaml],
    [save_config] and [load_config] with encryption (the default) raise no
    format error, for the format only names the file: [save_config]
    writes to [<name>.<format>] the token of the JSON text of the value
    and returns normally whenever the file can be written, and
    [load_config] with the same name and format then returns the value. *)
Theorem unsupported_format_accepted (L : pylibs) (cm : ConfigManager.t)
    (rnd config_name format : string) (config_data : json) (w : world) :
  format ≠ "json" → format ≠ "yaml" →
  os.is_dir (fs w) (ConfigManager.config_path cm config_name format) = false →
  is_Some (fs w !! (os_path.split (ConfigManager.config_path cm config_name format)).1) →
  ∃ w', ConfigManager.save_config L cm rnd config_name config_data format true w
          = (Return tt, w')
        ∧ os.regular_file (fs w') (ConfigManager.config_path cm config_name format)
            (Fernet_encrypt L (ConfigManager.cipher_suite cm) rnd
               (utf8.encode (json_dumps L config_data)))
        ∧ (libs_round_trip L (ConfigManager.cipher_suite cm) rnd format true config_data →
           ConfigManager.load_config L cm config_name format true w'
           = (Return config_data, w')).
Proof.
  intros _ _ Hd [es He].
  destruct (ConfigManager.save_config L cm rnd config_name config_data format true w)
    as [o w'] eqn:Hs.
  assert (o = Return tt) as ->.
  { unfold ConfigManager.save_config in Hs. rewrite write_file_put_file in Hs.
    unfold os.put_file in Hs. destruct (os_path.split _) as [d b]. simpl in He.
    rewrite Hd, He in Hs. by injection Hs as <- _. }
  exists w'. split; [done|]. split.
  - unfold ConfigManager.save_config in Hs. rewrite write_file_put_file in Hs.
    by eapply put_file_regular.
  - intros Hl. by eapply save_load_config_encrypted.
Qed.

Lemma unsupported_format_accepted_witness :
  ∃ w', ConfigManager.save_config Sample.libs Sample.cm "iv" "app" (JDict [("a", JNum 1)])
          "toml" true Sample.world1 = (Return tt, w')
        ∧ ConfigManager.load_config Sample.libs Sample.cm "app" "toml" true w'
          = (Return (JDict [("a", JNum 1)]), w').
Proof.
  destruct (unsupported_format_accepted Sample.libs Sample.cm "iv" "app" "toml"
              (JDict [("a", JNum 1)]) Sample.world1) as (w' & Hs & _ & Hl).
  - done.
  - done.
  - vm_compute; reflexivity.
  - vm_compute. eauto.
  - exists w'. split; [exact Hs|]. apply Hl. split; vm_compute; reflexivity.
Defined.

(** Claim C9 as stated fails: [save_config] with a format that is neither
    [json] nor [yaml] does not always raise. *)
Lemma save_config_unsupported_format_not_raised :
  ¬ (∀ (L : pylibs) (cm : ConfigManager.t) (rnd config_name format : string)
       (config_data : json) (encrypt : bool) (w : world),
       format ≠ "json" → format ≠ "yaml" →
       ∃ e w', ConfigManager.save_config L cm rnd config_name config_data format encrypt w
               = (Raise e, w')).
Proof.
  intros H.
  destruct (H Sample.libs Sample.cm "iv" "app" "toml" (JDict [("a", JNum 1)]) true
              Sample.world1) as (e & w' & E); [done|done|].
  vm_compute in E. discriminate E.
Qed.

(** Property X16.  Without encryption a format other than [json] and
    [yaml] falls through the two cases of [save_config] and of
    [load_config]: the file is created or truncated and nothing is
    written; an existing file is opened and [None] is returned. *)
Lemma plain_unsupported_format_falls_through (L : pylibs) (cm : ConfigManager.t)
    (rnd config_name format : string) (config_data : json) (w : world) :
  format ≠ "json" → format ≠ "yaml" →
  (os.is_dir (fs w) (ConfigManager.config_path cm config_name format) = false →
   is_Some (fs w !! (os_path.split (ConfigManager.config_path cm config_name format)).1) →
   ∃ w', ConfigManager.save_config L cm rnd config_name config_data format false w
           = (Return tt, w')
         ∧ os.regular_file (fs w') (ConfigManager.config_path cm config_name format) "")
  ∧ (∀ content,
       os.regular_file (fs w) (ConfigManager.config_path cm config_name format) content →
       ConfigManager.load_config L cm config_name format false w = (Return JNull, w)).
Proof.
  intros Hj Hy. apply String.eqb_neq in Hj, Hy. split.
  - intros Hd [es He].
    assert (E : ConfigManager.save_config L cm rnd config_name config_data format false w
                = os.put_file (ConfigManager.config_path cm config_name format) "" w).
    { unfold ConfigManager.save_config. rewrite Hj, Hy.
      rewrite <- write_file_put_file. unfold os.write_file, os.open_write, bind, ret.
      destruct (os.put_file _ "" w) as [[[]|e] w1]; [|done].
      unfold os.write. simpl. reflexivity. }
    rewrite E.
    destruct (os.put_file _ "" w) as [o w1] eqn:Hp.
    assert (o = Return tt) as ->.
    { unfold os.put_file in Hp. destruct (os_path.split _) as [d b]. simpl in He.
      rewrite Hd, He in Hp. by injection Hp as <- _. }
    eexists. split; [done|]. by eapply put_file_regular.
  - intros content Hc. unfold ConfigManager.load_config, bind.
    rewrite (path_exists_regular _ _ _ Hc). simpl.
    rewrite (read_file_regular _ _ _ Hc). by rewrite Hj, Hy.
Qed.

Lemma plain_unsupported_format_falls_through_witness :
  (∃ w', ConfigManager.save_config Sample.libs Sample.cm "iv" "app" (JDict [("a", JNum 1)])
           "toml" false Sample.world1 = (Return tt, w')
         ∧ os.regular_file (fs w') "/home/u/.ai_config/app.toml" "")
  ∧ ConfigManager.load_config Sample.libs Sample.cm "app" "json5" false
      (with_fs Sample.world1
         {[ "/home/u/.ai_config" := {[ "app.json5" := "{a: 1}" ]} ]})
    = (Return JNull,
       with_fs Sample.world1 {[ "/home/u/.ai_config" := {[ "app.json5" := "{a: 1}" ]} ]}).
Proof.
  split.
  - destruct (plain_unsupported_format_falls_through Sample.libs Sample.cm "iv" "app" "toml"
                (JDict [("a", JNum 1)]) Sample.world1) as [Hs _]; [done|done|].
    apply Hs; [vm_compute; reflexivity|]. vm_compute. eauto.
  - destruct (plain_unsupported_format_falls_through Sample.libs Sample.cm "iv" "app" "json5"
                JNull
                (with_fs Sample.world1
                   {[ "/home/u/.ai_config" := {[ "app.json5" := "{a: 1}" ]} ]}))
      as [_ Hl]; [done|done|].
    apply (Hl "{a: 1}"). split; vm_compute; reflexivity.
Defined.

(** ** The Item Store: list *)

(** Claim C8 at [list_configs] after storing ["svc-a"] and ["svc-b"] and
    deleting ["svc-a"]: the only element of the result is the pair
    [("svc-b", ".json")] that [os.path.splitext] returns, not the name
    ["svc-b"].  [list_stored_services] returns the name in the same
    scenario: see [list_stored_services_scenario]. *)
Theorem list_configs_returns_pairs :
  let v := JDict [("a", JNum 1)] in
  let w1 := (ConfigManager.save_config Sample.libs Sample.cm "iv1" "svc-a" v "json" true
               Sample.world1).2 in
  let w2 := (ConfigManager.save_config Sample.libs Sample.cm "iv2" "svc-b" v "json" true w1).2 in
  let w3 := (ConfigManager.delete_config Sample.cm "svc-a" w2).2 in
  ConfigManager.list_configs Sample.cm w3 = (Return [("svc-b", ".json")], w3).
Proof. vm_compute; reflexivity. Qed.

(** The scenario of claim C8 under [SecureAPIKeyManager]. *)
Example list_stored_services_scenario :
  let w1 := (SecureAPIKeyManager.store_api_key Sample.libs Sample.akm "iv1" "svc-a" "ka"
               Sample.world1).2 in
  let w2 := (SecureAPIKeyManager.store_api_key Sample.libs Sample.akm "iv2" "svc-b" "kb" w1).2 in
  let w3 := (SecureAPIKeyManager.delete_api_key Sample.akm "svc-a" w2).2 in
  SecureAPIKeyManager.list_stored_services Sample.akm w3 = (Return ["svc-b"], w3).
Proof. vm_compute; reflexivity. Qed.

(** [filename.replace('_key.enc', '')] removes every occurrence, not only
    the suffix. *)
Example list_stored_services_inner_suffix :
  let w1 := (SecureAPIKeyManager.store_api_key Sample.libs Sample.akm "iv1" "a_key.encb" "ka"
               Sample.world1).2 in
  SecureAPIKeyManager.list_stored_services Sample.akm w1 = (Return ["ab"], w1).
Proof. vm_compute; reflexivity. Qed.

(** ** The Merge Engine *)

Section merge.
Import PyObj Repr ConfigManager.
Local Arguments ndicts_items : simpl never.

Lemma ndicts_items_cons kx its :
  ndicts_items (kx :: its) = ndicts (snd kx) + ndicts_items its.
Proof. done. Qed.

(** *** Frames: what a representation depends on *)

Lemma layout_frame h h' t : ∀ v lo,
  layout h v t lo → (∀ a, lo ≤ a < lo + ndicts t → h' !! a = h !! a) → layout h' v t lo.
Proof.
  induction t as [| b0 | n0 | x0 | l IH | its IH] using json_ind'; intros v lo Hl Hf; try done.
  - destruct Hl as (vs & -> & Hs). exists vs. split; [done|].
    simpl in Hf. revert vs lo Hs Hf.
    induction IH as [|x l Hx _ IHl]; intros [|v vs] lo Hs Hf; try done.
    destruct Hs as [H1 H2]. split.
    + apply Hx; [done|]. intros a Ha. apply Hf. simpl. lia.
    + apply IHl; [done|]. intros a Ha. apply Hf. simpl. lia.
  - destruct Hl as (ivs & -> & Hd & Hs). exists ivs. split; [done|]. split.
    + rewrite Hf; [done|]. simpl. fold (ndicts_items its). lia.
    + assert (Hf' : ∀ a, lo ≤ a < lo + ndicts_items its → h' !! a = h !! a).
      { intros a Ha. apply Hf. simpl. fold (ndicts_items its). lia. }
      clear Hf Hd. revert ivs lo Hs Hf'.
      induction IH as [|x l Hx _ IHl]; intros [|v vs] lo Hs Hf; try done.
      destruct Hs as [[H0 H1] H2]. rewrite ndicts_items_cons in Hf. split; [split; [done|]|].
      * apply Hx; [done|]. intros a Ha. apply Hf. lia.
      * apply IHl; [done|]. intros a Ha. apply Hf. lia.
Qed.

Lemma layout_items_frame h h' its : ∀ ivs lo,
  layout_items h ivs its lo →
  (∀ a, lo ≤ a < lo + ndicts_items its → h' !! a = h !! a) →
  layout_items h' ivs its lo.
Proof.
  induction its as [|kt its IH]; intros [|kv ivs] lo Hl Hf; try done.
  destruct Hl as [[H0 H1] H2]. rewrite ndicts_items_cons in Hf. split; [split; [done|]|].
  - eapply layout_frame; [exact H1|]. intros a Ha. apply Hf. lia.
  - apply IH; [done|]. intros a Ha. apply Hf. lia.
Qed.

Lemma repr_weaken P Q h h' t : ∀ v,
  repr_in P h v t → (∀ a, P a → Q a ∧ h' !! a = h !! a) → repr_in Q h' v t.
Proof.
  induction t as [| b0 | n0 | x0 | l IH | its IH] using json_ind'; intros v Hr Hf; try done.
  - destruct Hr as (vs & -> & Hs). exists vs. split; [done|].
    revert vs Hs. induction IH as [|x l Hx _ IHl]; intros [|v vs] Hs; try done.
    destruct Hs as [H1 H2]. split; auto.
  - destruct Hr as (d & ivs & -> & Hp & Hd & Hs). exists d, ivs.
    destruct (Hf d Hp) as [Hq Hh]. split; [done|]. split; [done|]. split; [by rewrite Hh|].
    clear Hd. revert ivs Hs. induction IH as [|x l Hx _ IHl]; intros [|v vs] Hs; try done.
    destruct Hs as [[H0 H1] H2]. split; [split|]; auto.
Qed.

Lemma repr_items_weaken P Q h h' its : ∀ ivs,
  repr_items P h ivs its → (∀ a, P a → Q a ∧ h' !! a = h !! a) → repr_items Q h' ivs its.
Proof.
  induction its as [|kt its IH]; intros [|kv ivs] Hr Hf; try done.
  destruct Hr as [[H0 H1] H2]. split; [split; [done|]|].
  - by eapply repr_weaken.
  - by apply IH.
Qed.

Lemma layout_repr (P : nat → Prop) h t : ∀ v lo,
  layout h v t lo → (∀ a, lo ≤ a < lo + ndicts t → P a) → repr_in P h v t.
Proof.
  induction t as [| b0 | n0 | x0 | l IH | its IH] using json_ind'; intros v lo Hl Hf; try done.
  - destruct Hl as (vs & -> & Hs). exists vs. split; [done|].
    simpl in Hf. revert vs lo Hs Hf.
    induction IH as [|x l Hx _ IHl]; intros [|v vs] lo Hs Hf; try done.
    destruct Hs as [H1 H2]. split.
    + eapply Hx; [done|]. intros a Ha. apply Hf. simpl. lia.
    + eapply IHl; [done|]. intros a Ha. apply Hf. simpl. lia.
  - destruct Hl as (ivs & -> & Hd & Hs). exists (lo + ndicts_items its), ivs.
    split; [done|]. split.
    { apply Hf. simpl. fold (ndicts_items its). lia. }
    split; [done|].
    assert (Hf' : ∀ a, lo ≤ a < lo + ndicts_items its → P a).
    { intros a Ha. apply Hf. simpl. fold (ndicts_items its). lia. }
    clear Hf Hd. revert ivs lo Hs Hf'.
    induction IH as [|x l Hx _ IHl]; intros [|v vs] lo Hs Hf; try done.
    destruct Hs as [[H0 H1] H2]. rewrite ndicts_items_cons in Hf. split; [split; [done|]|].
    + eapply Hx; [done|]. intros a Ha. apply Hf. lia.
    + eapply IHl; [done|]. intros a Ha. apply Hf. lia.
Qed.

Lemma layout_items_repr (P : nat → Prop) h its : ∀ ivs lo,
  layout_items h ivs its lo → (∀ a, lo ≤ a < lo + ndicts_items its → P a) →
  repr_items P h ivs its.
Proof.
  induction its as [|kt its IH]; intros [|kv ivs] lo Hl Hf; try done.
  destruct Hl as [[H0 H1] H2]. rewrite ndicts_items_cons in Hf. split; [split; [done|]|].
  - eapply layout_repr; [done|]. intros a Ha. apply Hf. lia.
  - eapply IH; [done|]. intros a Ha. apply Hf. lia.
Qed.

(** *** What [alloc] builds, and reading it back *)

Lemma alloc_seq_spec {T V} (f : T → store → V * store)
    (R : gmap nat items → V → T → nat → Prop) (size : T → nat) (l : list T) :
  (∀ h h' v x lo, R h v x lo → (∀ a, lo ≤ a < lo + size x → h' !! a = h !! a) → R h' v x lo) →
  Forall (λ x, ∀ s v s', f x s = (v, s') →
                next s' = next s + size x ∧ R (objs s') v x (next s)
                ∧ ∀ a, a < next s → objs s' !! a = objs s !! a) l →
  ∀ s vs s', alloc_seq f l s = (vs, s') →
    next s' = next s + foldr (λ x n, size x + n) 0 l
    ∧ layout_seq (R (objs s')) size vs l (next s)
    ∧ ∀ a, a < next s → objs s' !! a = objs s !! a.
Proof.
  intros Hframe Hl. induction Hl as [|x l Hx _ IH]; intros s vs s' E; simpl in E.
  - injection E as <- <-. simpl. split; [lia|done].
  - destruct (f x s) as [v s1] eqn:E1. destruct (alloc_seq f l s1) as [vs' s2] eqn:E2.
    injection E as <- <-.
    destruct (Hx _ _ _ E1) as (Hn1 & Hr1 & Hf1).
    destruct (IH _ _ _ E2) as (Hn2 & Hr2 & Hf2).
    simpl. split; [lia|]. split; [split|].
    + eapply Hframe; [exact Hr1|]. intros a Ha. apply Hf2. lia.
    + by rewrite <- Hn1.
    + intros a Ha. rewrite Hf2 by lia. by apply Hf1.
Qed.

Lemma alloc_spec t : ∀ s v s',
  alloc t s = (v, s') →
  next s' = next s + ndicts t ∧ layout (objs s') v t (next s)
  ∧ ∀ a, a < next s → objs s' !! a = objs s !! a.
Proof.
  induction t as [| b0 | n0 | x0 | l IH | its IH] using json_ind'; intros s v s' E; simpl in E;
    try (injection E as <- <-; simpl; split; [lia|done]).
  - destruct (alloc_seq alloc l s) as [vs s1] eqn:E1. injection E as <- <-.
    destruct (alloc_seq_spec alloc layout ndicts l) with (s := s) (vs := vs) (s' := s1)
      as (Hn & Hl & Hf); [intros; by eapply layout_frame|done|done|].
    split; [done|]. split; [|done]. by exists vs.
  - destruct (alloc_seq _ its s) as [ivs s1] eqn:E1. injection E as <- <-.
    destruct (alloc_seq_spec
                (λ kx s, let '(v, s1) := alloc (snd kx) s in ((fst kx, v), s1))
                (λ h kv kt lo, fst kv = fst kt ∧ layout h (snd kv) (snd kt) lo)
                (λ kt, ndicts (snd kt)) its)
      with (s := s) (vs := ivs) (s' := s1) as (Hn & Hl & Hf).
    + intros h h' v x lo [H1 H2] Hfr. split; [done|]. by eapply layout_frame.
    + eapply Forall_impl; [exact IH|]. intros [k x] Hx s0 [k' v'] s0' E0. simpl in *.
      destruct (alloc x s0) as [v0 s2] eqn:E2. injection E0 as <- <- <-.
      destruct (Hx _ _ _ E2) as (? & ? & ?). done.
    + done.
    + fold (ndicts_items its) in Hn. simpl. fold (ndicts_items its).
      split; [lia|]. split.
      * exists ivs. rewrite <- Hn. split; [done|]. split; [by rewrite lookup_insert_eq|].
        eapply layout_items_frame; [exact Hl|].
        intros a Ha. rewrite lookup_insert_ne; [done|lia].
      * intros a Ha. rewrite lookup_insert_ne; [by apply Hf|lia].
Qed.

Lemma read_S fuel h v :
  read (S fuel) h v =
  match v with
  | VNone => Some JNull
  | VBool b => Some (JBool b)
  | VInt n => Some (JNum n)
  | VStr x => Some (JStr x)
  | VList l =>
      match read_seq (read (S fuel) h) l with
      | Some ts => Some (JList ts)
      | None => None
      end
  | VDict d =>
      match h !! d with
      | None => None
      | Some its =>
          match read_seq (λ kx, match read fuel h (snd kx) with
                                | Some t => Some (fst kx, t)
                                | None => None
                                end) its with
          | Some ts => Some (JDict ts)
          | None => None
          end
      end
  end.
Proof. destruct v; reflexivity. Qed.

Lemma read_seq_cons {A B} (f : A → option B) x r :
  read_seq f (x :: r) = match f x, read_seq f r with
                        | Some t, Some ts => Some (t :: ts)
                        | _, _ => None
                        end.
Proof. done. Qed.

Lemma repr_read P h t : ∀ v fuel,
  repr_in P h v t → depth t < fuel → read fuel h v = Some t.
Proof.
  induction t as [| b0 | n0 | x0 | l IH | its IH] using json_ind'; intros v [|fuel] Hr Hd;
    try lia; simpl in Hr; try (subst v; reflexivity).
  - destruct Hr as (vs & -> & Hs). rewrite read_S.
    assert (E : read_seq (read (S fuel) h) vs = Some l); [|by rewrite E].
    simpl in Hd. revert vs Hs Hd.
    induction IH as [|x l Hx _ IHl]; intros [|v vs] Hs Hd; try done.
    destruct Hs as [H1 H2]. simpl in Hd. rewrite read_seq_cons.
    rewrite (Hx v (S fuel) H1) by lia. rewrite IHl; [done|done|lia].
  - destruct Hr as (d & ivs & -> & _ & Hh & Hs). rewrite read_S, Hh.
    assert (E : read_seq (λ kx, match read fuel h (snd kx) with
                                | Some t => Some (fst kx, t)
                                | None => None
                                end) ivs = Some its); [|by rewrite E].
    simpl in Hd. fold (depth_items its) in Hd. apply Nat.succ_lt_mono in Hd.
    clear Hh. revert ivs Hs Hd.
    induction IH as [|[k x] l Hx _ IHl]; intros [|[k' v] vs] Hs Hd; try done.
    destruct Hs as [[H0 H1] H2]. simpl in H0, H1. subst k'.
    unfold depth_items in Hd. simpl in Hd. rewrite read_seq_cons. simpl snd. simpl fst.
    simpl in Hx. rewrite (Hx v fuel H1) by lia. rewrite IHl; [done|done|].
    unfold depth_items. lia.
Qed.

(** *** Dictionary items *)

Lemma dict_get_Some_elem {V} k (d : list (string * V)) v :
  dict_get k d = Some v → (k, v) ∈ d.
Proof.
  induction d as [|[k0 v0] d IH]; [done|]. simpl.
  destruct (String.eqb k0 k) eqn:E.
  - apply String.eqb_eq in E as ->. intros [= ->]. apply list_elem_of_here.
  - intros H. apply list_elem_of_further. auto.
Qed.

Lemma dict_set_same {V} k (d : list (string * V)) v :
  dict_get k d = Some v → dict_set k v d = d.
Proof.
  induction d as [|[k0 v0] d IH]; [done|]. simpl.
  destruct (String.eqb k0 k) eqn:E.
  - by intros [= ->].
  - intros H. by rewrite IH.
Qed.

Lemma dict_get_set_eq {V} k (v : V) d : dict_get k (dict_set k v d) = Some v.
Proof.
  induction d as [|[k0 v0] d IH]; simpl.
  - by rewrite String.eqb_refl.
  - destruct (String.eqb k0 k) eqn:E; simpl; by rewrite E.
Qed.

Lemma dict_get_set_ne {V} k k' (v : V) d :
  k ≠ k' → dict_get k' (dict_set k v d) = dict_get k' d.
Proof.
  intros Hne. induction d as [|[k0 v0] d IH]; simpl.
  - apply String.eqb_neq in Hne. by rewrite Hne.
  - destruct (String.eqb k0 k) eqn:E; simpl; [|by rewrite IH].
    apply String.eqb_eq in E as ->. apply String.eqb_neq in Hne. by rewrite Hne.
Qed.

Lemma dict_get_None_not_in {V} k (d : list (string * V)) :
  k ∉ map fst d → dict_get k d = None.
Proof.
  induction d as [|[k0 v0] d IH]; [done|]. simpl. intros Hn.
  apply not_elem_of_cons in Hn as [Hne Hn]. apply not_eq_sym in Hne.
  apply String.eqb_neq in Hne. rewrite Hne. auto.
Qed.

Lemma Forall_dict_set {V} (R : string → Prop) k (v : V) d :
  Forall (λ kv, R (fst kv)) d → R k → Forall (λ kv, R (fst kv)) (dict_set k v d).
Proof.
  intros Hd Hk. induction Hd as [|[k0 v0] d H0 Hd IH]; simpl.
  - by repeat constructor.
  - destruct (String.eqb k0 k); constructor; auto.
Qed.

Lemma repr_items_dict_set_new Q h k v' t' acc : ∀ cur,
  repr_items Q h cur acc → dict_get k cur = None → repr_in Q h v' t' →
  repr_items Q h (dict_set k v' cur) (dict_set k t' acc).
Proof.
  induction acc as [|[k0 t0] acc IH]; intros [|[k1 v1] cur] Hr Hg Hv; try done.
  destruct Hr as [[H0 H1] H2]. simpl in H0, H1, Hg |- *. subst k1.
  destruct (String.eqb k0 k); [done|]. split; [done|]. by apply IH.
Qed.

(** *** The state of the loop *)

Lemma entries_init Q h K bi : ∀ ivs lo,
  layout_items h ivs bi lo → entries Q h K lo ivs bi bi.
Proof.
  induction bi as [|[k tb] bi IH]; intros [|[k' v] ivs] lo Hl; try done.
  - by constructor.
  - destruct Hl as [[H0 H1] H2]. simpl in *. subst k'. constructor; [done| |by apply IH].
    eapply layout_repr; [done|]. intros a Ha. by left.
Qed.

Lemma entries_frame Q h h' (K K' : string → Prop) lo cur acc bi :
  entries Q h K lo cur acc bi →
  (∀ a, lo ≤ a < lo + ndicts_items bi → h' !! a = h !! a) →
  (∀ a, Q a → h' !! a = h !! a) →
  (∀ x, K' x → K x) →
  entries Q h' K' lo cur acc bi.
Proof.
  intros He. induction He as [lo cur acc Hr Hk | lo k v t tb cur acc bi Hu Hr He IH];
    intros Hf Hq HK.
  - constructor.
    + eapply repr_items_weaken; [done|]. auto.
    + eapply Forall_impl; [done|]. intros kv Hn HK'. auto.
  - rewrite ndicts_items_cons in Hf. simpl in Hf. constructor.
    + intros Hk. destruct (Hu (HK _ Hk)) as [-> Hl]. split; [done|].
      eapply layout_frame; [done|]. intros a Ha. apply Hf. lia.
    + eapply repr_weaken; [done|]. intros a Ha. split; [done|].
      destruct Ha as [Ha|Ha]; [apply Hf; lia | by apply Hq].
    + apply IH; [|done|done]. intros a Ha. apply Hf. lia.
Qed.

Lemma entries_final Q h K lo cur acc bi :
  entries Q h K lo cur acc bi →
  repr_items (λ a, lo ≤ a < lo + ndicts_items bi ∨ Q a) h cur acc.
Proof.
  intros He. induction He as [lo cur acc Hr Hk | lo k v t tb cur acc bi Hu Hr He IH].
  - eapply repr_items_weaken; [done|]. intros a Ha. split; [by right|done].
  - rewrite ndicts_items_cons. simpl. split; [split; [done|]|].
    + eapply repr_weaken; [done|]. intros a Ha. split; [|done]. simpl.
      destruct Ha as [Ha|Ha]; [left; lia | by right].
    + eapply repr_items_weaken; [done|]. intros a Ha. split; [|done]. simpl.
      destruct Ha as [Ha|Ha]; [left; lia | by right].
Qed.

Lemma entries_found Q h K lo cur acc bi k v :
  entries Q h K lo cur acc bi → K k → dict_get k cur = Some v →
  ∃ tb lo_i, dict_get k bi = Some tb ∧ layout h v tb lo_i
    ∧ (lo ≤ lo_i)%nat ∧ (lo_i + ndicts tb ≤ lo + ndicts_items bi)%nat
    ∧ ∀ h' (K' : string → Prop) v' t',
        (∀ a, lo ≤ a < lo + ndicts_items bi → ¬ (lo_i ≤ a < lo_i + ndicts tb) →
              h' !! a = h !! a) →
        (∀ a, Q a → h' !! a = h !! a) →
        (∀ x, K' x → K x) → ¬ K' k →
        repr_in (λ a, lo_i ≤ a < lo_i + ndicts tb ∨ Q a) h' v' t' →
        entries Q h' K' lo (dict_set k v' cur) (dict_set k t' acc) bi.
Proof.
  intros He Hk. induction He as [lo cur acc Hr Hn | lo k0 v0 t0 tb0 cur acc bi Hu Hr He IH];
    intros Hg.
  - apply dict_get_Some_elem in Hg. rewrite Forall_forall in Hn. by destruct (Hn _ Hg).
  - simpl in Hg. destruct (String.eqb k0 k) eqn:E.
    + apply String.eqb_eq in E as ->. injection Hg as ->.
      destruct (Hu Hk) as [-> Hl]. exists tb0, lo. simpl. rewrite String.eqb_refl.
      split; [done|]. split; [done|]. rewrite ndicts_items_cons. simpl.
      split; [lia|]. split; [lia|].
      intros h' K' v' t' Hf Hq HK HnK Hv. constructor; [done|done|].
      eapply entries_frame; [done| |done|done].
      intros a Ha. apply Hf; lia.
    + destruct (IH Hg) as (tb & lo_i & Hb & Hl & Hlo & Hhi & Hupd).
      exists tb, lo_i. simpl. rewrite E. rewrite ndicts_items_cons. simpl.
      split; [done|]. split; [done|]. split; [lia|]. split; [lia|].
      intros h' K' v' t' Hf Hq HK HnK Hv. constructor.
      * intros Hk0. destruct (Hu (HK _ Hk0)) as [-> Hl0]. split; [done|].
        eapply layout_frame; [done|]. intros a Ha. apply Hf; lia.
      * eapply repr_weaken; [done|]. intros a Ha. split; [done|].
        destruct Ha as [Ha|Ha]; [apply Hf; lia | by apply Hq].
      * apply Hupd; try done. intros a Ha Hna. apply Hf; [lia|done].
Qed.

Lemma entries_not_found Q h K lo cur acc bi k :
  entries Q h K lo cur acc bi → dict_get k cur = None →
  dict_get k bi = None
  ∧ ∀ h' (K' : string → Prop) v' t',
      (∀ a, lo ≤ a < lo + ndicts_items bi → h' !! a = h !! a) →
      (∀ a, Q a → h' !! a = h !! a) →
      (∀ x, K' x → K x) → ¬ K' k →
      repr_in Q h' v' t' →
      entries Q h' K' lo (dict_set k v' cur) (dict_set k t' acc) bi.
Proof.
  intros He. induction He as [lo cur acc Hr Hn | lo k0 v0 t0 tb0 cur acc bi Hu Hr He IH];
    intros Hg.
  - split; [done|]. intros h' K' v' t' Hf Hq HK HnK Hv. constructor.
    + apply repr_items_dict_set_new; [|done|done].
      eapply repr_items_weaken; [done|]. auto.
    + apply (Forall_dict_set (λ x, ¬ K' x)); [|done].
      eapply Forall_impl; [done|]. intros kv H1 H2. auto.
  - simpl in Hg. destruct (String.eqb k0 k) eqn:E; [done|].
    destruct (IH Hg) as [Hb Hupd]. simpl. rewrite E. split; [done|].
    rewrite ndicts_items_cons. simpl.
    intros h' K' v' t' Hf Hq HK HnK Hv. constructor.
    + intros Hk0. destruct (Hu (HK _ Hk0)) as [-> Hl0]. split; [done|].
      eapply layout_frame; [done|]. intros a Ha. apply Hf; lia.
    + eapply repr_weaken; [done|]. intros a Ha. split; [done|].
      destruct Ha as [Ha|Ha]; [apply Hf; lia | by apply Hq].
    + apply Hupd; try done. intros a Ha. apply Hf; lia.
Qed.

(** *** The loop and the recursion of [deep_merge] *)

Lemma spec_merge_overlay tb to :
  (∀ bi oi, tb = JDict bi → to = JDict oi → False) → spec_merge tb to = to.
Proof. destruct tb, to; try done. intros H. by destruct (H _ _ eq_refl eq_refl). Qed.

Lemma merge_over_cons merge b k v r acc :
  merge_over merge b ((k, v) :: r) acc
  = merge_over merge b r
      (dict_set k (match dict_get k b with Some bv => merge bv v | None => v end) acc).
Proof. done. Qed.

Lemma merge_loop_cons rec c k v rest h :
  merge_loop rec c ((k, v) :: rest) h =
  match h !! c with
  | None => None
  | Some items1 =>
      match v, dict_get k items1 with
      | VDict o, Some (VDict d) =>
          match rec d o h with
          | Some h' => merge_loop rec c rest h'
          | None => None
          end
      | _, _ => merge_loop rec c rest (<[c := dict_set k v items1]> h)
      end
  end.
Proof. done. Qed.

Lemma merge_loop_spec Q f c bi lo :
  deep_merge_ok Q f →
  ¬ (lo ≤ c < lo + ndicts_items bi) → ¬ Q c →
  (∀ a, Q a → ¬ (lo ≤ a < lo + ndicts_items bi)) →
  ∀ oi oivs h cur acc,
    depth_items oi ≤ f → NoDup (map fst oi) →
    foldr (λ kx P, unique_keys (snd kx) ∧ P) True oi →
    repr_items Q h oivs oi → h !! c = Some cur →
    entries Q h (λ x, x ∈ map fst oi) lo cur acc bi →
    ∃ h' cur', merge_loop (deep_merge f) c oivs h = Some h'
      ∧ (∀ a, ¬ (lo ≤ a < lo + ndicts_items bi) → a ≠ c → h' !! a = h !! a)
      ∧ h' !! c = Some cur'
      ∧ entries Q h' (λ _, False) lo cur' (merge_over spec_merge bi oi acc) bi.
Proof.
  intros IHf Hc HQc HQ.
  induction oi as [|[k to] oi IH]; intros [|[k' vo] oivs] h cur acc Hd Hnd Hu Hr Hh He;
    try done.
  - exists h, cur. split; [done|]. split; [done|]. split; [done|].
    eapply entries_frame; [done|done|done|]. done.
  - destruct Hr as [[Hk Hvo] Hr]. simpl in Hk, Hvo. subst k'.
    apply NoDup_cons in Hnd as [Hnk Hnd]. destruct Hu as [Hut Hu]. simpl in Hut.
    assert (Hdt : depth to ≤ f ∧ depth_items oi ≤ f).
    { unfold depth_items in *. simpl in Hd. lia. }
    destruct Hdt as [Hdt Hdo].
    rewrite merge_loop_cons, Hh, merge_over_cons.
    set (h1 := <[c := dict_set k vo cur]> h).
    assert (Hh1 : ∀ a, a ≠ c → h1 !! a = h !! a).
    { intros a Ha. unfold h1. by rewrite lookup_insert_ne. }
    (* the branch of line 142 *)
    assert (Hdef : entries Q h1 (λ x, x ∈ map fst oi) lo (dict_set k vo cur)
                     (dict_set k to acc) bi →
      ∃ h' cur', merge_loop (deep_merge f) c oivs h1 = Some h'
        ∧ (∀ a, ¬ (lo ≤ a < lo + ndicts_items bi) → a ≠ c → h' !! a = h !! a)
        ∧ h' !! c = Some cur'
        ∧ entries Q h' (λ _, False) lo cur' (merge_over spec_merge bi oi (dict_set k to acc)) bi).
    { intros He1.
      destruct (IH oivs h1 (dict_set k vo cur) (dict_set k to acc)) as (h' & cur' & E & Hf & Hc' & He');
        try done.
      - eapply repr_items_weaken; [done|]. intros a Ha. split; [done|].
        apply Hh1. by intros ->.
      - unfold h1. by rewrite lookup_insert_eq.
      - exists h', cur'. split; [done|]. split; [|done].
        intros a Ha Hac. rewrite Hf by done. by apply Hh1. }
    assert (HK : ∀ x, x ∈ map fst oi → x ∈ map fst ((k, to) :: oi)).
    { intros x Hx. simpl. by apply list_elem_of_further. }
    assert (Hvo1 : repr_in Q h1 vo to).
    { eapply repr_weaken; [done|]. intros a Ha. split; [done|]. apply Hh1. by intros ->. }
    destruct (dict_get k cur) as [v|] eqn:Hg.
    + destruct (entries_found _ _ _ _ _ _ _ _ _ He (list_elem_of_here _ _) Hg)
        as (tb & lo_i & Hb & Hl & Hlo & Hhi & Hupd).
      simpl in Hb, Hupd. rewrite Hb.
      (* the items of [dict1] after line 142, when it is reached *)
      assert (He1 : entries Q h1 (λ x, x ∈ map fst oi) lo (dict_set k vo cur)
                      (dict_set k to acc) bi).
      { apply Hupd; try done.
        - intros a Ha _. apply Hh1. intros ->. by apply Hc.
        - intros a Ha. apply Hh1. by intros ->.
        - eapply repr_weaken; [exact Hvo1|]. intros a Ha. split; [by right|done]. }
      destruct to as [| b0 | n0 | x0 | l0 | oi2]; simpl in Hvo;
        try (subst vo; rewrite spec_merge_overlay by (intros; discriminate);
             by apply Hdef).
      { destruct Hvo as (vs & -> & _).
        rewrite spec_merge_overlay by (intros; discriminate). by apply Hdef. }
      destruct Hvo as (o2 & oivs2 & -> & HQo & Ho2 & Hr2).
      destruct tb as [| b0 | n0 | x0 | l0 | bi2]; simpl in Hl;
        try (subst v; rewrite spec_merge_overlay by (intros; discriminate);
             by apply Hdef).
      { destruct Hl as (vs & -> & _).
        rewrite spec_merge_overlay by (intros; discriminate). by apply Hdef. }
      destruct Hl as (divs & -> & Hd2 & Hl2).
      (* the recursive call of line 140 *)
      simpl in Hhi. fold (ndicts_items bi2) in Hhi.
      destruct (IHf h (lo_i + ndicts_items bi2) o2 divs oivs2 bi2 oi2 lo_i)
        as (h2 & divs2 & E2 & Hf2 & Hd2' & Hr2'); try done.
      { lia. }
      { intros Hq. apply (HQ _ Hq). lia. }
      { intros a Ha Hr'. apply (HQ _ Ha). lia. }
      rewrite E2.
      assert (Hh2 : ∀ a, ¬ (lo_i ≤ a < lo_i + S (ndicts_items bi2)) → h2 !! a = h !! a).
      { intros a Ha. apply Hf2; lia. }
      destruct (IH oivs h2 cur (dict_set k (spec_merge (JDict bi2) (JDict oi2)) acc))
        as (h' & cur' & E & Hf & Hc' & He'); try done.
      * eapply repr_items_weaken; [done|]. intros a Ha. split; [done|].
        apply Hh2. intros Hr'. apply (HQ _ Ha). lia.
      * rewrite Hh2; [done|]. intros Hr'. apply Hc. lia.
      * rewrite <- (dict_set_same k cur (VDict (lo_i + ndicts_items bi2))) at 1 by done.
        apply Hupd; try done.
        -- intros a Ha Hna. apply Hh2. simpl in Hna. fold (ndicts_items bi2) in Hna. done.
        -- intros a Ha. apply Hh2. intros Hr'. apply (HQ _ Ha). lia.
        -- simpl. exists (lo_i + ndicts_items bi2), divs2. split; [done|]. split.
           { left. fold (ndicts_items bi2). lia. }
           split; [done|].
           eapply repr_items_weaken; [done|]. intros a Ha. split; [|done].
           fold (ndicts_items bi2). destruct Ha as [Ha|Ha]; [left; lia | by right].
      * exists h', cur'. split; [done|]. split; [|done].
        intros a Ha Hac. rewrite Hf by done. apply Hh2. lia.
    + destruct (entries_not_found _ _ _ _ _ _ _ _ He Hg) as [Hb Hupd]. rewrite Hb.
      assert (Hdef' : ∃ h' cur', merge_loop (deep_merge f) c oivs h1 = Some h'
        ∧ (∀ a, ¬ (lo ≤ a < lo + ndicts_items bi) → a ≠ c → h' !! a = h !! a)
        ∧ h' !! c = Some cur'
        ∧ entries Q h' (λ _, False) lo cur' (merge_over spec_merge bi oi (dict_set k to acc)) bi).
      { apply Hdef. apply Hupd; try done.
        - intros a Ha. apply Hh1. intros ->. by apply Hc.
        - intros a Ha. apply Hh1. by intros ->. }
      by destruct vo.
Qed.

Lemma deep_merge_spec Q fuel : deep_merge_ok Q fuel.
Proof.
  induction fuel as [|f IHf];
    intros h c ol civs oivs bi oi lo Hd Hu Hc Hl Hol Hr Hnc HQc HQ.
  - simpl in Hd. lia.
  - simpl. rewrite Hol. destruct Hu as [Hnd Hu].
    destruct (merge_loop_spec Q f c bi lo IHf Hnc HQc HQ oi oivs h civs bi)
      as (h' & cur' & E & Hf & Hc' & He); try done.
    + simpl in Hd. fold (depth_items oi) in Hd. lia.
    + by apply entries_init.
    + exists h', cur'. split; [done|]. split; [done|]. split; [done|].
      by eapply entries_final.
Qed.

(** *** The depth of the merge *)

Lemma depth_items_dict_get k its v :
  dict_get k its = Some v → depth v ≤ depth_items its.
Proof.
  induction its as [|[k0 v0] its IH]; [done|]. unfold depth_items. simpl.
  destruct (String.eqb k0 k).
  - intros [= ->]. lia.
  - intros H. apply IH in H. unfold depth_items in H. lia.
Qed.

Lemma depth_items_dict_set k v its :
  depth_items (dict_set k v its) ≤ Nat.max (depth v) (depth_items its).
Proof.
  induction its as [|[k0 v0] its IH]; unfold depth_items in *; simpl; [lia|].
  destruct (String.eqb k0 k); simpl; lia.
Qed.

Lemma depth_spec_merge to : ∀ tb,
  depth (spec_merge tb to) ≤ Nat.max (depth tb) (depth to).
Proof.
  induction to as [| b0 | n0 | x0 | l IH | oi IH] using json_ind'; intros tb;
    try (destruct tb; simpl; lia).
  destruct tb as [| b0 | n0 | x0 | l0 | bi]; try apply Nat.le_max_r.
  - simpl. fold (depth_items bi). fold (depth_items oi).
    apply le_n_S.
    assert (H : ∀ acc, depth_items (merge_over spec_merge bi oi acc)
                       ≤ Nat.max (depth_items acc)
                           (Nat.max (depth_items bi) (depth_items oi))).
    { induction IH as [|[k v] oi Hv _ IHoi]; intros acc; simpl; [lia|].
      etrans; [apply IHoi|]. pose proof (depth_items_dict_set k
        (match dict_get k bi with Some bv => spec_merge bv v | None => v end) acc) as H1.
      assert (depth (match dict_get k bi with Some bv => spec_merge bv v | None => v end)
              ≤ Nat.max (depth_items bi) (depth v)) as H2.
      { destruct (dict_get k bi) as [bv|] eqn:Hb; [|lia].
        apply depth_items_dict_get in Hb. simpl in Hv. specialize (Hv bv). lia. }
      unfold depth_items at 6. simpl. fold (depth_items oi). lia. }
    fold (depth_items (merge_over spec_merge bi oi bi)).
    specialize (H bi). lia.
Qed.

(** *** Lines 136 to 146 on two decoded mappings *)

(** The merge succeeds; the merged object stands for the merge of the
    specification, and the overlay object still stands for the overlay. *)
Lemma merge_dicts_spec (b o : list (string * json)) :
  unique_keys (JDict o) →
  ∃ st, merge_dicts b o = Some st
        ∧ repr_in (λ _, True) (heap st) (merged_config st) (spec_merge (JDict b) (JDict o))
        ∧ repr_in (λ _, True) (heap st) (overlay st) (JDict o).
Proof.
  intros Hu. unfold merge_dicts.
  destruct (alloc (JDict b) empty_store) as [vb s1] eqn:E1.
  destruct (alloc (JDict o) s1) as [vo s2] eqn:E2.
  destruct (alloc_spec _ _ _ _ E1) as (Hn1 & Hl1 & _).
  destruct (alloc_spec _ _ _ _ E2) as (Hn2 & Hl2 & Hf2).
  simpl in Hn1, Hn2, Hl1, Hl2. fold (ndicts_items b) in *. fold (ndicts_items o) in *.
  destruct Hl1 as (bivs & -> & Hb & Hlb). destruct Hl2 as (oivs & -> & Ho & Hlo).
  rewrite Hf2 by lia. rewrite Hb. unfold new_dict. cbv beta iota zeta. cbn [objs next].
  set (c := next s2). set (h := <[c := bivs]> (objs s2)).
  assert (Hh : ∀ a, a < c → h !! a = objs s2 !! a).
  { intros a Ha. unfold h. rewrite lookup_insert_ne; [done|lia]. }
  set (Q := λ a, next s1 ≤ a < next s2).
  assert (Hro : repr_items Q h oivs o).
  { eapply layout_items_repr with (P := Q) in Hlo; [|unfold Q; lia].
    eapply repr_items_weaken; [done|]. intros a Ha. split; [done|]. apply Hh.
    unfold Q, c in *. lia. }
  destruct (deep_merge_spec Q (depth (JDict o)) h c (next s1 + ndicts_items o)
              bivs oivs b o 0) as (h' & civs' & E & Hf & Hc & Hr); try done.
  - unfold h. by rewrite lookup_insert_eq.
  - eapply layout_items_frame; [eapply layout_items_frame; [done|]|].
    + intros a Ha. apply Hf2. lia.
    + intros a Ha. apply Hh. unfold c. lia.
  - rewrite Hh; [done|]. unfold c. lia.
  - unfold c. lia.
  - unfold Q, c. lia.
  - unfold Q. lia.
  - rewrite E. eexists. split; [done|]. simpl. split.
    + exists c, civs'. split; [done|]. split; [done|]. split; [done|].
      eapply repr_items_weaken; [done|]. done.
    + exists (next s1 + ndicts_items o), oivs. split; [done|]. split; [done|].
      split.
      * rewrite Hf; [|lia|unfold c; lia]. rewrite Hh; [done|unfold c; lia].
      * eapply repr_items_weaken; [done|]. intros a Ha. split; [done|].
        unfold Q in Ha. apply Hf; unfold c; lia.
Qed.

Lemma merge_loaded_spec (b o : list (string * json)) (w : world) :
  unique_keys (JDict o) →
  merge_loaded (JDict b) (JDict o) w = (Return (spec_merge (JDict b) (JDict o)), w).
Proof.
  intros Hu. unfold merge_loaded.
  destruct (merge_dicts_spec b o Hu) as (st & -> & Hr & _).
  erewrite repr_read; [done|done|].
  pose proof (depth_spec_merge (JDict o) (JDict b)). lia.
Qed.

(** Property X22.  The overlay is never changed by the merge: after lines
    136 to 145, the overlay object still stands for the value it was
    decoded from. *)
Lemma merge_dicts_keeps_overlay (b o : list (string * json)) :
  unique_keys (JDict o) →
  ∃ st, merge_dicts b o = Some st
        ∧ read (S (depth (JDict o))) (heap st) (overlay st) = Some (JDict o).
Proof.
  intros Hu. destruct (merge_dicts_spec b o Hu) as (st & E & _ & Hr).
  exists st. split; [done|]. eapply repr_read; [done|lia].
Qed.

Lemma merge_dicts_keeps_overlay_witness :
  ∃ st, ConfigManager.merge_dicts [("b", JDict [("x", JNum 1)])] [("b", JDict [("y", JNum 2)])]
        = Some st
        ∧ PyObj.read 3 (ConfigManager.heap st) (ConfigManager.overlay st)
          = Some (JDict [("b", JDict [("y", JNum 2)])]).
Proof.
  apply (merge_dicts_keeps_overlay [("b", JDict [("x", JNum 1)])]
           [("b", JDict [("y", JNum 2)])]).
  simpl. split; [apply NoDup_singleton|]. split; [|done]. split; [apply NoDup_singleton|done].
Defined.

(** The merge of the specification, key by key. *)
Lemma merge_over_lookup merge b o : ∀ acc k,
  NoDup (map fst o) →
  dict_get k (merge_over merge b o acc)
  = match dict_get k o with
    | Some ov => Some (match dict_get k b with Some bv => merge bv ov | None => ov end)
    | None => dict_get k acc
    end.
Proof.
  induction o as [|[k0 v0] o IH]; intros acc k Hnd; [done|].
  apply NoDup_cons in Hnd as [Hn Hnd]. rewrite merge_over_cons, IH by done. simpl.
  destruct (String.eqb k0 k) eqn:E.
  - apply String.eqb_eq in E as <-. rewrite dict_get_None_not_in by done.
    apply dict_get_set_eq.
  - apply String.eqb_neq in E. destruct (dict_get k o); [done|].
    by apply dict_get_set_ne.
Qed.

Lemma unique_keys_dict_get k its v :
  unique_keys (JDict its) → dict_get k its = Some v → unique_keys v.
Proof.
  intros [_ Hu]. induction its as [|[k0 v0] its IH]; [done|]. simpl.
  destruct Hu as [H0 Hu]. destruct (String.eqb k0 k); [by intros [= <-]|auto].
Qed.

(** Claim C6.  For every base and every overlay mapping (no mapping of
    the overlay having a key twice), lines 136 to 146 of [merge_configs]
    return a mapping [merged], which is the merge of the specification,
    such that: each key of the overlay maps in [merged] to what the same
    code returns on the two values when both are mappings, and to the
    value of the overlay otherwise; each key of the base alone keeps its
    value; and the example of the specification yields the stated
    result. *)
Theorem merge_follows_deep_merge (base overlay : list (string * json)) (w : world) :
  unique_keys (JDict overlay) →
  ∃ merged,
    merge_loaded (JDict base) (JDict overlay) w = (Return (JDict merged), w)
    ∧ JDict merged = spec_merge (JDict base) (JDict overlay)
    ∧ (∀ k ov, dict_get k overlay = Some ov →
         match dict_get k base, ov with
         | Some (JDict b'), JDict o' =>
             ∃ m, dict_get k merged = Some m
                  ∧ merge_loaded (JDict b') (JDict o') w = (Return m, w)
         | _, _ => dict_get k merged = Some ov
         end)
    ∧ (∀ k, dict_get k overlay = None → dict_get k merged = dict_get k base)
    ∧ merge_loaded
        (JDict [("a", JNum 1); ("b", JDict [("x", JNum 1); ("y", JNum 2)])])
        (JDict [("b", JDict [("y", JNum 9); ("z", JNum 3)]); ("c", JNum 4)]) w
      = (Return (JDict [("a", JNum 1);
                        ("b", JDict [("x", JNum 1); ("y", JNum 9); ("z", JNum 3)]);
                        ("c", JNum 4)]), w).
Proof.
  intros Hu. exists (merge_over spec_merge base overlay base).
  split; [by apply merge_loaded_spec|]. split; [done|]. split; [|split].
  - intros k ov Ho. pose proof (unique_keys_dict_get _ _ _ Hu Ho) as Huo.
    destruct Hu as [Hnd _].
    rewrite (merge_over_lookup spec_merge base overlay base k Hnd), Ho.
    destruct (dict_get k base) as [bv|]; [|by destruct ov].
    destruct bv as [| b0 | n0 | x0 | l0 | b']; try by destruct ov.
    destruct ov as [| b0 | n0 | x0 | l0 | o']; try done.
    eexists. split; [done|]. by apply merge_loaded_spec.
  - intros k Ho. destruct Hu as [Hnd _].
    by rewrite (merge_over_lookup spec_merge base overlay base k Hnd), Ho.
  - vm_compute. reflexivity.
Qed.

Lemma merge_follows_deep_merge_witness :
  ∃ merged,
    merge_loaded (JDict [("tags", JList [JNum 1; JNum 2; JNum 3])])
      (JDict [("tags", JList [JNum 9])]) Sample.world0
    = (Return (JDict merged), Sample.world0)
    ∧ dict_get "tags" merged = Some (JList [JNum 9]).
Proof.
  destruct (merge_follows_deep_merge [("tags", JList [JNum 1; JNum 2; JNum 3])]
              [("tags", JList [JNum 9])] Sample.world0)
    as (merged & E & _ & Hk & _).
  - split; [apply NoDup_singleton|]. simpl. done.
  - exists merged. split; [exact E|]. exact (Hk "tags" (JList [JNum 9]) eq_refl).
Defined.

(** [merge_configs] on two stored configurations that decode to mappings. *)
Lemma merge_configs_spec (L : pylibs) (self : ConfigManager.t)
    (base_config overlay_config : string) (b o : list (string * json)) (w : world) :
  ConfigManager.load_config L self base_config "json" true w = (Return (JDict b), w) →
  ConfigManager.load_config L self overlay_config "json" true w = (Return (JDict o), w) →
  unique_keys (JDict o) →
  merge_configs L self base_config overlay_config w
  = (Return (spec_merge (JDict b) (JDict o)), w).
Proof.
  intros Hb Ho Hu. unfold merge_configs, bind.
  rewrite Hb, Ho. by apply merge_loaded_spec.
Qed.

(** Claim C5 at base [{"b": {"x": 1}}] and overlay [{"b": {"y": 2}}]:
    [base.copy()] is a shallow copy, so the dictionary under ["b"] is
    shared by [base] and the copy, and [deep_merge] updates it in place.
    After the merge, [base] stands for [{"b": {"x": 1, "y": 2}}]; the
    overlay is unchanged (as it always is: [merge_dicts_keeps_overlay]). *)
Theorem deep_merge_mutates_base :
  let base_value := [("b", JDict [("x", JNum 1)])] in
  let overlay_value := [("b", JDict [("y", JNum 2)])] in
  ∃ st, ConfigManager.merge_dicts base_value overlay_value = Some st
        ∧ PyObj.read 3 (ConfigManager.heap st) (ConfigManager.base st)
          = Some (JDict [("b", JDict [("x", JNum 1); ("y", JNum 2)])])
        ∧ PyObj.read 3 (ConfigManager.heap st) (ConfigManager.overlay st) = Some (JDict overlay_value)
        ∧ PyObj.read 3 (ConfigManager.heap st) (ConfigManager.merged_config st)
          = Some (JDict [("b", JDict [("x", JNum 1); ("y", JNum 2)])]).
Proof. eexists. split; [vm_compute; reflexivity|]. repeat split. Qed.

End merge.

(** ** The Validation Hook *)

(** Claim C10.  For a service other than ["openai"], ["google"] and
    ["anthropic"], [validate_api_key] returns [True] for every candidate
    key and does nothing else: no SDK is called and nothing is printed. *)
Theorem validate_api_key_other_service (L : pylibs) (self : SecureAPIKeyManager.t)
    (service api_key : string) (w : world) :
  service ≠ "openai" → service ≠ "google" → service ≠ "anthropic" →
  SecureAPIKeyManager.validate_api_key L self service api_key w = (Return true, w).
Proof.
  intros H1 H2 H3. unfold SecureAPIKeyManager.validate_api_key, try_except, bind, ret.
  apply String.eqb_neq in H1, H2, H3. by rewrite H1, H2, H3.
Qed.

Lemma validate_api_key_other_service_witness :
  SecureAPIKeyManager.validate_api_key Sample.libs Sample.akm
    "mistral" "not-a-key" Sample.world0 = (Return true, Sample.world0).
Proof. apply validate_api_key_other_service; discriminate. Defined.

(** * Further properties of the code *)

Local Arguments Ascii.eqb : simpl never.

(** ** More on strings and paths *)

Lemma string_rev_app_acc (s t : string) : String.rev_app s t = String.rev s +:+ t.
Proof.
  revert t. induction s as [|a s IH]; intros t; [done|].
  unfold String.rev. simpl. rewrite (IH (String a t)), (IH (String a "")).
  by rewrite app_assoc'.
Qed.

Lemma string_rev_cons (a : ascii) (s : string) : String.rev (String a s) = String.rev s +:+ String a "".
Proof. unfold String.rev at 1. simpl. apply string_rev_app_acc. Qed.

Lemma string_rev_app (s t : string) : String.rev (s +:+ t) = String.rev t +:+ String.rev s.
Proof.
  induction s as [|a s IH].
  - change ("" +:+ t) with t. by rewrite app_empty_r.
  - change (String a s +:+ t) with (String a (s +:+ t)).
    by rewrite !string_rev_cons, IH, app_assoc'.
Qed.

Lemma string_rev_involutive (s : string) : String.rev (String.rev s) = s.
Proof.
  induction s as [|a s IH]; [done|]. by rewrite string_rev_cons, string_rev_app, IH.
Qed.

Lemma string_rev_empty (s : string) : String.rev s = "" → s = "".
Proof. intros E. apply (f_equal String.rev) in E. by rewrite string_rev_involutive in E. Qed.

Lemma startswith_app (p s : string) : Py.startswith (p +:+ s) p = true.
Proof.
  induction p as [|a p IH]; [by destruct s|].
  change (String a p +:+ s) with (String a (p +:+ s)). simpl.
  by rewrite Ascii.eqb_refl.
Qed.

Lemma endswith_app (s p : string) : Py.endswith (s +:+ p) p = true.
Proof. unfold Py.endswith. rewrite string_rev_app. apply startswith_app. Qed.

Lemma contains_app c (s t : string) :
  Py.contains c (s +:+ t) = Py.contains c s || Py.contains c t.
Proof.
  induction s as [|a s IH]; [done|].
  change (String a s +:+ t) with (String a (s +:+ t)). simpl.
  by destruct (Ascii.eqb a c).
Qed.

Lemma cut_last_end c (s : string) :
  Py.cut_last c (s +:+ String c "") = Some (s +:+ String c "", "").
Proof.
  induction s as [|a s IH].
  - change ("" +:+ String c "") with (String c ""). simpl. by rewrite Ascii.eqb_refl.
  - change (String a s +:+ String c "") with (String a (s +:+ String c "")).
    simpl. by rewrite IH.
Qed.

(** The last character of a path that is not empty and does not end with
    a separator. *)
Lemma rev_plain_dir (a : string) :
  a ≠ "" → Py.endswith a "/" = false →
  ∃ x r, String.rev a = String x r ∧ Ascii.eqb x "/" = false.
Proof.
  intros Ha He. unfold Py.endswith in He. change (String.rev "/") with "/" in He.
  destruct (String.rev a) as [|x r] eqn:E; [by apply string_rev_empty in E|].
  exists x, r. split; [done|]. simpl in He. rewrite Ascii.eqb_sym in He.
  destruct (Ascii.eqb x "/"); [by destruct r|done].
Qed.

Lemma rstrip_sep (a : string) :
  a ≠ "" → Py.endswith a "/" = false →
  Py.rstrip os_path.sep (a +:+ "/") = a ∧ Py.all_char os_path.sep (a +:+ "/") = false.
Proof.
  intros Ha He. destruct (rev_plain_dir a Ha He) as (x & r & E & Hx). split.
  - unfold Py.rstrip. rewrite string_rev_app, E. change (String.rev "/") with "/".
    change ("/" +:+ String x r) with (String "/" (String x r)).
    unfold os_path.sep. rewrite Ascii.eqb_refl, Hx. by rewrite <- E, string_rev_involutive.
  - apply (f_equal String.rev) in E. rewrite string_rev_involutive, string_rev_cons in E. rewrite E.
    generalize (String.rev r). intros s.
    induction s as [|b s IH].
    + simpl. unfold os_path.sep. by rewrite Hx.
    + change (((String b s +:+ String x "") +:+ "/")) with (String b ((s +:+ String x "") +:+ "/")).
      simpl. by destruct (Ascii.eqb b os_path.sep).
Qed.

Lemma join_plain_dir (a b : string) :
  a ≠ "" → Py.endswith a "/" = false → Py.contains os_path.sep b = false →
  os_path.join a b = a +:+ "/" +:+ b.
Proof.
  intros Ha He Hb. unfold os_path.join.
  assert (Py.startswith b "/" = false) as ->.
  { destruct b as [|c b]; [done|]. simpl in *. unfold os_path.sep in Hb.
    rewrite Ascii.eqb_sym. by destruct (Ascii.eqb c "/"). }
  rewrite He. apply String.eqb_neq in Ha. by rewrite Ha.
Qed.

(** [os.path.split] undoes [os.path.join] of a plain directory and a
    name. *)
Lemma split_join (a b : string) :
  a ≠ "" → Py.endswith a "/" = false → Py.contains os_path.sep b = false →
  os_path.split (os_path.join a b) = (a, b).
Proof.
  intros Ha He Hb. rewrite join_plain_dir by done.
  unfold os_path.split. rewrite <- app_assoc'.
  rewrite cut_last_app by done.
  pose proof (cut_last_end os_path.sep a) as Hc.
  change (String os_path.sep "") with "/" in Hc. rewrite Hc.
  destruct (rstrip_sep a Ha He) as [-> ->]. done.
Qed.

Lemma app_inj_r (s s' t : string) : s +:+ t = s' +:+ t → s = s'.
Proof.
  intros E. apply (f_equal String.rev) in E. rewrite !string_rev_app in E.
  apply (inj _) in E. apply (f_equal String.rev) in E. by rewrite !string_rev_involutive in E.
Qed.

Lemma endswith_sep (a : string) :
  Py.endswith a "/" = true → ∃ a', a = a' +:+ "/".
Proof.
  unfold Py.endswith. change (String.rev "/") with "/". intros H.
  destruct (String.rev a) as [|x r] eqn:E; [done|]. simpl in H.
  destruct (Ascii.eqb_spec "/" x) as [<-|]; [|done].
  exists (String.rev r). apply (f_equal String.rev) in E.
  by rewrite string_rev_involutive, string_rev_cons in E.
Qed.

(** The last component of [os.path.join(a, b)] is [b], when [b] is a plain
    name. *)
Lemma split_join_base (a b : string) :
  Py.contains os_path.sep b = false → (os_path.split (os_path.join a b)).2 = b.
Proof.
  intros Hb. unfold os_path.join.
  assert (Py.startswith b "/" = false) as ->.
  { destruct b as [|c b]; [done|]. simpl in *. unfold os_path.sep in Hb.
    rewrite Ascii.eqb_sym. by destruct (Ascii.eqb c "/"). }
  assert (Hsl : ∀ x, (os_path.split ((x +:+ "/") +:+ b)).2 = b).
  { intros x. rewrite split_app by done. unfold os_path.split.
    pose proof (cut_last_end os_path.sep x) as Hc.
    change (String os_path.sep "") with "/" in Hc. rewrite Hc. done. }
  destruct (String.eqb_spec a "") as [->|Ha]; simpl.
  - change ("" +:+ b) with b. unfold os_path.split. by rewrite cut_last_absent.
  - destruct (Py.endswith a "/") eqn:He.
    + apply endswith_sep in He as [a' ->]. apply Hsl.
    + rewrite <- app_assoc'. apply Hsl.
Qed.

(** ** Files: what a write or a removal leaves alone *)

Lemma put_file_is_dir p data q w :
  os.is_dir (fs (os.put_file p data w).2) q = os.is_dir (fs w) q.
Proof.
  unfold os.put_file. destruct (os_path.split p) as [d b].
  destruct (os.is_dir (fs w) p); [done|].
  destruct (fs w !! d) as [es|] eqn:He; [|done]. simpl.
  by rewrite is_dir_insert_dir by eauto.
Qed.

Lemma put_file_file_at p data q w :
  os_path.split p ≠ os_path.split q →
  os.file_at (fs (os.put_file p data w).2) q = os.file_at (fs w) q.
Proof.
  intros Hne. unfold os.put_file. destruct (os_path.split p) as [d b] eqn:Hp.
  destruct (os.is_dir (fs w) p); [done|].
  destruct (fs w !! d) as [es|] eqn:He; [|done]. simpl.
  unfold os.file_at. destruct (os_path.split q) as [d' b'].
  destruct (decide (d = d')) as [<-|Hdd].
  - rewrite lookup_insert_eq, He. rewrite lookup_insert_ne; [done|]. congruence.
  - by rewrite lookup_insert_ne.
Qed.

Lemma remove_is_dir p q w :
  os.is_dir (fs (os.remove p w).2) q = os.is_dir (fs w) q.
Proof.
  unfold os.remove. destruct (os_path.split p) as [d b].
  destruct (os.is_dir (fs w) p); [done|].
  destruct (fs w !! d) as [es|] eqn:He; [|done].
  destruct (es !! b); [|done]. simpl.
  by rewrite is_dir_insert_dir by eauto.
Qed.

Lemma remove_file_at p q w :
  os_path.split p ≠ os_path.split q →
  os.file_at (fs (os.remove p w).2) q = os.file_at (fs w) q.
Proof.
  intros Hne. unfold os.remove. destruct (os_path.split p) as [d b] eqn:Hp.
  destruct (os.is_dir (fs w) p); [done|].
  destruct (fs w !! d) as [es|] eqn:He; [|done].
  destruct (es !! b); [|done]. simpl.
  unfold os.file_at. destruct (os_path.split q) as [d' b'].
  destruct (decide (d = d')) as [<-|Hdd].
  - rewrite lookup_insert_eq, He. rewrite lookup_delete_ne; [done|]. congruence.
  - by rewrite lookup_insert_ne.
Qed.

(** After a successful removal nothing is at [p]. *)
Lemma remove_Return p w w' :
  os.remove p w = (Return tt, w') → os.missing (fs w') p.
Proof.
  unfold os.remove, os.missing, os.file_at. destruct (os_path.split p) as [d b].
  destruct (os.is_dir (fs w) p) eqn:Hd; [done|].
  destruct (fs w !! d) as [es|] eqn:He; [|done].
  destruct (es !! b); [|done]. intros [= <-]. simpl. split.
  - by rewrite lookup_insert_eq, lookup_delete_eq.
  - by rewrite is_dir_insert_dir by eauto.
Qed.

(** ** [SecureAPIKeyManager]: one service and the others *)

(** What [retrieve_api_key] returns depends on the file of the service
    only. *)
Lemma retrieve_api_key_ext (L : pylibs) (self : SecureAPIKeyManager.t) (service : string)
    (w1 w2 : world) :
  let key_file :=
    os_path.join (SecureAPIKeyManager.key_storage_path self) (service +:+ "_key.enc") in
  os.file_at (fs w1) key_file = os.file_at (fs w2) key_file →
  os.is_dir (fs w1) key_file = os.is_dir (fs w2) key_file →
  (SecureAPIKeyManager.retrieve_api_key L self service w1).1
  = (SecureAPIKeyManager.retrieve_api_key L self service w2).1.
Proof.
  intros key_file Hf Hd.
  unfold SecureAPIKeyManager.retrieve_api_key, bind, os.path_exists, os.is_file.
  fold key_file. rewrite Hf, Hd.
  destruct (negb _); [done|].
  unfold os.read_file. rewrite Hf, Hd.
  destruct (os.is_dir (fs w2) key_file); [done|].
  destruct (os.file_at (fs w2) key_file) as [data|]; [|done].
  unfold try_except, or_raise.
  destruct (Fernet_decrypt L _ data) as [plain|]; [|done].
  unfold ret, raise, print. by destruct (utf8.decode plain).
Qed.

Lemma key_file_names_differ (path service other : string) :
  Py.contains os_path.sep service = false → Py.contains os_path.sep other = false →
  service ≠ other →
  os_path.split (os_path.join path (service +:+ "_key.enc"))
  ≠ os_path.split (os_path.join path (other +:+ "_key.enc")).
Proof.
  intros Hs Ho Hne E. apply (f_equal snd) in E.
  rewrite !split_join_base in E by (by rewrite contains_app, ?Hs, ?Ho).
  by apply app_inj_r in E.
Qed.

(** Property X5.  Storing or deleting the key of one service leaves what
    [retrieve_api_key] returns for every other service as it was (service
    names without a path separator). *)
Theorem other_service_unaffected (L : pylibs) (self : SecureAPIKeyManager.t)
    (rnd service api_key other : string) (w : world) :
  Py.contains os_path.sep service = false → Py.contains os_path.sep other = false →
  service ≠ other →
  (SecureAPIKeyManager.retrieve_api_key L self other
     (SecureAPIKeyManager.store_api_key L self rnd service api_key w).2).1
  = (SecureAPIKeyManager.retrieve_api_key L self other w).1
  ∧ (SecureAPIKeyManager.retrieve_api_key L self other
       (SecureAPIKeyManager.delete_api_key self service w).2).1
    = (SecureAPIKeyManager.retrieve_api_key L self other w).1.
Proof.
  intros Hs Ho Hne.
  pose proof (key_file_names_differ (SecureAPIKeyManager.key_storage_path self)
                service other Hs Ho Hne) as Hp.
  split; apply retrieve_api_key_ext.
  - unfold SecureAPIKeyManager.store_api_key. rewrite write_file_put_file.
    by apply put_file_file_at.
  - unfold SecureAPIKeyManager.store_api_key. rewrite write_file_put_file.
    apply put_file_is_dir.
  - unfold SecureAPIKeyManager.delete_api_key, bind, os.path_exists.
    destruct (_ || _); [|done]. by apply remove_file_at.
  - unfold SecureAPIKeyManager.delete_api_key, bind, os.path_exists.
    destruct (_ || _); [|done]. apply remove_is_dir.
Qed.

Lemma other_service_unaffected_witness :
  (SecureAPIKeyManager.retrieve_api_key Sample.libs Sample.akm "google"
     (SecureAPIKeyManager.store_api_key Sample.libs Sample.akm "iv" "openai" "sk-1"
        Sample.world2).2).1
  = (SecureAPIKeyManager.retrieve_api_key Sample.libs Sample.akm "google" Sample.world2).1
  ∧ (SecureAPIKeyManager.retrieve_api_key Sample.libs Sample.akm "google"
       (SecureAPIKeyManager.delete_api_key Sample.akm "openai" Sample.world2).2).1
    = (SecureAPIKeyManager.retrieve_api_key Sample.libs Sample.akm "google" Sample.world2).1.
Proof. apply other_service_unaffected; [reflexivity|reflexivity|discriminate]. Defined.

(** Property X6.  After [delete_api_key] has returned, the key of the
    service is gone: [retrieve_api_key] returns [None], and deleting again
    does nothing. *)
Theorem delete_api_key_then_retrieve (L : pylibs) (self : SecureAPIKeyManager.t)
    (service : string) (w w' : world) :
  SecureAPIKeyManager.delete_api_key self service w = (Return tt, w') →
  SecureAPIKeyManager.retrieve_api_key L self service w' = (Return None, w')
  ∧ SecureAPIKeyManager.delete_api_key self service w' = (Return tt, w').
Proof.
  intros H.
  assert (Hm : os.missing (fs w')
            (os_path.join (SecureAPIKeyManager.key_storage_path self) (service +:+ "_key.enc"))).
  { unfold SecureAPIKeyManager.delete_api_key, bind, os.path_exists in H.
    destruct (os.is_file _ _ || os.is_dir _ _) eqn:E.
    - by apply remove_Return in H.
    - injection H as <-. apply orb_false_iff in E as [Hf Hd]. split; [|done].
      unfold os.is_file in Hf. rewrite bool_decide_eq_false in Hf.
      destruct (os.file_at _ _); [|done]. destruct Hf. eauto. }
  split.
  - unfold SecureAPIKeyManager.retrieve_api_key, bind.
    by rewrite (path_exists_missing _ _ Hm).
  - unfold SecureAPIKeyManager.delete_api_key, bind.
    by rewrite (path_exists_missing _ _ Hm).
Qed.

Lemma delete_api_key_then_retrieve_witness :
  let w' := (SecureAPIKeyManager.delete_api_key Sample.akm "openai" Sample.world2).2 in
  SecureAPIKeyManager.retrieve_api_key Sample.libs Sample.akm "openai" w' = (Return None, w')
  ∧ SecureAPIKeyManager.delete_api_key Sample.akm "openai" w' = (Return tt, w').
Proof.
  intros w'.
  apply (delete_api_key_then_retrieve Sample.libs Sample.akm "openai" Sample.world2 w').
  vm_compute; reflexivity.
Defined.

Lemma string_app_length (a b : string) : String.length (a +:+ b) = String.length a + String.length b.
Proof.
  induction a as [|x a IH]; [done|].
  change (String x a +:+ b) with (String x (a +:+ b)). simpl. by rewrite IH.
Qed.



(** *** The directories above a path *)






(** The directory of a path is a part of it, at its start. *)
Lemma cut_last_parts c s h t : Py.cut_last c s = Some (h, t) → s = h +:+ t.
Proof.
  revert h t. induction s as [|a s IH]; intros h t; simpl; [done|].
  destruct (Py.cut_last c s) as [[h' t']|].
  - intros [= <- <-]. by rewrite (IH h' t').
  - destruct (Ascii.eqb a c); [|done]. by intros [= <- <-].
Qed.

Lemma rstrip_start c s : ∃ r, s = Py.rstrip c s +:+ r.
Proof.
  unfold Py.rstrip.
  match goal with |- context [String.rev (?g (String.rev s))] => set (go := g) end.
  assert (H : ∀ r, ∃ k, r = k +:+ go r).
  { intros r. induction r as [|a r [k IH]]; [by exists ""|]. simpl.
    destruct (Ascii.eqb a c).
    - exists (String a k). by rewrite IH at 1.
    - by exists "". }
  destruct (H (String.rev s)) as [k Hk]. exists (String.rev k).
  apply (f_equal String.rev) in Hk.
  by rewrite string_rev_involutive, string_rev_app in Hk.
Qed.

Lemma split_head_start p : ∃ r, p = (os_path.split p).1 +:+ r.
Proof.
  unfold os_path.split. destruct (Py.cut_last _ p) as [[h t]|] eqn:E; simpl; [|by exists p].
  apply cut_last_parts in E as ->. destruct (Py.all_char _ h); [by exists t|].
  destruct (rstrip_start os_path.sep h) as [r Hr]. exists (r +:+ t).
  rewrite <- app_assoc'. by rewrite <- Hr.
Qed.

Lemma split_head_shorter p :
  (os_path.split p).1 ≠ p → String.length (os_path.split p).1 < String.length p.
Proof.
  intros Hne. destruct (split_head_start p) as [r Hr].
  destruct r as [|a r]; [by rewrite app_empty_r in Hr|].
  rewrite Hr at 2. rewrite string_app_length. simpl. lia.
Qed.

(** The length of the path is enough fuel: the list of the directories
    above [p] ends at the root or at the start of a relative path. *)
Lemma parents_closed fuel p d :
  String.length p ≤ fuel → d ∈ p :: os.parents fuel p →
  (os_path.split d).1 = "" ∨ (os_path.split d).1 = d
  ∨ (os_path.split d).1 ∈ os.parents fuel p.
Proof.
  revert p. induction fuel as [|fuel IH]; intros p Hl Hin.
  - destruct p; [|simpl in Hl; lia]. apply elem_of_cons in Hin as [->|Hin]; [by left|].
    by apply elem_of_nil in Hin.
  - simpl in *.
    destruct (String.eqb_spec (os_path.split p).1 "") as [E|Hne]; simpl in *.
    { apply elem_of_cons in Hin as [->|Hin]; [by left|]. by apply elem_of_nil in Hin. }
    destruct (String.eqb_spec (os_path.split p).1 p) as [E|Hnp].
    { apply elem_of_cons in Hin as [->|Hin]; [by right; left|]. by apply elem_of_nil in Hin. }
    apply elem_of_cons in Hin as [->|Hin].
    + right. right. apply list_elem_of_here.
    + pose proof (split_head_shorter p Hnp) as Hs.
      destruct (IH (os_path.split p).1 ltac:(lia) Hin) as [?|[?|?]]; [by left|by right; left|].
      right. right. apply elem_of_cons. by right.
Qed.

Lemma ancestors_closed p d :
  d ∈ p :: os.ancestors p →
  (os_path.split d).1 = "" ∨ (os_path.split d).1 = d ∨ (os_path.split d).1 ∈ os.ancestors p.
Proof. by apply parents_closed. Qed.




(** ** [SecureAPIKeyManager.__init__]: the first run *)



(** Under a regular file no directory can be made: both initializations
    raise [NotADirectoryError] and change nothing. *)
Lemma init_under_a_file :
  let w := with_fs Sample.world0 {[ "/home/u" := {[ "file" := "data" ]} ]} in
  SecureAPIKeyManager.__init__ Sample.libs "c2FtcGxl" "/home/u/file/sub" w
    = (Raise NotADirectoryError, w)
  ∧ ConfigManager.__init__ Sample.libs "c2FtcGxl" (Some "/home/u/file/sub") w
    = (Raise NotADirectoryError, w).
Proof. split; vm_compute; reflexivity. Qed.

(** ** [ConfigManager.__init__]: the first run and the ones after it *)



(** ** Listing after a store *)

(** The names that [os.listdir] gives after a successful write to a plain
    name of the directory include that name. *)
Lemma listdir_after_put_file dir name data w w' :
  dir ≠ "" →
  os_path.split (os_path.join dir name) = (dir, name) →
  os.put_file (os_path.join dir name) data w = (Return tt, w') →
  ∃ names, os.listdir dir w' = (Return names, w') ∧ name ∈ names.
Proof.
  intros Hne Hsp H. apply put_file_Return in H as (es & He & _ & ->).
  rewrite Hsp in *. simpl in *. unfold os.listdir. simpl.
  rewrite lookup_insert_eq. apply String.eqb_neq in Hne as ->.
  eexists. split; [done|]. apply elem_of_app. left.
  apply list_elem_of_fmap. exists (name, data). split; [done|].
  apply elem_of_map_to_list. by rewrite lookup_insert_eq.
Qed.

(** [replace] of an [old] that starts with [c] leaves a text without [c]
    in front of it alone. *)
Lemma replace_scan_prefix c old new (s t : string) :
  Py.contains c s = false →
  Py.replace_scan (String c old) new 0 (s +:+ t)
  = s +:+ Py.replace_scan (String c old) new 0 t.
Proof.
  intros Hs. induction s as [|a s IH]; [done|].
  change (String a s +:+ t) with (String a (s +:+ t)).
  simpl in Hs. destruct (Ascii.eqb a c) eqn:E; [done|].
  cbn [Py.replace_scan]. cbn [Py.startswith]. rewrite Ascii.eqb_sym, E.
  rewrite IH by done. done.
Qed.

Lemma replace_key_enc (service : string) :
  Py.contains "_" service = false →
  Py.replace (service +:+ "_key.enc") "_key.enc" "" = service.
Proof.
  intros Hs. unfold Py.replace. rewrite replace_scan_prefix by done.
  vm_compute Py.replace_scan. apply app_empty_r.
Qed.

(** Property X7.  After [store_api_key] has returned, [list_stored_services]
    lists the service (a name without a path separator and without an
    underscore, under a storage path that does not end with a separator). *)
Theorem store_api_key_then_listed (L : pylibs) (self : SecureAPIKeyManager.t)
    (rnd service api_key : string) (w w' : world) :
  SecureAPIKeyManager.key_storage_path self ≠ "" →
  Py.endswith (SecureAPIKeyManager.key_storage_path self) "/" = false →
  Py.contains os_path.sep service = false → Py.contains "_" service = false →
  SecureAPIKeyManager.store_api_key L self rnd service api_key w = (Return tt, w') →
  ∃ services, SecureAPIKeyManager.list_stored_services self w' = (Return services, w')
              ∧ service ∈ services.
Proof.
  intros Hp He Hs Hu H. unfold SecureAPIKeyManager.store_api_key in H.
  rewrite write_file_put_file in H.
  apply listdir_after_put_file in H as (names & Hl & Hin); [|done|].
  2:{ apply split_join; [done|done|]. by rewrite contains_app, Hs. }
  unfold SecureAPIKeyManager.list_stored_services, bind. rewrite Hl.
  eexists. split; [done|]. apply list_elem_of_fmap.
  exists (service +:+ "_key.enc"). split; [by rewrite replace_key_enc|].
  apply list_elem_of_filter. split; [apply endswith_app | done].
Qed.

Lemma store_api_key_then_listed_witness :
  ∃ services,
    SecureAPIKeyManager.list_stored_services Sample.akm
      (SecureAPIKeyManager.store_api_key Sample.libs Sample.akm "iv" "openai" "sk-1"
         Sample.world1).2
    = (Return services,
       (SecureAPIKeyManager.store_api_key Sample.libs Sample.akm "iv" "openai" "sk-1"
          Sample.world1).2)
    ∧ "openai" ∈ services.
Proof.
  apply (store_api_key_then_listed Sample.libs Sample.akm "iv" "openai" "sk-1" Sample.world1).
  - discriminate.
  - reflexivity.
  - reflexivity.
  - reflexivity.
  - vm_compute; reflexivity.
Defined.

(** Property X8.  [list_stored_services] removes every occurrence of
    [_key.enc] from a file name, not only the suffix: the key stored for the
    service [a_key.encb] is listed as [ab] ([a] and [b] without a path
    separator and without an underscore, under a storage path that is not
    empty and does not end with a separator). *)
Theorem store_api_key_inner_suffix_listed (L : pylibs) (self : SecureAPIKeyManager.t)
    (rnd a b api_key : string) (w w' : world) :
  SecureAPIKeyManager.key_storage_path self ≠ "" →
  Py.endswith (SecureAPIKeyManager.key_storage_path self) "/" = false →
  Py.contains os_path.sep a = false → Py.contains "_" a = false →
  Py.contains os_path.sep b = false → Py.contains "_" b = false →
  SecureAPIKeyManager.store_api_key L self rnd (a +:+ "_key.enc" +:+ b) api_key w
    = (Return tt, w') →
  ∃ services, SecureAPIKeyManager.list_stored_services self w' = (Return services, w')
              ∧ a +:+ b ∈ services.
Proof.
  intros Hp He Ha Hau Hb Hbu H. unfold SecureAPIKeyManager.store_api_key in H.
  rewrite write_file_put_file in H.
  apply listdir_after_put_file in H as (names & Hl & Hin); [|done|].
  2:{ apply split_join; [done|done|]. by rewrite !contains_app, Ha, Hb. }
  unfold SecureAPIKeyManager.list_stored_services, bind. rewrite Hl.
  eexists. split; [done|]. apply list_elem_of_fmap.
  exists ((a +:+ "_key.enc" +:+ b) +:+ "_key.enc"). split.
  - unfold Py.replace. rewrite !app_assoc'. rewrite replace_scan_prefix by done.
    change ("_key.enc" +:+ b +:+ "_key.enc")
      with (String "_" (String "k" (String "e" (String "y" (String "."
             (String "e" (String "n" (String "c" (b +:+ "_key.enc"))))))))).
    cbn [Py.replace_scan Py.startswith String.length Nat.sub]. rewrite !Ascii.eqb_refl.
    assert (Py.startswith (b +:+ "_key.enc") "" = true) as -> by by destruct (b +:+ "_key.enc").
    change ("" +:+ ?x) with x.
    rewrite replace_scan_prefix by done. vm_compute Py.replace_scan.
    by rewrite app_empty_r.
  - apply list_elem_of_filter. split; [apply endswith_app | done].
Qed.

Lemma store_api_key_inner_suffix_listed_witness :
  ∃ services,
    SecureAPIKeyManager.list_stored_services Sample.akm
      (SecureAPIKeyManager.store_api_key Sample.libs Sample.akm "iv" "a_key.encb" "sk-1"
         Sample.world1).2
    = (Return services,
       (SecureAPIKeyManager.store_api_key Sample.libs Sample.akm "iv" "a_key.encb" "sk-1"
          Sample.world1).2)
    ∧ "ab" ∈ services.
Proof.
  apply (store_api_key_inner_suffix_listed Sample.libs Sample.akm "iv" "a" "b" "sk-1"
           Sample.world1).
  - discriminate.
  - reflexivity.
  - reflexivity.
  - reflexivity.
  - reflexivity.
  - reflexivity.
  - vm_compute; reflexivity.
Defined.

(** ** [validate_api_key] *)

(** Property X10.  [validate_api_key] never raises. It returns [True] with
    nothing printed when the SDK of the service, if it has one, raised
    nothing, and [False] with one line printed when the SDK raised; the
    files are left alone, and at most one call to a remote service is made,
    with the service and the key given. *)
Theorem validate_api_key_never_raises (L : pylibs) (self : SecureAPIKeyManager.t)
    (service api_key : string) (w : world) :
  ∃ (b : bool) (w' : world),
    SecureAPIKeyManager.validate_api_key L self service api_key w = (Return b, w')
    ∧ fs w' = fs w
    ∧ (remote_calls w' = remote_calls w
       ∨ remote_calls w' = (remote_calls w ++ [(service, api_key)])%list)
    ∧ (if b then stdout w' = stdout w
       else ∃ code, sdk_list_models L service api_key = Some code
                    ∧ stdout w' = (stdout w ++ [Validation_failed service (SDKError code)])%list).
Proof.
  unfold SecureAPIKeyManager.validate_api_key, try_except, bind.
  assert (Hcall : ∀ provider, provider = service →
    ∃ (b : bool) (w' : world),
      (let (o, w') := (let (o, w') := SecureAPIKeyManager.sdk_call L provider api_key w in
                       match o with
                       | Return _ => ret true w'
                       | Raise e => (Raise e, w')
                       end) in
       match o with
       | Return a => (Return a, w')
       | Raise e =>
           let (o0, w'0) := print (Validation_failed service e) w' in
           match o0 with
           | Return _ => ret false w'0
           | Raise e0 => (Raise e0, w'0)
           end
       end) = (Return b, w')
      ∧ fs w' = fs w
      ∧ (remote_calls w' = remote_calls w
         ∨ remote_calls w' = (remote_calls w ++ [(service, api_key)])%list)
      ∧ (if b then stdout w' = stdout w
         else ∃ code, sdk_list_models L service api_key = Some code
                      ∧ stdout w' = (stdout w ++ [Validation_failed service (SDKError code)])%list)).
  { intros provider ->. unfold SecureAPIKeyManager.sdk_call.
    destruct (sdk_list_models L service api_key) as [code|] eqn:E.
    - exists false. eexists. split; [done|]. simpl.
      split; [done|]. split; [by right|]. by exists code.
    - exists true. eexists. split; [done|]. simpl.
      split; [done|]. split; [by right|done]. }
  destruct (String.eqb_spec service "openai") as [->|_]; [by apply Hcall|].
  destruct (String.eqb_spec service "google") as [->|_]; [by apply Hcall|].
  destruct (String.eqb_spec service "anthropic") as [->|_]; [by apply Hcall|].
  exists true, w. simpl. split; [done|]. split; [done|]. split; [by left|done].
Qed.

(** ** [list_configs] after [save_config] *)

(** Reading a file changes nothing. *)
Lemma read_file_world p w : (os.read_file p w).2 = w.
Proof.
  unfold os.read_file. destruct (os.is_dir _ _); [done|]. by destruct (os.file_at _ _).
Qed.

Lemma chop_end (s : string) (c : ascii) : Py.chop (s +:+ String c "") = s.
Proof.
  unfold Py.chop. rewrite string_rev_app. change (String.rev (String c "")) with (String c "").
  change (String c "" +:+ String.rev s) with (String c (String.rev s)).
  simpl. apply string_rev_involutive.
Qed.

(** [os.path.splitext] of a plain file name [name.format]. *)
Lemma splitext_name_format (name format : string) :
  Py.contains os_path.sep name = false → Py.all_char os_path.extsep name = false →
  Py.contains os_path.sep format = false → Py.contains os_path.extsep format = false →
  os_path.splitext (name +:+ "." +:+ format) = (name, "." +:+ format).
Proof.
  intros Hn Hd Hf He. unfold os_path.splitext.
  rewrite cut_last_absent by (by rewrite !contains_app, Hn, Hf).
  rewrite <- app_assoc'. rewrite cut_last_app by done.
  pose proof (cut_last_end os_path.extsep name) as Hc.
  change (String os_path.extsep "") with "." in Hc. rewrite Hc.
  pose proof (chop_end name os_path.extsep) as Hch.
  change (String os_path.extsep "") with "." in Hch. rewrite Hch, Hd. done.
Qed.

(** Whatever the flags, [save_config] is one write to the file of the
    configuration. *)
Lemma save_config_put_file (L : pylibs) (self : ConfigManager.t)
    (rnd config_name format : string) (config_data : json) (encrypt : bool) (w : world) :
  ∃ content,
    ConfigManager.save_config L self rnd config_name config_data format encrypt w
    = os.put_file (ConfigManager.config_path self config_name format) content w.
Proof.
  unfold ConfigManager.save_config. destruct encrypt.
  - eexists. apply write_file_put_file.
  - destruct (String.eqb format "json"); [eexists; apply open_write_close|].
    destruct (String.eqb format "yaml"); [eexists; apply open_write_close|].
    exists "". rewrite <- write_file_put_file.
    unfold os.write_file, os.open_write, bind, ret.
    destruct (os.put_file _ "" w) as [[[]|e] w1]; [|done].
    unfold os.write. simpl. reflexivity.
Qed.

(** Property X17.  After [save_config] has returned, [list_configs] holds
    the pair of the name and the extension of the configuration, for a name
    and a format without a path separator, the format without a dot and the
    name not made of dots only, when the file is not [encryption.key], under
    a configuration directory that is not empty and does not end with a
    separator. *)
Theorem save_config_then_listed (L : pylibs) (self : ConfigManager.t)
    (rnd config_name format : string) (config_data : json) (encrypt : bool)
    (w w' : world) :
  ConfigManager.config_dir self ≠ "" →
  Py.endswith (ConfigManager.config_dir self) "/" = false →
  Py.contains os_path.sep config_name = false →
  Py.all_char os_path.extsep config_name = false →
  Py.contains os_path.sep format = false → Py.contains os_path.extsep format = false →
  config_name +:+ "." +:+ format ≠ "encryption.key" →
  ConfigManager.save_config L self rnd config_name config_data format encrypt w
    = (Return tt, w') →
  ∃ configs, ConfigManager.list_configs self w' = (Return configs, w')
             ∧ (config_name, "." +:+ format) ∈ configs.
Proof.
  intros Hp He Hn Hd Hf Hx Hk H.
  assert (Hsp : os_path.split (ConfigManager.config_path self config_name format)
                = (ConfigManager.config_dir self, config_name +:+ "." +:+ format)).
  { apply split_join; [done|done|]. by rewrite !contains_app, Hn, Hf. }
  destruct (save_config_put_file L self rnd config_name format config_data encrypt w)
    as [content E].
  rewrite E in H. apply listdir_after_put_file in H as (names & Hl & Hin); [|done|done].
  unfold ConfigManager.list_configs, bind. rewrite Hl. eexists. split; [done|].
  apply list_elem_of_fmap. exists (config_name +:+ "." +:+ format).
  split; [by rewrite splitext_name_format|]. by apply list_elem_of_filter.
Qed.

Lemma save_config_then_listed_witness :
  ∃ configs,
    ConfigManager.list_configs Sample.cm
      (ConfigManager.save_config Sample.libs Sample.cm "iv" "app" (JDict [("a", JNum 1)])
         "yaml" false Sample.world1).2
    = (Return configs,
       (ConfigManager.save_config Sample.libs Sample.cm "iv" "app" (JDict [("a", JNum 1)])
          "yaml" false Sample.world1).2)
    ∧ ("app", ".yaml") ∈ configs.
Proof.
  apply (save_config_then_listed Sample.libs Sample.cm "iv" "app" "yaml"
           (JDict [("a", JNum 1)]) false Sample.world1).
  - discriminate.
  - reflexivity.
  - reflexivity.
  - reflexivity.
  - reflexivity.
  - reflexivity.
  - discriminate.
  - vm_compute; reflexivity.
Defined.

(** ** [merge_configs]: what it leaves alone, and laws of the merge *)

Section merge_laws.
Import PyObj ConfigManager.

(** Loading a configuration changes nothing. *)
Lemma load_config_world (L : pylibs) self config_name format decrypt w :
  (load_config L self config_name format decrypt w).2 = w.
Proof.
  unfold load_config, bind, os.path_exists. destruct (negb _); [done|].
  pose proof (read_file_world (config_path self config_name format) w) as Hr.
  destruct (os.read_file _ w) as [[content|e] w1]; simpl in Hr; subst w1; [|done].
  unfold loads, safe_load, read_text, utf8.decode, or_raise.
  destruct decrypt.
  - destruct (Fernet_decrypt L _ content) as [d|]; [|done].
    unfold ret at 1. by destruct (json_loads L d).
  - destruct (String.eqb format "json").
    { destruct (utf8.valid content); [|done]. unfold ret at 1.
      by destruct (json_loads L content). }
    destruct (String.eqb format "yaml"); [|done].
    destruct (utf8.valid content); [|done]. unfold ret at 1.
    by destruct (yaml_safe_load L content).
Qed.

Lemma merge_loaded_world base_value overlay_value w :
  (merge_loaded base_value overlay_value w).2 = w.
Proof.
  unfold merge_loaded.
  destruct base_value as [| | | | l | b]; try done.
  - destruct overlay_value as [| | | | | [|kv o]]; done.
  - destruct overlay_value as [| | | | | o]; try done.
    destruct (merge_dicts b o) as [st|]; [|done].
    unfold or_raise. by destruct (read _ _ _).
Qed.

(** Property X20.  [merge_configs] writes nothing: whether it returns the
    merged configuration or raises, the files, the output and the remote
    calls are what they were; the merged configuration is not stored, and
    the stored base configuration is not touched. *)
Theorem merge_configs_changes_nothing (L : pylibs) (self : ConfigManager.t)
    (base_config overlay_config : string) (w : world) :
  (merge_configs L self base_config overlay_config w).2 = w.
Proof.
  unfold merge_configs. unfold bind at 1.
  pose proof (load_config_world L self base_config "json" true w) as Hb.
  destruct (load_config L self base_config "json" true w) as [[b|e] w1];
    simpl in Hb; subst w1; [|done].
  unfold bind.
  pose proof (load_config_world L self overlay_config "json" true w) as Ho.
  destruct (load_config L self overlay_config "json" true w) as [[o|e] w1];
    simpl in Ho; subst w1; [|done].
  apply merge_loaded_world.
Qed.

(** *** The order of the keys *)

Lemma dict_set_keys {V} k (v : V) d :
  map fst (dict_set k v d) = if decide (k ∈ map fst d) then map fst d else (map fst d ++ [k])%list.
Proof.
  induction d as [|[k0 v0] d IH]; [done|]. simpl.
  destruct (String.eqb_spec k0 k) as [->|Hne]; simpl.
  - rewrite decide_True; [done|]. apply list_elem_of_here.
  - rewrite IH. destruct (decide (k ∈ map fst d)) as [Hin|Hn].
    + rewrite decide_True; [done|]. by apply list_elem_of_further.
    + rewrite decide_False; [done|]. intros Hin. apply elem_of_cons in Hin as [->|Hin]; done.
Qed.

Lemma filter_ext_in {A} (P1 P2 : A → Prop) `{!∀ x, Decision (P1 x)} `{!∀ x, Decision (P2 x)}
    (l : list A) :
  (∀ x, x ∈ l → P1 x ↔ P2 x) → filter P1 l = filter P2 l.
Proof.
  induction l as [|x l IH]; intros Hl; [done|]. rewrite !filter_cons.
  rewrite IH by (intros y Hy; apply Hl; by apply list_elem_of_further).
  destruct (decide (P1 x)) as [H1|H1], (decide (P2 x)) as [H2|H2]; try done.
  - destruct H2. apply Hl; [apply list_elem_of_here|done].
  - destruct H1. apply Hl; [apply list_elem_of_here|done].
Qed.

Lemma merge_over_keys merge b o : ∀ acc,
  NoDup (map fst o) →
  map fst (merge_over merge b o acc)
  = (map fst acc ++ filter (λ k, k ∉ map fst acc) (map fst o))%list.
Proof.
  induction o as [|[k v] o IH]; intros acc Hnd.
  - simpl. by rewrite app_nil_r.
  - apply NoDup_cons in Hnd as [Hk Hnd]. rewrite merge_over_cons, IH by done.
    rewrite dict_set_keys. simpl map. rewrite filter_cons.
    destruct (decide (k ∈ map fst acc)) as [Hin|Hn].
    + rewrite decide_False by (by intros H; apply H). done.
    + rewrite decide_True by done. rewrite <- app_assoc. simpl. do 2 f_equal.
      apply filter_ext_in. intros x Hx. split.
      * intros H1 H2. apply H1. apply elem_of_app. by left.
      * intros H1 H2. apply elem_of_app in H2 as [H2|H2]; [done|].
        apply list_elem_of_singleton in H2 as ->. done.
Qed.

(** Property X23.  The merged configuration has the keys of the base in
    their order, followed by the keys that only the overlay has, in the
    order of the overlay. *)
Theorem merged_keys_order (base_value overlay_value : list (string * json)) (w : world) :
  unique_keys (JDict overlay_value) →
  ∃ merged,
    merge_loaded (JDict base_value) (JDict overlay_value) w = (Return (JDict merged), w)
    ∧ map fst merged
      = (map fst base_value
         ++ filter (λ k, k ∉ map fst base_value) (map fst overlay_value))%list.
Proof.
  intros Hu. exists (merge_over spec_merge base_value overlay_value base_value).
  split; [by apply merge_loaded_spec|]. apply merge_over_keys. by destruct Hu.
Qed.

Lemma merged_keys_order_witness :
  ∃ merged,
    merge_loaded (JDict [("b", JNum 1); ("a", JNum 2)])
      (JDict [("z", JNum 3); ("a", JNum 4); ("c", JNum 5)]) Sample.world0
    = (Return (JDict merged), Sample.world0)
    ∧ map fst merged = ["b"; "a"; "z"; "c"].
Proof.
  apply (merged_keys_order [("b", JNum 1); ("a", JNum 2)]
           [("z", JNum 3); ("a", JNum 4); ("c", JNum 5)] Sample.world0).
  split; [|simpl; done]. simpl.
  repeat (apply NoDup_cons; split;
          [rewrite ?not_elem_of_cons; repeat split; (discriminate || apply not_elem_of_nil)|]).
  apply NoDup_nil_2.
Defined.

(** *** Merging the same overlay again *)

Lemma merge_over_fixed merge b o : ∀ acc,
  Forall (λ kv, dict_get (fst kv) acc
                = Some (match dict_get (fst kv) b with
                        | Some bv => merge bv (snd kv)
                        | None => snd kv
                        end)) o →
  merge_over merge b o acc = acc.
Proof.
  induction o as [|[k v] o IH]; intros acc Ho; [done|].
  apply Forall_cons in Ho as [Hk Ho]. simpl in Hk.
  rewrite merge_over_cons, dict_set_same by done. by apply IH.
Qed.

Lemma dict_get_elem {V} k (v : V) d :
  NoDup (map fst d) → (k, v) ∈ d → dict_get k d = Some v.
Proof.
  induction d as [|[k0 v0] d IH]; intros Hnd Hin; [by apply elem_of_nil in Hin|].
  apply NoDup_cons in Hnd as [Hk Hnd]. simpl.
  apply elem_of_cons in Hin as [[= -> ->]|Hin]; [by rewrite String.eqb_refl|].
  destruct (String.eqb_spec k0 k) as [->|Hne]; [|by apply IH].
  destruct Hk. apply list_elem_of_fmap. by exists (k, v).
Qed.

Lemma unique_keys_elem k v its :
  unique_keys (JDict its) → (k, v) ∈ its → unique_keys v.
Proof.
  intros [Hnd Hu] Hin. eapply unique_keys_dict_get; [by split|]. by apply dict_get_elem.
Qed.

Lemma spec_merge_again overlay_value :
  unique_keys overlay_value →
  spec_merge overlay_value overlay_value = overlay_value
  ∧ ∀ base_value, spec_merge (spec_merge base_value overlay_value) overlay_value
                  = spec_merge base_value overlay_value.
Proof.
  induction overlay_value as [| | | | l _ | oi IH] using json_ind'; intros Hu;
    try (split; [done|]; intros []; done).
  assert (Hself : merge_over spec_merge oi oi oi = oi).
  { apply merge_over_fixed. apply Forall_forall. intros [k v] Hin. simpl.
    rewrite (dict_get_elem k v oi) by (by destruct Hu || done).
    rewrite Forall_forall in IH. destruct (IH _ Hin) as [Hvv _].
    { by eapply unique_keys_elem. }
    simpl in Hvv. by rewrite Hvv. }
  split; [simpl; by rewrite Hself|].
  intros [| | | | |bi]; try (simpl; by rewrite Hself).
  change (spec_merge (JDict bi) (JDict oi)) with (JDict (merge_over spec_merge bi oi bi)).
  set (r := merge_over spec_merge bi oi bi).
  change (spec_merge (JDict r) (JDict oi)) with (JDict (merge_over spec_merge r oi r)).
  f_equal. apply merge_over_fixed. apply Forall_forall. intros [k v] Hin. simpl.
  assert (Hnd : NoDup (map fst oi)) by by destruct Hu.
  unfold r. rewrite (merge_over_lookup spec_merge bi oi bi k Hnd).
  rewrite (dict_get_elem k v oi) by done. f_equal.
  rewrite Forall_forall in IH. destruct (IH _ Hin) as [Hvv Hbv].
  { by eapply unique_keys_elem. }
  simpl in Hvv, Hbv. by destruct (dict_get k bi) as [bv|].
Qed.

(** Property X24.  Merging the same overlay into the merged configuration
    again gives the merged configuration. *)
Theorem merge_overlay_again (base_value overlay_value : list (string * json)) (w : world) :
  unique_keys (JDict overlay_value) →
  ∃ merged,
    merge_loaded (JDict base_value) (JDict overlay_value) w = (Return merged, w)
    ∧ merge_loaded merged (JDict overlay_value) w = (Return merged, w).
Proof.
  intros Hu. exists (spec_merge (JDict base_value) (JDict overlay_value)).
  split; [by apply merge_loaded_spec|].
  change (spec_merge (JDict base_value) (JDict overlay_value))
    with (JDict (merge_over spec_merge base_value overlay_value base_value)) at 1.
  rewrite merge_loaded_spec by done. f_equal. f_equal.
  destruct (spec_merge_again (JDict overlay_value) Hu) as [_ H]. apply (H (JDict base_value)).
Qed.

Lemma merge_overlay_again_witness :
  ∃ merged,
    ConfigManager.merge_loaded (JDict [("a", JNum 1); ("b", JDict [("x", JNum 1)])])
      (JDict [("b", JDict [("y", JNum 2)]); ("c", JNum 3)]) Sample.world0
    = (Return merged, Sample.world0)
    ∧ ConfigManager.merge_loaded merged
        (JDict [("b", JDict [("y", JNum 2)]); ("c", JNum 3)]) Sample.world0
      = (Return merged, Sample.world0).
Proof.
  apply (merge_overlay_again [("a", JNum 1); ("b", JDict [("x", JNum 1)])]
           [("b", JDict [("y", JNum 2)]); ("c", JNum 3)] Sample.world0).
  simpl. split; [|split; [split; [apply NoDup_singleton|done]|done]].
  repeat (apply NoDup_cons; split;
          [rewrite ?not_elem_of_cons; repeat split; (discriminate || apply not_elem_of_nil)|]).
  apply NoDup_nil_2.
Defined.

End merge_laws.

(** ** Patterns with a plain name in front *)

Lemma has_magic_cons c s :
  fnmatch.has_magic (String c s) = false →
  Ascii.eqb c "*" = false ∧ Ascii.eqb c "?" = false ∧ Ascii.eqb c "[" = false
  ∧ fnmatch.has_magic s = false.
Proof.
  unfold fnmatch.has_magic. simpl.
  destruct (Ascii.eqb c "*"); [done|]. destruct (Ascii.eqb c "?"); [by rewrite orb_true_r|].
  destruct (Ascii.eqb c "["); [by rewrite !orb_true_r|]. done.
Qed.

(** A name without pattern characters in front of a pattern matches
    itself, and the rest of the pattern what follows. *)
Lemma match_plain_prefix name rest : ∀ s,
  fnmatch.has_magic name = false →
  fnmatch.match_toks (fnmatch.translate_from 0 (name +:+ rest)) s = true
  ↔ ∃ r, s = name +:+ r ∧ fnmatch.match_toks (fnmatch.translate_from 0 rest) r = true.
Proof.
  induction name as [|c name IH]; intros s Hm.
  - split; [intros H; by exists s|]. by intros (r & -> & H).
  - apply has_magic_cons in Hm as (H1 & H2 & H3 & Hm).
    change (String c name +:+ rest) with (String c (name +:+ rest)).
    cbn [fnmatch.translate_from]. rewrite H1, H2, H3. cbn [fnmatch.match_toks].
    destruct s as [|c' s]; [split; [done|by intros (r & ? & _)]|].
    destruct (Ascii.eqb_spec c c') as [<-|Hne]; simpl.
    + rewrite IH by done. split.
      * intros (r & -> & H). by exists r.
      * intros (r & E & H). exists r. split; [|done]. by injection E.
    + split; [done|]. intros (r & E & _). by injection E.
Qed.

Lemma match_star_end s : fnmatch.match_toks [fnmatch.Star] s = true.
Proof. induction s as [|c s IH]; [done|]. simpl in *. exact IH. Qed.

(** [fnmatch] with the pattern [name.*], for a name without pattern
    characters: the names that start with [name.]. *)
Lemma fnmatch_name_dot_star name n :
  fnmatch.has_magic name = false →
  fnmatch.fnmatch n (name +:+ ".*") = true ↔ ∃ x, n = name +:+ "." +:+ x.
Proof.
  intros Hm. unfold fnmatch.fnmatch, fnmatch.translate. rewrite match_plain_prefix by done.
  change (fnmatch.translate_from 0 ".*") with [fnmatch.Lit "."; fnmatch.Star].
  split.
  - intros (r & -> & H). destruct r as [|c r]; [done|]. cbn [fnmatch.match_toks] in H.
    destruct (Ascii.eqb_spec "." c) as [<-|]; [|done]. by exists r.
  - intros (x & ->). exists ("." +:+ x). split; [done|].
    change ("." +:+ x) with (String "." x). cbn [fnmatch.match_toks].
    rewrite Ascii.eqb_refl. apply match_star_end.
Qed.

(** ** [glob.glob] of [name.*] in a plain directory *)

Lemma has_magic_app a b :
  fnmatch.has_magic (a +:+ b) = fnmatch.has_magic a || fnmatch.has_magic b.
Proof.
  unfold fnmatch.has_magic. rewrite !contains_app.
  destruct (Py.contains "*" a), (Py.contains "?" a), (Py.contains "[" a),
    (Py.contains "*" b), (Py.contains "?" b); done.
Qed.

Lemma glob_name_dot_star dir name w :
  dir ≠ "" → Py.endswith dir "/" = false → fnmatch.has_magic dir = false →
  Py.contains os_path.sep name = false →
  glob.glob (os_path.join dir (name +:+ ".*")) w
  = (Return (map (os_path.join dir)
               (glob.select (name +:+ ".*")
                  (glob.entries (fs w) dir ++ os.subdirs (fs w) dir))), w).
Proof.
  intros Hd He Hm Hn.
  assert (Hc : Py.contains os_path.sep (name +:+ ".*") = false) by by rewrite contains_app, Hn.
  unfold glob.glob. f_equal. f_equal. cbn [glob.iglob].
  rewrite split_join by done.
  assert (fnmatch.has_magic (os_path.join dir (name +:+ ".*")) = true) as ->.
  { rewrite join_plain_dir by done. rewrite !has_magic_app.
    change (fnmatch.has_magic ".*") with true. by rewrite !orb_true_r. }
  simpl negb. cbv iota.
  apply String.eqb_neq in Hd. rewrite Hd. rewrite Hm, andb_false_r.
  assert (fnmatch.has_magic (name +:+ ".*") = true) as ->.
  { rewrite has_magic_app. change (fnmatch.has_magic ".*") with true. by rewrite orb_true_r. }
  simpl. by rewrite app_nil_r.
Qed.

(** ** A loop of removals *)

Lemma for_each_remove_is_dir l q : ∀ w,
  os.is_dir (fs (for_each l os.remove w).2) q = os.is_dir (fs w) q.
Proof.
  induction l as [|p l IH]; intros w; [done|]. simpl. unfold bind.
  pose proof (remove_is_dir p q w) as Hp.
  destruct (os.remove p w) as [[[]|e] w1]; simpl in Hp; [|done]. by rewrite IH.
Qed.

Lemma for_each_remove_file_at l q : ∀ w,
  (∀ p, p ∈ l → os_path.split p ≠ os_path.split q) →
  os.file_at (fs (for_each l os.remove w).2) q = os.file_at (fs w) q.
Proof.
  induction l as [|p l IH]; intros w Hl; [done|]. simpl. unfold bind.
  pose proof (remove_file_at p q w (Hl p (list_elem_of_here _ _))) as Hp.
  destruct (os.remove p w) as [[[]|e] w1]; simpl in Hp; [|done].
  rewrite IH; [done|]. intros p' Hp'. apply Hl. by apply list_elem_of_further.
Qed.




(** ** [delete_config] with a plain name *)



Lemma cut_last_tail c s h t : Py.cut_last c s = Some (h, t) → Py.contains c t = false.
Proof.
  revert h t. induction s as [|a s IH]; intros h t; [done|]. simpl.
  destruct (Py.cut_last c s) as [[h' t']|] eqn:E.
  - intros [= <- <-]. by eapply IH.
  - destruct (Ascii.eqb a c); [|done]. intros [= <- <-].
    clear IH. induction s as [|b s IH]; [done|]. simpl in *.
    destruct (Py.cut_last c s) as [[h' t']|]; [done|].
    destruct (Ascii.eqb b c); [done|]. by apply IH.
Qed.

Lemma split_tail p : Py.contains os_path.sep (os_path.split p).2 = false.
Proof.
  unfold os_path.split. destruct (Py.cut_last os_path.sep p) as [[h t]|] eqn:E.
  - simpl. by eapply cut_last_tail.
  - simpl. clear -E. induction p as [|a p IH]; [done|]. simpl in *.
    destruct (Py.cut_last os_path.sep p) as [[h' t']|]; [done|].
    destruct (Ascii.eqb a os_path.sep); [done|]. by apply IH.
Qed.

Lemma subdirs_plain (f : filesystem) dir n :
  n ∈ os.subdirs f dir → Py.contains os_path.sep n = false.
Proof.
  unfold os.subdirs. intros H. apply list_elem_of_omap in H as (e & _ & He).
  pose proof (split_tail e) as Ht. destruct (os_path.split e) as [d' n'].
  destruct (String.eqb d' dir && negb (String.eqb n' "")); [|done].
  by injection He as <-.
Qed.

(** The only name whose pattern [name.*] covers the key file. *)
Lemma name_of_key_file name x : "encryption.key" = name +:+ "." +:+ x → name = "encryption".
Proof.
  intros E. symmetry in E.
  repeat (destruct name as [|? name];
          [ change ("" +:+ "." +:+ x) with (String "." x) in E;
            first [ discriminate E | reflexivity ]
          | change (String ?a name +:+ "." +:+ x) with (String a (name +:+ "." +:+ x)) in E;
            first [ discriminate E | injection E as -> E ] ]).
Qed.



(** Property X19.  [delete_config] with a plain name (no path separator,
    no pattern character), in a plain configuration directory (not empty,
    no separator at its end, no pattern character), touches no file but
    those named [name.x] in the configuration directory (the entries of the
    directory being file names): every other path holds what it held,
    whether the call returns or raises. In particular the key file is kept,
    for every plain name other than [encryption]. *)
Theorem delete_config_other_files (self : ConfigManager.t) (config_name : string)
    (w : world) :
  ConfigManager.config_dir self ≠ "" →
  Py.endswith (ConfigManager.config_dir self) "/" = false →
  fnmatch.has_magic (ConfigManager.config_dir self) = false →
  Py.contains os_path.sep config_name = false →
  fnmatch.has_magic config_name = false →
  (∀ n, n ∈ glob.entries (fs w) (ConfigManager.config_dir self) →
        Py.contains os_path.sep n = false) →
  (∀ q, (∀ x, os_path.split q ≠ (ConfigManager.config_dir self, config_name +:+ "." +:+ x)) →
        os.file_at (fs (ConfigManager.delete_config self config_name w).2) q
        = os.file_at (fs w) q
        ∧ os.is_dir (fs (ConfigManager.delete_config self config_name w).2) q
          = os.is_dir (fs w) q)
  ∧ (config_name ≠ "encryption" →
     ∀ k, os.regular_file (fs w)
            (os_path.join (ConfigManager.config_dir self) "encryption.key") k →
          os.regular_file (fs (ConfigManager.delete_config self config_name w).2)
            (os_path.join (ConfigManager.config_dir self) "encryption.key") k).
Proof.
  intros Hd He Hdm Hn Hm Hwf.
  set (dir := ConfigManager.config_dir self) in *.
  assert (Hframe : ∀ q, (∀ x, os_path.split q ≠ (dir, config_name +:+ "." +:+ x)) →
            os.file_at (fs (ConfigManager.delete_config self config_name w).2) q
            = os.file_at (fs w) q
            ∧ os.is_dir (fs (ConfigManager.delete_config self config_name w).2) q
              = os.is_dir (fs w) q).
  { intros q Hq. unfold ConfigManager.delete_config, bind. fold dir.
    rewrite glob_name_dot_star by done. split; [|apply for_each_remove_is_dir].
    apply for_each_remove_file_at. intros p Hp.
    apply list_elem_of_fmap in Hp as (n & -> & Hin).
    unfold glob.select in Hin. apply list_elem_of_filter in Hin as [Hsel Hin].
    apply andb_true_iff in Hsel as [_ Hsel].
    apply fnmatch_name_dot_star in Hsel as [x ->]; [|done].
    rewrite split_join; [by apply not_eq_sym|done|done|].
    apply elem_of_app in Hin as [Hin|Hin]; [by apply Hwf|by eapply subdirs_plain]. }
  split; [exact Hframe|].
  intros Hname k [Hk Hkd].
  destruct (Hframe (os_path.join dir "encryption.key")) as [H1 H2].
  - intros x. rewrite split_join by done. intros [= E].
    apply Hname. by eapply name_of_key_file.
  - split; [by rewrite H1 | by rewrite H2].
Qed.

Lemma delete_config_other_files_witness :
  os.regular_file (fs (ConfigManager.delete_config Sample.cm "app" Sample.world2).2)
    "/home/u/.ai_config/encryption.key" Sample.key.
Proof.
  destruct (delete_config_other_files Sample.cm "app" Sample.world2) as [_ Hk].
  - discriminate.
  - reflexivity.
  - reflexivity.
  - reflexivity.
  - reflexivity.
  - intros n Hn. vm_compute in Hn.
    repeat (apply elem_of_cons in Hn as [->|Hn]; [reflexivity|]).
    by apply elem_of_nil in Hn.
  - apply Hk; [discriminate|]. split; vm_compute; reflexivity.
Defined.

(** ** The dialogues *)

Section dialogues.
Import dialogue Keeps.

(** *** What the steps of a dialogue keep *)

Lemma keeps_done {A} R `{!Reflexive R} (a : A) : keeps R (done a).
Proof. intros t. simpl. reflexivity. Qed.

Lemma keeps_crash {A} R `{!Reflexive R} e : keeps R (@crash A e).
Proof. intros t. simpl. reflexivity. Qed.

Lemma keeps_unfinished {A} R `{!Reflexive R} : keeps R (@unfinished A).
Proof. intros t. simpl. reflexivity. Qed.

Lemma keeps_and_then {A B} R `{!Transitive R} (m : IO A) (k : A → IO B) :
  keeps R m → (∀ a, keeps R (k a)) → keeps R (and_then m k).
Proof.
  intros Hm Hk t. unfold and_then. specialize (Hm t).
  destruct (m t) as [[a|e|] t1]; simpl in Hm; [|done|done].
  specialize (Hk a t1). by etrans.
Qed.

Lemma keeps_except {A} R `{!Transitive R} (m h : IO A) :
  keeps R m → keeps R h → keeps R (except_ValueError_IndexError m h).
Proof.
  intros Hm Hh t. unfold except_ValueError_IndexError. specialize (Hm t).
  destruct (m t) as [[a|[| |e]|] t1]; simpl in Hm; try done.
  - specialize (Hh t1). by etrans.
  - destruct (is_ValueError e); [|done]. specialize (Hh t1). by etrans.
Qed.

Lemma keeps_for_all {A} R `{!Reflexive R} `{!Transitive R} (xs : list A) body :
  (∀ x, keeps R (body x)) → keeps R (for_all xs body).
Proof.
  intros Hb. induction xs as [|x xs IH]; [by apply keeps_done|].
  simpl. apply keeps_and_then; [done|done|]. by intros _.
Qed.

Lemma finishes_and_then {A B} (m : IO A) (k : A → IO B) :
  finishes m → (∀ a, finishes (k a)) → finishes (and_then m k).
Proof.
  intros Hm Hk t. unfold and_then. specialize (Hm t).
  destruct (m t) as [[a|e|] t1]; simpl in Hm; [|done|done]. apply Hk.
Qed.

Lemma finishes_done {A} (a : A) : finishes (done a).
Proof. by intros t. Qed.

Lemma finishes_say text : finishes (say text).
Proof. by intros t. Qed.

Lemma finishes_input prompt : finishes (input prompt).
Proof. intros t. unfold input. by destruct (stdin t). Qed.

Lemma finishes_call {A} (m : M A) : finishes (call m).
Proof. intros t. unfold call. by destruct (m (host t)) as [[a|e] w]. Qed.

Lemma finishes_call_random {A} urandom (m : string → M A) : finishes (call_random urandom m).
Proof. intros t. unfold call_random. apply finishes_call. Qed.

(** *** The input *)

#[local] Instance input_left_refl : Reflexive input_left.
Proof. intros t. by exists []. Qed.

#[local] Instance input_left_trans : Transitive input_left.
Proof. intros t1 t2 t3 H1 H2. unfold input_left in *. by etrans. Qed.

Lemma input_left_say text : keeps input_left (say text).
Proof. intros t. by exists []. Qed.

Lemma input_left_input prompt : keeps input_left (input prompt).
Proof.
  intros t. unfold input_left, input. destruct (stdin t) as [|a rest] eqn:E; simpl.
  - by exists [].
  - by exists [a].
Qed.

Lemma input_left_call {A} (m : M A) : keeps input_left (call m).
Proof.
  intros t. unfold input_left, call. destruct (m (host t)) as [[a|e] w]; by exists [].
Qed.

Lemma input_left_call_random {A} urandom (m : string → M A) :
  keeps input_left (call_random urandom m).
Proof.
  intros t. unfold call_random.
  exact (input_left_call (m (urandom (draws t)))
           {| host := host t; stdin := stdin t; screen := screen t; draws := S (draws t) |}).
Qed.

Lemma reads_input prompt : reads (input prompt).
Proof.
  intros t a t'. unfold input. destruct (stdin t) as [|x rest]; [done|].
  intros [= <- <-]. simpl. lia.
Qed.

Lemma reads_and_then {A B} (m : IO A) (k : A → IO B) :
  reads m → (∀ a, keeps input_left (k a)) → reads (and_then m k).
Proof.
  intros Hm Hk t b t'. unfold and_then.
  destruct (m t) as [[a|e|] t1] eqn:E; [|done|done]. intros Hka.
  apply Hm in E. specialize (Hk a t1). rewrite Hka in Hk.
  apply suffix_length in Hk. simpl in Hk. lia.
Qed.

Lemma reads_after {A B} (m : IO A) (k : A → IO B) :
  keeps input_left m → (∀ a, reads (k a)) → reads (and_then m k).
Proof.
  intros Hm Hk t b t'. unfold and_then. specialize (Hm t).
  destruct (m t) as [[a|e|] t1] eqn:E; [|done|done]. intros Hka.
  apply Hk in Hka. apply suffix_length in Hm. simpl in Hm. lia.
Qed.

End dialogues.

Section key_setup.
Import dialogue Keeps.
Context (L : pylibs) (B : builtins) (urandom : nat → string).
#[local] Existing Instances input_left_refl input_left_trans.

(** *** [interactive_key_setup]: one turn, then the loop *)

(** What the steps of a turn keep, the turn keeps. *)
Lemma key_setup_turn_keeps R `{!Reflexive R} `{!Transitive R} manager :
  (∀ text, keeps R (say text)) → (∀ prompt, keeps R (input prompt)) →
  (∀ service api_key,
     keeps R (call_random urandom
                (λ rnd, SecureAPIKeyManager.store_api_key L manager rnd service api_key))) →
  (∀ service, keeps R (call (SecureAPIKeyManager.retrieve_api_key L manager service))) →
  keeps R (call (SecureAPIKeyManager.list_stored_services manager)) →
  (∀ service, keeps R (call (SecureAPIKeyManager.delete_api_key manager service))) →
  (∀ service api_key,
     keeps R (call (SecureAPIKeyManager.validate_api_key L manager service api_key))) →
  keeps R (key_setup_turn L B urandom manager).
Proof.
  intros Hsay Hin Hstore Hget Hlist Hdel Hval. unfold key_setup_turn.
  do 7 (apply keeps_and_then; [done|done|intros _]).
  apply keeps_and_then; [done|done|intros choice].
  repeat (destruct (String.eqb choice _)).
  all: repeat first [ apply keeps_and_then; [done | done | intros ?]
                    | (apply keeps_done; done) ].
Qed.

Lemma key_setup_turn_input_left manager :
  keeps input_left (key_setup_turn L B urandom manager).
Proof.
  apply key_setup_turn_keeps; try apply _; intros;
    first [ apply input_left_say | apply input_left_input
          | apply input_left_call_random | apply input_left_call ].
Qed.

Lemma key_setup_turn_finishes manager : finishes (key_setup_turn L B urandom manager).
Proof.
  unfold key_setup_turn.
  do 7 (apply finishes_and_then; [apply finishes_say|intros _]).
  apply finishes_and_then; [apply finishes_input|intros choice].
  repeat (destruct (String.eqb choice _)).
  all: repeat first [ apply finishes_and_then; [|intros ?]
                    | apply finishes_say | apply finishes_input
                    | apply finishes_call_random | apply finishes_call
                    | apply finishes_done ].
Qed.

Lemma key_setup_turn_reads manager : reads (key_setup_turn L B urandom manager).
Proof.
  pose proof (key_setup_turn_input_left manager) as Hk. revert Hk. unfold key_setup_turn.
  intros _.
  do 7 (apply reads_after; [apply input_left_say|intros _]).
  apply reads_and_then; [apply reads_input|intros choice].
  repeat (destruct (String.eqb choice _)).
  all: repeat first [ apply keeps_and_then; [apply _| |intros ?]
                    | apply input_left_say | apply input_left_input
                    | apply input_left_call_random | apply input_left_call
                    | (apply keeps_done; apply _) ].
Qed.

Lemma and_then_say {A} text (k : unit → IO A) t :
  and_then (say text) k t = k tt (show t (Line text)).
Proof. done. Qed.

Lemma and_then_input {A} prompt (k : string → IO A) t :
  and_then (input prompt) k t
  = match stdin t with
    | [] => (Crashed EOFError, show t (Prompt prompt))
    | answer :: rest =>
        k answer {| host := host t; stdin := rest;
                    screen := (screen t ++ [Prompt prompt])%list; draws := draws t |}
    end.
Proof. unfold and_then, input. by destruct (stdin t). Qed.

(** The loop is left only when the line read as the choice is [6]. *)
Lemma key_setup_turn_stop manager t t' :
  key_setup_turn L B urandom manager t = (Ended true, t') → "6" ∈ stdin t.
Proof.
  unfold key_setup_turn.
  assert (Hfalse : ∀ {A} (m : IO A) t1 t2, (m ;~ done false) t1 ≠ (Ended true, t2)).
  { intros A m t1 t2. unfold and_then, done. by destruct (m t1) as [[a|e|] t3]. }
  assert (Hbind : ∀ {A} (m : IO A) (k : A → IO bool) t1 t2,
            (∀ a t3, k a t3 ≠ (Ended true, t2)) → (x <~ m ;~ k x) t1 ≠ (Ended true, t2)).
  { intros A m k t1 t2 Hk. unfold and_then. destruct (m t1) as [[a|e|] t3]; [apply Hk|done|done]. }
  rewrite !and_then_say. rewrite and_then_input. simpl stdin.
  destruct (stdin t) as [|choice rest] eqn:E; [done|].
  destruct (String.eqb_spec choice "6") as [->|Hne]; [intros _; apply list_elem_of_here|].
  intros H. exfalso. revert H.
  repeat (destruct (String.eqb choice _)).
  all: repeat first [ apply Hfalse | apply Hbind; intros ? ? ].
Qed.

Lemma key_setup_loop_keeps R `{!Reflexive R} `{!Transitive R} manager fuel :
  keeps R (key_setup_turn L B urandom manager) →
  keeps R (key_setup_loop L B urandom fuel manager).
Proof.
  intros Ht. induction fuel as [|fuel IH]; [by apply keeps_unfinished|].
  simpl. apply keeps_and_then; [done|done|]. intros [|]; [by apply keeps_done|done].
Qed.

(** With more fuel than lines to read, the loop is not cut short. *)
Lemma key_setup_loop_finishes manager fuel : ∀ t,
  length (stdin t) < fuel → (key_setup_loop L B urandom fuel manager t).1 ≠ Unfinished.
Proof.
  induction fuel as [|fuel IH]; intros t Hlen; [lia|].
  simpl. unfold and_then.
  pose proof (key_setup_turn_finishes manager t) as Hf.
  destruct (key_setup_turn L B urandom manager t) as [[stop|e|] t1] eqn:E; [|done|done].
  destruct stop; [done|]. apply IH. apply key_setup_turn_reads in E. lia.
Qed.

Lemma key_setup_loop_stop manager fuel : ∀ t t',
  key_setup_loop L B urandom fuel manager t = (Ended tt, t') → "6" ∈ stdin t.
Proof.
  induction fuel as [|fuel IH]; intros t t'; [done|].
  simpl. unfold and_then.
  pose proof (key_setup_turn_input_left manager t) as Hs.
  destruct (key_setup_turn L B urandom manager t) as [[stop|e|] t1] eqn:E; [|done|done].
  destruct stop.
  - intros _. by eapply key_setup_turn_stop.
  - intros H. apply IH in H. simpl in Hs. destruct Hs as [k ->].
    apply elem_of_app. by right.
Qed.

End key_setup.

Section key_setup_properties.
Import dialogue Keeps.
Context (L : pylibs) (B : builtins) (urandom : nat → string).
#[local] Existing Instances input_left_refl input_left_trans.

(** Property X11.  [interactive_key_setup] always ends, and returns only
    after it has read the choice [6]: when no line of the input is [6], it
    raises. *)
Theorem interactive_key_setup_ends (t : terminal) :
  (interactive_key_setup L B urandom t).1 ≠ Unfinished
  ∧ ((interactive_key_setup L B urandom t).1 = Ended tt → "6" ∈ stdin t)
  ∧ ("6" ∉ stdin t → ∃ e, (interactive_key_setup L B urandom t).1 = Crashed e).
Proof.
  assert (H : (interactive_key_setup L B urandom t).1 ≠ Unfinished
              ∧ ((interactive_key_setup L B urandom t).1 = Ended tt → "6" ∈ stdin t)).
  { unfold interactive_key_setup, and_then, call_random, call.
    destruct (SecureAPIKeyManager.__init__ _ _ _ _) as [[manager|e] w1]; [|done].
    cbn [host stdin screen draws].
    set (t1 := {| host := w1; stdin := stdin t; screen := screen t; draws := S (draws t) |}).
    split.
    - apply key_setup_loop_finishes. simpl. lia.
    - destruct (key_setup_loop L B urandom (S (length (stdin t))) manager t1)
        as [[[]|e|] t2] eqn:E; try done.
      intros _. apply key_setup_loop_stop in E. exact E. }
  destruct H as [H1 H2]. split; [done|]. split; [done|].
  intros Hn. destruct (interactive_key_setup L B urandom t).1 as [[]|e|]; [|by eauto|done].
  destruct Hn. by apply H2.
Qed.

(** *** The key file *)

#[local] Instance file_kept_refl p data : Reflexive (file_kept p data).
Proof. by intros t H. Qed.

#[local] Instance file_kept_trans p data : Transitive (file_kept p data).
Proof. intros t1 t2 t3 H1 H2 H. by apply H2, H1. Qed.

Lemma file_kept_call {A} p data (m : M A) :
  (∀ w, os.regular_file (fs w) p data → os.regular_file (fs (m w).2) p data) →
  keeps (file_kept p data) (call m).
Proof.
  intros Hm t H. unfold call. specialize (Hm (host t) H).
  by destruct (m (host t)) as [[a|e] w].
Qed.

(** [validate_api_key] leaves the files alone. *)
Lemma validate_api_key_files (self : SecureAPIKeyManager.t) service api_key w :
  fs (SecureAPIKeyManager.validate_api_key L self service api_key w).2 = fs w.
Proof.
  unfold SecureAPIKeyManager.validate_api_key, try_except, bind.
  assert (Hcall : ∀ provider,
    fs (let (o, w') := (let (o, w') := SecureAPIKeyManager.sdk_call L provider api_key w in
                        match o with
                        | Return _ => ret true w'
                        | Raise e => (Raise e, w')
                        end) in
        match o with
        | Return a => (Return a, w')
        | Raise e =>
            let (o0, w'0) := print (Validation_failed service e) w' in
            match o0 with
            | Return _ => ret false w'0
            | Raise e0 => (Raise e0, w'0)
            end
        end).2 = fs w).
  { intros provider. unfold SecureAPIKeyManager.sdk_call.
    by destruct (sdk_list_models L provider api_key). }
  destruct (String.eqb service "openai"); [apply Hcall|].
  destruct (String.eqb service "google"); [apply Hcall|].
  destruct (String.eqb service "anthropic"); [apply Hcall|done].
Qed.

(** Property X12.  Whatever is typed, [interactive_key_setup] leaves the key
    file with the key that the manager loaded or generated at the start. *)
Theorem interactive_key_setup_keeps_key_file (t : terminal)
    (manager : SecureAPIKeyManager.t) (w1 : world) :
  let path := SecureAPIKeyManager.default_key_storage_path (host t) in
  SecureAPIKeyManager.__init__ L (urandom (draws t)) path (host t) = (Return manager, w1) →
  os.regular_file (fs (host (interactive_key_setup L B urandom t).2))
    (os_path.join path "encryption.key") (SecureAPIKeyManager.encryption_key manager).
Proof.
  intros path Hinit.
  pose proof (SecureAPIKeyManager_init_Return _ _ _ _ _ _ Hinit) as (Hm & _ & Hk & _).
  set (kf := os_path.join path "encryption.key") in *.
  set (k := SecureAPIKeyManager.encryption_key manager) in *.
  assert (Hpath : SecureAPIKeyManager.key_storage_path manager = path) by by rewrite Hm.
  assert (Hop : ∀ o w, os.regular_file (fs w) kf k →
                       os.regular_file (fs (SecureAPIKeyManager.run L manager o w)) kf k).
  { intros o w H. unfold kf. rewrite <- Hpath.
    apply SecureAPIKeyManager_op_keeps_key_file. by rewrite Hpath. }
  assert (Hturn : keeps (file_kept kf k) (key_setup_turn L B urandom manager)).
  { apply key_setup_turn_keeps; try apply _.
    - by intros text t0 H.
    - intros prompt t0 H. unfold input. by destruct (stdin t0).
    - intros service api_key t0 H. unfold call_random, call. simpl.
      specialize (Hop (SecureAPIKeyManager.Store (urandom (draws t0)) service api_key)
                    (host t0) H).
      simpl in Hop. by destruct (SecureAPIKeyManager.store_api_key _ _ _ _ _ _) as [[a|e] w].
    - intros service. apply file_kept_call. intros w H.
      exact (Hop (SecureAPIKeyManager.Retrieve service) w H).
    - apply file_kept_call. intros w H. exact (Hop SecureAPIKeyManager.List w H).
    - intros service. apply file_kept_call. intros w H.
      exact (Hop (SecureAPIKeyManager.Delete service) w H).
    - intros service api_key. apply file_kept_call. intros w [Hf Hd].
      unfold os.regular_file. by rewrite validate_api_key_files. }
  unfold interactive_key_setup, and_then, call_random, call.
  cbn [host stdin screen draws]. fold path. rewrite Hinit.
  exact (key_setup_loop_keeps L B urandom (file_kept kf k) manager _ Hturn
           {| host := w1; stdin := stdin t; screen := screen t; draws := S (draws t) |} Hk).
Qed.

End key_setup_properties.

Lemma interactive_key_setup_keeps_key_file_witness :
  os.regular_file
    (fs (dialogue.host
           (dialogue.interactive_key_setup Sample.libs Sample_builtins.builtins
              Sample_builtins.urandom
              (Sample_builtins.terminal Sample.world1
                 ["4"; "encryption"; "1"; "encryption.key"; "k"; "6"])).2))
    "/home/u/.ai_api_keys/encryption.key" Sample.key.
Proof.
  apply (interactive_key_setup_keeps_key_file Sample.libs Sample_builtins.builtins
           Sample_builtins.urandom
           (Sample_builtins.terminal Sample.world1
              ["4"; "encryption"; "1"; "encryption.key"; "k"; "6"])
           Sample.akm Sample.world1).
  vm_compute. reflexivity.
Defined.

Section config_manager_properties.
Import dialogue Keeps.
Context (L : pylibs) (B : builtins) (urandom : nat → string).

(** Property X15.  [main] of [config_manager.py] never shows its menu: the
    construction of the [ConfigManager] raises, before anything is printed
    or read. *)
Theorem config_manager_main_never_starts (t : terminal) :
  Fernet_key_ok L "" = false →
  (N.of_nat (String.length (Fernet_generate_key L (urandom (draws t))))
   <= os.DEFAULT_BUFFER_SIZE)%N →
  ∃ e t', main L B urandom t = (Crashed (Raised e), t')
          ∧ stdin t' = stdin t ∧ screen t' = screen t.
Proof.
  intros Hok Hlen. unfold main, interactive_config_manager, and_then, call_random, call.
  cbn [host stdin screen draws].
  destruct (ConfigManager.__init__ L (urandom (draws t)) None (host t)) as [[cm|e] w1] eqn:E.
  - by apply ConfigManager_init_never_returns in E.
  - by eexists _, _.
Qed.

End config_manager_properties.

Lemma config_manager_main_never_starts_witness :
  ∃ e t', dialogue.main Sample.libs Sample_builtins.builtins Sample_builtins.urandom
            (Sample_builtins.terminal Sample.world0 ["3"; "6"])
          = (dialogue.Crashed (dialogue.Raised e), t')
          ∧ dialogue.stdin t' = ["3"; "6"] ∧ dialogue.screen t' = [].
Proof.
  apply (config_manager_main_never_starts Sample.libs Sample_builtins.builtins
           Sample_builtins.urandom (Sample_builtins.terminal Sample.world0 ["3"; "6"])).
  - reflexivity.
  - vm_compute; discriminate.
Defined.

Section key_setup_scenario.
Import dialogue Keeps.
Context (L : pylibs) (B : builtins) (urandom : nat → string).

(** *** Turns of [interactive_key_setup], choice by choice *)

Ltac choose :=
  repeat match goal with
         | |- context [String.eqb ?a ?b] =>
             let v := eval vm_compute in (String.eqb a b) in
             change (String.eqb a b) with v
         end;
  cbv iota.

Lemma key_setup_turn_store manager t service api_key rest w' :
  stdin t = "1" :: service :: api_key :: rest →
  SecureAPIKeyManager.store_api_key L manager (urandom (draws t)) (str_lower B service)
    api_key (host t) = (Return tt, w') →
  ∃ t', key_setup_turn L B urandom manager t = (Ended false, t')
        ∧ host t' = w' ∧ stdin t' = rest ∧ draws t' = S (draws t).
Proof.
  intros Hin Hstore. unfold key_setup_turn.
  rewrite !and_then_say, and_then_input. cbn [stdin show]. rewrite Hin.
  choose.
  rewrite and_then_input. cbn [stdin]. rewrite and_then_input. cbn [stdin].
  unfold and_then at 1. unfold call_random, call. cbn [host stdin screen draws show].
  rewrite Hstore. rewrite and_then_say. unfold done. eexists. split; [done|]. done.
Qed.

Lemma key_setup_turn_retrieve manager t service rest key w' :
  stdin t = "2" :: service :: rest →
  SecureAPIKeyManager.retrieve_api_key L manager (str_lower B service) (host t)
    = (Return key, w') →
  ∃ t', key_setup_turn L B urandom manager t = (Ended false, t')
        ∧ host t' = w' ∧ stdin t' = rest ∧ draws t' = draws t
        ∧ Line ("API key for " +:+ str_lower B service +:+ ": "
                +:+ match key with Some k => k | None => "None" end) ∈ screen t'.
Proof.
  intros Hin Hget. unfold key_setup_turn.
  rewrite !and_then_say, and_then_input. cbn [stdin show]. rewrite Hin.
  choose.
  rewrite and_then_input. cbn [stdin].
  unfold and_then at 1. unfold call. cbn [host stdin screen draws show].
  rewrite Hget. rewrite and_then_say. unfold done. eexists. split; [done|].
  cbn [host stdin screen draws show]. repeat split.
  apply elem_of_app. right. apply list_elem_of_here.
Qed.

Lemma key_setup_turn_exit manager t rest :
  stdin t = "6" :: rest →
  ∃ t', key_setup_turn L B urandom manager t = (Ended true, t')
        ∧ host t' = host t ∧ stdin t' = rest
        ∧ ∀ x, x ∈ screen t → x ∈ screen t'.
Proof.
  intros Hin. unfold key_setup_turn.
  rewrite !and_then_say, and_then_input. cbn [stdin show]. rewrite Hin.
  choose.
  unfold done. eexists. split; [done|]. cbn [host stdin screen draws show].
  repeat split. intros x Hx. rewrite !elem_of_app. tauto.
Qed.

(** Property X13.  In [interactive_key_setup] the names of the services are
    taken in lower case: a key stored with choice [1] under a name is shown
    by choice [2] under every name with the same lower-case form. *)
Theorem key_setup_store_then_retrieve (t : terminal) (manager : SecureAPIKeyManager.t)
    (w1 w2 : world) (service service' api_key : string) (rest : list string) :
  stdin t = "1" :: service :: api_key :: "2" :: service' :: "6" :: rest →
  str_lower B service' = str_lower B service →
  SecureAPIKeyManager.__init__ L (urandom (draws t))
    (SecureAPIKeyManager.default_key_storage_path (host t)) (host t) = (Return manager, w1) →
  SecureAPIKeyManager.store_api_key L manager (urandom (S (draws t))) (str_lower B service)
    api_key w1 = (Return tt, w2) →
  utf8.valid api_key = true →
  Fernet_decrypt L (SecureAPIKeyManager.cipher_suite manager)
    (Fernet_encrypt L (SecureAPIKeyManager.cipher_suite manager) (urandom (S (draws t)))
       (utf8.encode api_key)) = Some api_key →
  ∃ t', interactive_key_setup L B urandom t = (Ended tt, t')
        ∧ host t' = w2 ∧ stdin t' = rest
        ∧ Line ("API key for " +:+ str_lower B service' +:+ ": " +:+ api_key) ∈ screen t'.
Proof.
  intros Hin Hlow Hinit Hstore Hvalid Hcipher.
  pose proof (store_retrieve_api_key L manager _ _ _ _ _ Hvalid Hcipher Hstore) as Hget.
  unfold interactive_key_setup. unfold and_then at 1. unfold call_random, call.
  cbn [host stdin screen draws]. rewrite Hinit. rewrite Hin.
  set (t1 := {| host := w1;
                stdin := "1" :: service :: api_key :: "2" :: service' :: "6" :: rest;
                screen := screen t; draws := S (draws t) |}).
  destruct (key_setup_turn_store manager t1 service api_key
              ("2" :: service' :: "6" :: rest) w2) as (t2 & E2 & Hh2 & Hs2 & _); [done|done|].
  destruct (key_setup_turn_retrieve manager t2 service' ("6" :: rest) (Some api_key) w2)
    as (t3 & E3 & Hh3 & Hs3 & _ & Hl3); [done| |].
  { by rewrite Hh2, Hlow. }
  destruct (key_setup_turn_exit manager t3 rest) as (t4 & E4 & Hh4 & Hs4 & Hl4); [done|].
  exists t4. split; [|split; [congruence|split; [done|by apply Hl4]]].
  cbn [length key_setup_loop]. unfold and_then. rewrite E2, E3, E4. done.
Qed.

End key_setup_scenario.

Lemma key_setup_store_then_retrieve_witness :
  ∃ t', dialogue.interactive_key_setup Sample.libs Sample_builtins.builtins
          Sample_builtins.urandom
          (Sample_builtins.terminal Sample.world0
             ["1"; "OpenAI"; "sk-1"; "2"; "OPENAI"; "6"])
        = (dialogue.Ended tt, t')
        ∧ dialogue.Line "API key for openai: sk-1" ∈ dialogue.screen t'.
Proof.
  destruct (key_setup_store_then_retrieve Sample.libs Sample_builtins.builtins
              Sample_builtins.urandom
              (Sample_builtins.terminal Sample.world0
                 ["1"; "OpenAI"; "sk-1"; "2"; "OPENAI"; "6"])
              Sample.akm
              (SecureAPIKeyManager.__init__ Sample.libs "c2FtcGxl" "/home/u/.ai_api_keys"
                 Sample.world0).2
              (SecureAPIKeyManager.store_api_key Sample.libs Sample.akm "c2FtcGxl" "openai"
                 "sk-1"
                 (SecureAPIKeyManager.__init__ Sample.libs "c2FtcGxl" "/home/u/.ai_api_keys"
                   Sample.world0).2).2
              "OpenAI" "OPENAI" "sk-1" []) as (t' & E & _ & _ & Hl).
  - reflexivity.
  - reflexivity.
  - vm_compute; reflexivity.
  - vm_compute; reflexivity.
  - reflexivity.
  - vm_compute; reflexivity.
  - exists t'. split; [exact E | exact Hl].
Defined.

(** ** [SecureAPIKeyManager]: from one run to the next *)

(** Property X3.  A key stored in one run is retrieved in a later run: after
    [__init__] and [store_api_key] have returned, a new [__init__] against
    the same storage path returns a manager with the same key and changes
    nothing, and [retrieve_api_key] returns the stored key. *)
Theorem stored_key_persists (L : pylibs) (rnd rnd1 rnd2 path service api_key : string)
    (w w1 w2 : world) (self : SecureAPIKeyManager.t) :
  SecureAPIKeyManager.__init__ L rnd path w = (Return self, w1) →
  SecureAPIKeyManager.store_api_key L self rnd1 service api_key w1 = (Return tt, w2) →
  utf8.valid api_key = true →
  Fernet_decrypt L (SecureAPIKeyManager.cipher_suite self)
    (Fernet_encrypt L (SecureAPIKeyManager.cipher_suite self) rnd1 (utf8.encode api_key))
    = Some api_key →
  SecureAPIKeyManager.__init__ L rnd2 path w2 = (Return self, w2)
  ∧ SecureAPIKeyManager.retrieve_api_key L self service w2 = (Return (Some api_key), w2).
Proof.
  intros Hinit Hstore Hvalid Hcipher.
  split; [|by eapply store_retrieve_api_key].
  apply SecureAPIKeyManager_init_Return in Hinit as (Hs & Hd & Hk & Hok).
  assert (Hpath : SecureAPIKeyManager.key_storage_path self = path) by by rewrite Hs.
  pose proof (SecureAPIKeyManager_op_keeps_key_file L self
                (SecureAPIKeyManager.Store rnd1 service api_key) w1
                (SecureAPIKeyManager.encryption_key self)) as Hkeep.
  simpl in Hkeep. rewrite Hstore, Hpath in Hkeep. specialize (Hkeep Hk).
  unfold SecureAPIKeyManager.store_api_key in Hstore. rewrite write_file_put_file in Hstore.
  pose proof (put_file_keeps_dir _ _ _ _ path Hstore Hd) as Hd2.
  rewrite Hs at 1. by apply SecureAPIKeyManager_init_existing_key.
Qed.

Lemma stored_key_persists_witness :
  let w1 := (SecureAPIKeyManager.__init__ Sample.libs "c2FtcGxl" "/home/u/.ai_api_keys"
               Sample.world0).2 in
  let w2 := (SecureAPIKeyManager.store_api_key Sample.libs Sample.akm "iv" "openai" "sk-1"
               w1).2 in
  SecureAPIKeyManager.__init__ Sample.libs "b3RoZXI=" "/home/u/.ai_api_keys" w2
    = (Return Sample.akm, w2)
  ∧ SecureAPIKeyManager.retrieve_api_key Sample.libs Sample.akm "openai" w2
    = (Return (Some "sk-1"), w2).
Proof.
  intros w1 w2.
  apply (stored_key_persists Sample.libs "c2FtcGxl" "iv" "b3RoZXI=" "/home/u/.ai_api_keys"
           "openai" "sk-1" Sample.world0 w1 w2 Sample.akm);
    vm_compute; reflexivity.
Defined.

(** ** Names that are absolute paths *)

(** Property X9.  A service name that starts with a path separator is not
    kept under the storage path: [os.path.join] drops the storage path, and
    [store_api_key] writes the token to [<service>_key.enc] as it is, where
    [retrieve_api_key] of a manager with any other storage path and the same
    key finds it. *)
Theorem absolute_service_name (L : pylibs) (self other : SecureAPIKeyManager.t)
    (rnd service api_key : string) (w w' : world) :
  Py.startswith service "/" = true →
  SecureAPIKeyManager.cipher_suite other = SecureAPIKeyManager.cipher_suite self →
  utf8.valid api_key = true →
  Fernet_decrypt L (SecureAPIKeyManager.cipher_suite self)
    (Fernet_encrypt L (SecureAPIKeyManager.cipher_suite self) rnd (utf8.encode api_key))
    = Some api_key →
  SecureAPIKeyManager.store_api_key L self rnd service api_key w = (Return tt, w') →
  os.regular_file (fs w') (service +:+ "_key.enc")
    (Fernet_encrypt L (SecureAPIKeyManager.cipher_suite self) rnd (utf8.encode api_key))
  ∧ SecureAPIKeyManager.retrieve_api_key L other service w' = (Return (Some api_key), w').
Proof.
  intros Habs Hsame Hvalid Hcipher Hstore.
  assert (Hjoin : ∀ path, os_path.join path (service +:+ "_key.enc") = service +:+ "_key.enc").
  { intros path. unfold os_path.join. destruct service as [|c service]; [done|].
    change (String c service +:+ "_key.enc") with (String c (service +:+ "_key.enc")).
    simpl in Habs |- *. destruct (Ascii.eqb "/" c); [|done]. by destruct (service +:+ "_key.enc"). }
  unfold SecureAPIKeyManager.store_api_key in Hstore.
  rewrite write_file_put_file, Hjoin in Hstore. apply put_file_regular in Hstore.
  split; [done|].
  unfold SecureAPIKeyManager.retrieve_api_key, bind. rewrite Hjoin.
  rewrite (path_exists_regular _ _ _ Hstore). simpl.
  rewrite (read_file_regular _ _ _ Hstore).
  unfold try_except, bind, or_raise. rewrite Hsame, Hcipher. unfold ret at 1.
  unfold utf8.decode. by rewrite Hvalid.
Qed.

Lemma absolute_service_name_witness :
  let other := {| SecureAPIKeyManager.key_storage_path := "/srv/keys";
                  SecureAPIKeyManager.encryption_key := Sample.key;
                  SecureAPIKeyManager.cipher_suite := Sample.key |} in
  let w' := (SecureAPIKeyManager.store_api_key Sample.libs Sample.akm "iv" "/home/u/x" "sk-1"
               Sample.world1).2 in
  os.regular_file (fs w') "/home/u/x_key.enc" (Sample.encrypt Sample.key "iv" "sk-1")
  ∧ SecureAPIKeyManager.retrieve_api_key Sample.libs other "/home/u/x" w'
    = (Return (Some "sk-1"), w').
Proof.
  intros other w'.
  apply (absolute_service_name Sample.libs Sample.akm other "iv" "/home/u/x" "sk-1"
           Sample.world1 w'); vm_compute; reflexivity.
Defined.

(** ** [merge_configs] of two saved configurations *)

Lemma load_config_ext (L : pylibs) (self : ConfigManager.t) config_name format decrypt
    (w1 w2 : world) :
  let p := ConfigManager.config_path self config_name format in
  os.file_at (fs w1) p = os.file_at (fs w2) p →
  os.is_dir (fs w1) p = os.is_dir (fs w2) p →
  (ConfigManager.load_config L self config_name format decrypt w1).1
  = (ConfigManager.load_config L self config_name format decrypt w2).1.
Proof.
  intros p Hf Hd.
  unfold ConfigManager.load_config, bind, os.path_exists, os.is_file.
  fold p. rewrite Hf, Hd. destruct (negb _); [done|].
  unfold os.read_file. rewrite Hf, Hd.
  destruct (os.is_dir (fs w2) p); [done|].
  destruct (os.file_at (fs w2) p) as [content|]; [|done].
  unfold ConfigManager.loads, ConfigManager.safe_load, ConfigManager.read_text,
    utf8.decode, or_raise.
  destruct decrypt.
  - destruct (Fernet_decrypt L _ content) as [d|]; [|done].
    unfold ret at 1 3. by destruct (json_loads L d).
  - destruct (String.eqb format "json").
    { destruct (utf8.valid content); [|done]. unfold ret at 1 3.
      by destruct (json_loads L content). }
    destruct (String.eqb format "yaml"); [|done].
    destruct (utf8.valid content); [|done]. unfold ret at 1 3.
    by destruct (yaml_safe_load L content).
Qed.

(** Property X21.  [merge_configs] of two configurations saved under
    different names without a path separator (with the defaults: JSON,
    encrypted) is the merge of the two values that were saved, when the
    cipher and the codec carry them through. *)
Theorem merge_configs_of_saved (L : pylibs) (self : ConfigManager.t)
    (rnd1 rnd2 base_config overlay_config : string) (base_value overlay_value : json)
    (w w1 w2 : world) :
  Py.contains os_path.sep base_config = false →
  Py.contains os_path.sep overlay_config = false →
  base_config ≠ overlay_config →
  libs_round_trip L (ConfigManager.cipher_suite self) rnd1 "json" true base_value →
  libs_round_trip L (ConfigManager.cipher_suite self) rnd2 "json" true overlay_value →
  ConfigManager.save_config L self rnd1 base_config base_value "json" true w
    = (Return tt, w1) →
  ConfigManager.save_config L self rnd2 overlay_config overlay_value "json" true w1
    = (Return tt, w2) →
  ConfigManager.merge_configs L self base_config overlay_config w2
  = ConfigManager.merge_loaded base_value overlay_value w2.
Proof.
  intros Hb Ho Hne Hrb Hro Hsb Hso.
  pose proof (save_load_config_encrypted L self _ _ _ _ _ _ Hrb Hsb) as Hlb.
  pose proof (save_load_config_encrypted L self _ _ _ _ _ _ Hro Hso) as Hlo.
  assert (Hlb2 : ConfigManager.load_config L self base_config "json" true w2
                 = (Return base_value, w2)).
  { pose proof (load_config_world L self base_config "json" true w2) as Hw.
    pose proof (load_config_ext L self base_config "json" true w2 w1) as He.
    destruct (ConfigManager.load_config L self base_config "json" true w2) as [r w3].
    simpl in Hw. subst w3. rewrite Hlb in He. simpl in He. rewrite He; [done| |].
    - unfold ConfigManager.save_config in Hso. rewrite write_file_put_file in Hso.
      pose proof (put_file_file_at (ConfigManager.config_path self overlay_config "json")
                    (Fernet_encrypt L (ConfigManager.cipher_suite self) rnd2
                       (utf8.encode (json_dumps L overlay_value)))
                    (ConfigManager.config_path self base_config "json") w1) as Hf.
      rewrite Hso in Hf. apply Hf. intros E. apply (f_equal snd) in E.
      unfold ConfigManager.config_path in E.
      rewrite !split_join_base in E by (by rewrite !contains_app, ?Hb, ?Ho).
      by apply app_inj_r in E.
    - unfold ConfigManager.save_config in Hso. rewrite write_file_put_file in Hso.
      pose proof (put_file_is_dir (ConfigManager.config_path self overlay_config "json")
                    (Fernet_encrypt L (ConfigManager.cipher_suite self) rnd2
                       (utf8.encode (json_dumps L overlay_value)))
                    (ConfigManager.config_path self base_config "json") w1) as Hd.
      by rewrite Hso in Hd. }
  unfold ConfigManager.merge_configs, bind. by rewrite Hlb2, Hlo.
Qed.

Lemma merge_configs_of_saved_witness :
  let b := JDict [("a", JNum 1); ("b", JDict [("x", JNum 1)])] in
  let o := JDict [("b", JDict [("y", JNum 2)])] in
  let w1 := (ConfigManager.save_config Sample.libs Sample.cm "iv1" "base" b "json" true
               Sample.world1).2 in
  let w2 := (ConfigManager.save_config Sample.libs Sample.cm "iv2" "over" o "json" true w1).2 in
  ConfigManager.merge_configs Sample.libs Sample.cm "base" "over" w2
  = ConfigManager.merge_loaded b o w2.
Proof.
  intros b o w1 w2.
  apply (merge_configs_of_saved Sample.libs Sample.cm "iv1" "iv2" "base" "over" b o
           Sample.world1 w1 w2).
  - reflexivity.
  - reflexivity.
  - discriminate.
  - split; vm_compute; reflexivity.
  - split; vm_compute; reflexivity.
  - vm_compute; reflexivity.
  - vm_compute; reflexivity.
Defined.

(** ** [ConfigManager]: one configuration and the others *)

(** Property X25.  Saving a configuration leaves what [load_config] returns
    for every configuration kept in another file as it was (names and
    formats without a path separator). *)
Theorem save_config_other_config (L : pylibs) (self : ConfigManager.t)
    (rnd config_name format other other_format : string) (config_data : json)
    (encrypt decrypt : bool) (w : world) :
  Py.contains os_path.sep config_name = false → Py.contains os_path.sep format = false →
  Py.contains os_path.sep other = false → Py.contains os_path.sep other_format = false →
  config_name +:+ "." +:+ format ≠ other +:+ "." +:+ other_format →
  (ConfigManager.load_config L self other other_format decrypt
     (ConfigManager.save_config L self rnd config_name config_data format encrypt w).2).1
  = (ConfigManager.load_config L self other other_format decrypt w).1.
Proof.
  intros Hn Hf Ho Hof Hne.
  destruct (save_config_put_file L self rnd config_name format config_data encrypt w)
    as [content ->].
  apply load_config_ext; [|apply put_file_is_dir].
  apply put_file_file_at. intros E. apply (f_equal snd) in E.
  unfold ConfigManager.config_path in E.
  rewrite !split_join_base in E by (by rewrite !contains_app, ?Hn, ?Hf, ?Ho, ?Hof).
  done.
Qed.

Lemma save_config_other_config_witness :
  (ConfigManager.load_config Sample.libs Sample.cm "app" "json" false
     (ConfigManager.save_config Sample.libs Sample.cm "iv" "app" (JDict [("a", JNum 1)])
        "yaml" false Sample.world2).2).1
  = (ConfigManager.load_config Sample.libs Sample.cm "app" "json" false Sample.world2).1.
Proof.
  apply (save_config_other_config Sample.libs Sample.cm "iv" "app" "yaml" "app" "json"
           (JDict [("a", JNum 1)]) false false Sample.world2);
    (reflexivity || discriminate).
Defined.

(** ** [SecureAPIKeyManager]: what raises *)

(** Property X26.  [retrieve_api_key] raises only when the path of the key
    is a directory ([IsADirectoryError]: the file is opened outside the
    [try] block); otherwise it returns, a key or [None], and leaves the
    files and the remote services alone. *)
Theorem retrieve_api_key_raises_only_for_directory (L : pylibs)
    (self : SecureAPIKeyManager.t) (service : string) (w : world) :
  if os.is_dir (fs w)
       (os_path.join (SecureAPIKeyManager.key_storage_path self) (service +:+ "_key.enc"))
  then SecureAPIKeyManager.retrieve_api_key L self service w = (Raise IsADirectoryError, w)
  else ∃ key w', SecureAPIKeyManager.retrieve_api_key L self service w = (Return key, w')
                 ∧ fs w' = fs w ∧ remote_calls w' = remote_calls w.
Proof.
  set (key_file :=
         os_path.join (SecureAPIKeyManager.key_storage_path self) (service +:+ "_key.enc")).
  unfold SecureAPIKeyManager.retrieve_api_key, bind, os.path_exists, os.read_file.
  fold key_file. destruct (os.is_dir (fs w) key_file) eqn:Hd.
  - rewrite orb_true_r. simpl. by rewrite Hd.
  - rewrite orb_false_r. unfold os.is_file.
    destruct (os.file_at (fs w) key_file) as [data|] eqn:Hf.
    + rewrite bool_decide_true by eauto. simpl. rewrite Hd, Hf.
      unfold try_except, or_raise.
      destruct (Fernet_decrypt L _ data) as [plain|]; [|by eexists _, _].
      unfold ret at 1. destruct (utf8.decode plain); by eexists _, _.
    + rewrite bool_decide_false by (by intros [? ?]). by eexists _, _.
Qed.

(** Property X27.  A key file whose content the cipher rejects is never
    replaced: every [SecureAPIKeyManager.__init__] against the storage path
    raises [ValueError] and changes nothing. *)
Theorem SecureAPIKeyManager_init_rejected_key (L : pylibs) (rnd path : string)
    (w : world) (k : string) :
  os.is_dir (fs w) path = true →
  os.regular_file (fs w) (os_path.join path "encryption.key") k →
  Fernet_key_ok L k = false →
  SecureAPIKeyManager.__init__ L rnd path w = (Raise ValueError, w).
Proof.
  intros Hd Hk Hok. unfold SecureAPIKeyManager.__init__, SecureAPIKeyManager._ensure_storage_dir.
  unfold bind at 1. rewrite (makedirs_existing _ _ Hd).
  unfold bind at 1. unfold SecureAPIKeyManager._load_encryption_key.
  unfold bind at 1. rewrite (path_exists_regular _ _ _ Hk). simpl.
  unfold bind. unfold ret at 1. rewrite (read_file_regular _ _ _ Hk).
  unfold Fernet. by rewrite Hok.
Qed.

Lemma SecureAPIKeyManager_init_rejected_key_witness :
  let w := with_fs Sample.world0
             {[ "/home/u/.ai_api_keys" := {[ "encryption.key" := "too short" ]} ]} in
  SecureAPIKeyManager.__init__ Sample.libs "c2FtcGxl" "/home/u/.ai_api_keys" w
  = (Raise ValueError, w).
Proof.
  intros w.
  apply (SecureAPIKeyManager_init_rejected_key Sample.libs "c2FtcGxl" "/home/u/.ai_api_keys"
           w "too short").
  - vm_compute; reflexivity.
  - split; vm_compute; reflexivity.
  - reflexivity.
Defined.
